(** * RoboDanny, [cogs/buttons.py]: the spoiler subsystem

    A shallow embedding of the spoiler storage, caching and reveal code of
    [cogs/buttons.py]:

    - [SpoilerCache] and the archive embed written by [Buttons.redirect_post]
      (lines 418-472),
    - the two-lookup reconstruction [Buttons.get_spoiler_cache] (474-510),
    - the reveal handlers [SpoilerView.reveal_spoiler] (267-278) and
      [Buttons.on_raw_reaction_add] (512-528), the [spoiler] command (530-557),
    - [SpoilerCooldown] (224-234) and the [LRU(128)] cache (286),
    - the feedback handlers [Buttons.feedback], [FeedbackModal.on_submit]
      and [Buttons.get_feedback_embed] (245-253, 298-304, 342-394),
    - the Reddit media converter [RedditMediaURL.convert] and the
      [vreddit] command (114-165, 559-576).

    Coroutines are modelled in a state-and-exception monad over the cog's
    mutable state; what the remote side (Discord, HTTP) answers is a record
    of oracles, and every remote interaction is appended to a trace. *)

From Stdlib Require Import ZArith Ascii String List Bool Lia QArith Lqa.
From Stdlib Require Import DecimalString DecimalPos DecimalN DecimalZ.
From stdpp Require Import base option list gmap.

Import ListNotations.
#[local] Open Scope string_scope.
#[local] Open Scope Z_scope.

(* ===================================================================== *)
(** ** Python builtins used by the code *)
(* ===================================================================== *)

Module Py.

(** [str(n)] for an [int]. *)
Definition str_of_int (n : Z) : string := NilZero.string_of_int (Z.to_int n).

(** Characters [int()] strips around the literal.  A character of a
    [string] is a code point below 256.  CPython strips the ASCII
    whitespace (tab to carriage return, and the space) and, after turning
    them into spaces, the other whitespace characters, of which U+0085
    and U+00A0 are below 256; the separators U+001C to U+001F are not
    stripped. *)
Definition is_space (c : ascii) : bool :=
  let n := nat_of_ascii c in
  (Nat.eqb n 32 || (Nat.leb 9 n && Nat.leb n 13) || Nat.eqb n 133 || Nat.eqb n 160)%bool.

Fixpoint lstrip (s : string) : string :=
  match s with
  | String c s' => if is_space c then lstrip s' else s
  | EmptyString => EmptyString
  end.

(** [rstrip] keeps a character when anything after it is kept or when it
    is not a space. *)
Fixpoint rstrip (s : string) : string :=
  match s with
  | EmptyString => EmptyString
  | String c s' =>
      match rstrip s' with
      | EmptyString => if is_space c then EmptyString else String c EmptyString
      | r => String c r
      end
  end.

Definition strip (s : string) : string := rstrip (lstrip s).

Definition digit_of_char (c : ascii) : option Z :=
  let n := nat_of_ascii c in
  if (Nat.leb 48 n && Nat.leb n 57)%bool then Some (Z.of_nat n - 48) else None.

(** The digit part of an integer literal: decimal digits, single
    underscores allowed between two digits.  [prev] tells whether the
    previous character was a digit. *)
Fixpoint parse_digits (s : string) (acc : Z) (prev : bool) : option Z :=
  match s with
  | EmptyString => if prev then Some acc else None
  | String c s' =>
      if Ascii.eqb c "_" then
        if prev then parse_digits s' acc false else None
      else
        match digit_of_char c with
        | Some d => parse_digits s' (10 * acc + d) true
        | None => None
        end
  end.

(** [int(s)] for a [str] in base 10; [None] is [ValueError].  Among the
    code points below 256 the decimal digits are the ASCII ones; text
    with characters from 256 on (other decimal digits among them) is not
    represented. *)
Definition int_of_str (s : string) : option Z :=
  match strip s with
  | String "+" s' => parse_digits s' 0 false
  | String "-" s' => Z.opp <$> parse_digits s' 0 false
  | s' => parse_digits s' 0 false
  end.

(** [s.lower()], on ASCII. *)
Definition lower_char (c : ascii) : ascii :=
  let n := nat_of_ascii c in
  if (Nat.leb 65 n && Nat.leb n 90)%bool then ascii_of_nat (n + 32) else c.

Fixpoint lower (s : string) : string :=
  match s with
  | EmptyString => EmptyString
  | String c s' => String (lower_char c) (lower s')
  end.

(** [s.endswith(suffix)]: some tail of [s] is [suffix]. *)
Fixpoint endswith (s suffix : string) : bool :=
  (String.eqb s suffix
   || match s with
      | EmptyString => false
      | String _ s' => endswith s' suffix
      end)%bool.

(** [s.endswith(tuple)]. *)
Definition endswith_any (s : string) (suffixes : list string) : bool :=
  existsb (endswith s) suffixes.

(** [', '.join(xs)] and friends. *)
Fixpoint join (sep : string) (xs : list string) : string :=
  match xs with
  | [] => ""
  | [x] => x
  | x :: rest => x ++ sep ++ join sep rest
  end.

End Py.

(* ===================================================================== *)
(** ** Exceptions and results *)
(* ===================================================================== *)

(** The exception classes the modelled code can meet.  [Forbidden],
    [NotFound] and [DiscordServerError] are subclasses of
    [discord.HTTPException]; [ClientError] stands for aiohttp's transport
    errors. *)
Inductive exn_class :=
  | IndexError | KeyError | ValueError | TypeError | RuntimeError
  | HTTPException | Forbidden | NotFound | DiscordServerError
  | ClientError.

(** An exception object: its class and [str(e)]. *)
Record exn := Exn { exn_cls : exn_class; exn_str : string }.

Definition class_name (c : exn_class) : string :=
  match c with
  | IndexError => "IndexError" | KeyError => "KeyError"
  | ValueError => "ValueError" | TypeError => "TypeError"
  | RuntimeError => "RuntimeError" | HTTPException => "HTTPException"
  | Forbidden => "Forbidden" | NotFound => "NotFound"
  | DiscordServerError => "DiscordServerError" | ClientError => "ClientError"
  end.

(** [isinstance(e, discord.HTTPException)]. *)
Definition is_HTTPException (e : exn) : bool :=
  match exn_cls e with
  | HTTPException | Forbidden | NotFound | DiscordServerError => true
  | _ => false
  end.

Inductive result (A : Type) :=
  | Return (a : A)
  | Raise (e : exn).
Arguments Return {A} a.
Arguments Raise {A} e.

(* ===================================================================== *)
(** ** Data model *)
(* ===================================================================== *)

(** [discord.Attachment]: what the code and the spec read of it. *)
Record Attachment := {
  filename : string;
  url : string;
  size : Z;
}.

(** [discord.File(fp, filename=...)]. *)
Record File := {
  file_fp : string;
  file_filename : string;
}.

(** [discord.Embed]: the slots the code writes or reads, but for the
    colour and the icon URLs, which only matter to the rendering.  A slot
    that was never set reads back as [None]. *)
Record Embed := {
  embed_title : option string;
  embed_description : option string;
  embed_author_name : option string;
  embed_footer_text : option string;
  embed_image_url : option string;
  embed_fields : list (string * string);
}.

Definition Embed_new (title description : option string) : Embed :=
  {| embed_title := title; embed_description := description;
     embed_author_name := None; embed_footer_text := None;
     embed_image_url := None; embed_fields := [] |}.

Definition set_description (d : string) (e : Embed) : Embed :=
  {| embed_title := embed_title e; embed_description := Some d;
     embed_author_name := embed_author_name e;
     embed_footer_text := embed_footer_text e;
     embed_image_url := embed_image_url e; embed_fields := embed_fields e |}.

Definition set_title (t : string) (e : Embed) : Embed :=
  {| embed_title := Some t; embed_description := embed_description e;
     embed_author_name := embed_author_name e;
     embed_footer_text := embed_footer_text e;
     embed_image_url := embed_image_url e; embed_fields := embed_fields e |}.

Definition set_author (name : string) (e : Embed) : Embed :=
  {| embed_title := embed_title e; embed_description := embed_description e;
     embed_author_name := Some name;
     embed_footer_text := embed_footer_text e;
     embed_image_url := embed_image_url e; embed_fields := embed_fields e |}.

Definition set_footer (text : string) (e : Embed) : Embed :=
  {| embed_title := embed_title e; embed_description := embed_description e;
     embed_author_name := embed_author_name e;
     embed_footer_text := Some text;
     embed_image_url := embed_image_url e; embed_fields := embed_fields e |}.

Definition set_image (u : string) (e : Embed) : Embed :=
  {| embed_title := embed_title e; embed_description := embed_description e;
     embed_author_name := embed_author_name e;
     embed_footer_text := embed_footer_text e;
     embed_image_url := Some u; embed_fields := embed_fields e |}.

Definition add_field (name value : string) (e : Embed) : Embed :=
  {| embed_title := embed_title e; embed_description := embed_description e;
     embed_author_name := embed_author_name e;
     embed_footer_text := embed_footer_text e;
     embed_image_url := embed_image_url e;
     embed_fields := embed_fields e ++ [(name, value)] |}.

(** [discord.Message]. *)
Record Message := {
  message_id : Z;
  embeds : list Embed;
  message_attachments : list Attachment;
}.

(** [discord.User]. *)
Record User := {
  user_name : string;
  user_bot : bool;
}.

(** [SpoilerCache] (lines 176-184).  [title] is declared [str], but line
    505 stores [data.title], which is [None] for an embed without a title;
    the field is modelled with the values it can hold at run time. *)
Record SpoilerCache := {
  author_id : Z;
  channel_id : Z;
  title : option string;
  text : option string;
  attachments : list Attachment;
}.

(** An aiohttp response: status, the [Content-Length] header if present,
    and what [await resp.read()] gives. *)
Record Response := {
  status : Z;
  content_length : option string;
  read : result string;
}.

(* ===================================================================== *)
(** ** The bounded lookup cache *)
(* ===================================================================== *)

Module LRU.

(** Modelled from the spec: the [lru] package behind [LRU(128)] (line 286)
    is a third-party extension that is not in the repository; only its
    use through [cache[key]] and [cache[key] = value] is.  The spec, 4.2:
    a bounded least-recently-used cache; a successful [get] refreshes the
    entry's recency; [put] inserts or refreshes, triggering eviction of
    the least-recently-accessed entry when capacity is exceeded.

    [items] lists the entries from the most recently accessed to the
    least recently accessed one. *)
Record t (V : Type) := Make {
  capacity : nat;
  items : list (Z * V);
}.
Arguments Make {V} capacity items.
Arguments capacity {V} _.
Arguments items {V} _.

Section Ops.
Context {V : Type}.

(** Modelled from the spec: [LRU(n)], an empty cache of capacity [n]. *)
Definition new (n : nat) : t V := Make n [].

(** Modelled from the spec: the entry of key [k], if the cache holds one. *)
Fixpoint find (k : Z) (l : list (Z * V)) : option V :=
  match l with
  | [] => None
  | (k', v) :: l' => if Z.eqb k k' then Some v else find k l'
  end.

(** Modelled from the spec: the entries without the one of key [k]. *)
Fixpoint remove (k : Z) (l : list (Z * V)) : list (Z * V) :=
  match l with
  | [] => []
  | (k', v) :: l' => if Z.eqb k k' then remove k l' else (k', v) :: remove k l'
  end.

Definition keys (c : t V) : list Z := map fst (items c).

(** Modelled from the spec: a look at the entry of [k] that leaves the
    recency order as it is. *)
Definition peek (k : Z) (c : t V) : option V := find k (items c).

(** Modelled from the spec: [cache[k]], the [get] of 4.2.  [None] is
    [KeyError]; a hit moves the entry to the most-recent end. *)
Definition getitem (k : Z) (c : t V) : option (V * t V) :=
  match find k (items c) with
  | Some v => Some (v, Make (capacity c) ((k, v) :: remove k (items c)))
  | None => None
  end.

(** Modelled from the spec: [cache[k] = v], the [put] of 4.2.  The entry
    becomes the most recent one; when the capacity is exceeded the least
    recently accessed entry is dropped. *)
Definition setitem (k : Z) (v : V) (c : t V) : t V :=
  let l := (k, v) :: remove k (items c) in
  Make (capacity c)
       (if Nat.ltb (capacity c) (length l) then removelast l else l).

(** Modelled from the spec: the least recently accessed key, the next
    eviction victim. *)
Definition victim (c : t V) : option Z := fst <$> last (items c).

(** Well-formed caches: one entry per key, within capacity. *)
Definition wf (c : t V) : Prop :=
  NoDup (keys c) /\ (length (items c) <= capacity c)%nat.

End Ops.

End LRU.

(* ===================================================================== *)
(** ** The cooldown mapping *)
(* ===================================================================== *)

Module Cooldowns.

(** Modelled from the spec: [commands.Cooldown] and
    [commands.CooldownMapping] belong to discord.py and are not in the
    repository; the code only builds [Cooldown(1, 10.0)] and calls
    [get_bucket] and [update_rate_limit].  The spec, 4.5 and 3: a token
    bucket per key with capacity [rate], refilled [per] seconds after it
    was drawn from; an update consumes a token if one is available;
    buckets are created lazily on first use in an unbounded map.

    Time is the clock reading in seconds, a rational. *)
Record Cooldown := {
  rate : Z;
  per : Q;
  tokens : Z;
  window : Q;
}.

(** Modelled from the spec: [Cooldown(rate, per)], a full bucket. *)
Definition make (rate : Z) (per : Q) : Cooldown :=
  {| rate := rate; per := per; tokens := rate; window := 0%Q |}.

(** Modelled from the spec: the tokens available at time [current]; the
    bucket is full again [per] seconds after it was drawn from. *)
Definition get_tokens (current : Q) (b : Cooldown) : Z :=
  if Qle_bool (window b + per b) current then rate b else tokens b.

(** Modelled from the spec: [bucket.update_rate_limit()].  [None] when a
    token was available and has been consumed, otherwise the time to
    wait. *)
Definition update_rate_limit (current : Q) (b : Cooldown) : option Q * Cooldown :=
  let t := get_tokens current b in
  if 0 <? t then
    (None,
     {| rate := rate b; per := per b; tokens := t - 1;
        window := if t =? rate b then current else window b |})
  else
    (Some (window b + per b - current)%Q, b).

(** Modelled from the spec: [CooldownMapping], the original cooldown and
    the buckets created so far, by key. *)
Record CooldownMapping := {
  cooldown : Cooldown;
  cache : gmap (Z * Z) Cooldown;
}.

(** Modelled from the spec: [CooldownMapping(original, type)], no bucket
    yet. *)
Definition new (original : Cooldown) : CooldownMapping :=
  {| cooldown := original; cache := ∅ |}.

(** Modelled from the spec: [mapping.get_bucket(key)], the bucket of
    [key], created from the original cooldown on first use. *)
Definition get_bucket (key : Z * Z) (m : CooldownMapping) : Cooldown * CooldownMapping :=
  match cache m !! key with
  | Some b => (b, m)
  | None => (cooldown m, {| cooldown := cooldown m; cache := <[key := cooldown m]> (cache m) |})
  end.

(** Modelled from the spec: the bucket object of [key] is updated in
    place. *)
Definition set_bucket (key : Z * Z) (b : Cooldown) (m : CooldownMapping) : CooldownMapping :=
  {| cooldown := cooldown m; cache := <[key := b]> (cache m) |}.

End Cooldowns.

(* ===================================================================== *)
(** ** The cog's state, the remote side, and the monad of coroutines *)
(* ===================================================================== *)

(** Operations a handler performs, in the order it performs them.  A
    remote call is recorded when it is issued, whether it then succeeds or
    raises. *)
Inductive event :=
  | EvFetchMessage (channel message : Z)      (* await channel.fetch_message(id) *)
  | EvFetchUser (user : Z)                    (* await bot.fetch_user(id) *)
  | EvSessionGet (u : string)                 (* ctx.session.get(url) *)
  | EvSleep                                   (* await asyncio.sleep(0.2) *)
  | EvMessageDelete (channel message : Z)     (* await ctx.message.delete() *)
  | EvChannelSend (channel : Z) (embed : Embed) (files : list File)
                                              (* await storage.send(...) *)
  | EvCtxSend (content : option string) (embed : option Embed)
  | EvInteractionSend (content : option string) (embed : option Embed)
  | EvUserSend (user : Z) (embed : Embed)     (* await user.send(embed=...) *)
  | EvCacheSet (key : Z).                     (* self._spoiler_cache[key] = ... *)

(** The [Buttons] cog (lines 284-289): the two process-lifetime objects,
    and the trace of operations performed so far. *)
Record Buttons := {
  _spoiler_cache : LRU.t SpoilerCache;
  _spoiler_cooldown : Cooldowns.CooldownMapping;
  trace : list event;
}.

Definition set_cache (c : LRU.t SpoilerCache) (s : Buttons) : Buttons :=
  {| _spoiler_cache := c; _spoiler_cooldown := _spoiler_cooldown s; trace := trace s |}.

Definition set_cooldown (m : Cooldowns.CooldownMapping) (s : Buttons) : Buttons :=
  {| _spoiler_cache := _spoiler_cache s; _spoiler_cooldown := m; trace := trace s |}.

Definition log (ev : event) (s : Buttons) : Buttons :=
  {| _spoiler_cache := _spoiler_cache s; _spoiler_cooldown := _spoiler_cooldown s;
     trace := trace s ++ [ev] |}.

(** [discord.Guild], as far as [guild.get_channel] goes; a channel is
    named by its id. *)
Record Guild := {
  guild_get_channel : Z -> option Z;
}.

(** What the bot's caches, Discord, the HTTP session and the clock answer
    during one handler run. *)
Record Env := {
  bot_get_guild : Z -> option Guild;
  bot_get_channel : Z -> option Z;
  bot_get_user : Z -> option User;
  bot_fetch_user : Z -> result User;
  channel_fetch_message : Z -> Z -> result Message;
  channel_send : Z -> Embed -> list File -> result Message;
  message_delete : Z -> Z -> result unit;
  session_get : string -> result Response;
  ctx_send : option string -> option Embed -> result Message;
  interaction_send : option string -> option Embed -> result unit;
  user_send : Z -> Embed -> result unit;
  time_time : Q;
}.

(** [commands.Context] of the [spoiler] command. *)
Record Context := {
  ctx_author_id : Z;
  ctx_author_name : string;
  ctx_channel_id : Z;
  ctx_message_id : Z;
  ctx_message_attachments : list Attachment;
}.

(** [discord.Interaction] of a button press. *)
Record Interaction := {
  interaction_channel_id : Z;
  interaction_message_id : Z;
}.

(** [discord.RawReactionActionEvent]. *)
Record Payload := {
  payload_emoji_id : option Z;
  payload_message_id : Z;
  payload_user_id : Z;
  payload_channel_id : Z;
}.

(** A coroutine: it runs on the cog's state and returns or raises. *)
Definition M (A : Type) : Type := Buttons -> result A * Buttons.

Definition ret {A} (a : A) : M A := fun s => (Return a, s).

Definition raise {A} (e : exn) : M A := fun s => (Raise e, s).

Definition bind {A B} (m : M A) (k : A -> M B) : M B :=
  fun s =>
    match m s with
    | (Return a, s') => k a s'
    | (Raise e, s') => (Raise e, s')
    end.

(** [try: m  except ... as e: h e]. *)
Definition try_except {A} (m : M A) (h : exn -> M A) : M A :=
  fun s =>
    match m s with
    | (Return a, s') => (Return a, s')
    | (Raise e, s') => h e s'
    end.

Definition lift {A} (r : result A) : M A := fun s => (r, s).

(** A suspending remote call: recorded, then answered by the remote side. *)
Definition await {A} (ev : event) (r : result A) : M A :=
  fun s => (r, log ev s).

Declare Scope monad_scope.
Delimit Scope monad_scope with monad.
Notation "x <- m ;; k" := (bind m (fun x => k))
  (at level 100, m at next level, right associativity) : monad_scope.
Notation "m ;; k" := (bind m (fun _ => k))
  (at level 100, right associativity) : monad_scope.

(** [for x in xs: body], with [continue] and [break]. *)
Inductive ctl := Next | Break.

Fixpoint for_ {A St} (xs : list A) (body : A -> St -> M (ctl * St)) (st : St) : M St :=
  match xs with
  | [] => ret st
  | x :: xs' =>
      bind (body x st) (fun r =>
        match r with
        | (Next, st') => for_ xs' body st'
        | (Break, st') => ret st'
        end)
  end.

(** [xs[0]]. *)
Definition index0 {A} (xs : list A) : result A :=
  match xs with
  | x :: _ => Return x
  | [] => Raise (Exn IndexError "list index out of range")
  end.

(** [int(x)] for an [Optional[str]]. *)
Definition py_int (x : option string) : result Z :=
  match x with
  | None =>
      Raise (Exn TypeError
        "int() argument must be a string, a bytes-like object or a real number, not 'NoneType'")
  | Some s =>
      match Py.int_of_str s with
      | Some n => Return n
      | None => Raise (Exn ValueError ("invalid literal for int() with base 10: '" ++ s ++ "'"))
      end
  end.

(** [f'{x}'] for an [Optional[str]]. *)
Definition fmt (x : option string) : string :=
  match x with
  | Some s => s
  | None => "None"
  end.

(** Truthiness of an [Optional[str]]: [None] and [''] are falsy. *)
Definition truthy (x : option string) : bool :=
  match x with
  | None => false
  | Some s => negb (String.eqb s "")
  end.

(* ===================================================================== *)
(** ** [SpoilerCache] methods (lines 186-221) *)
(* ===================================================================== *)

Definition SPOILER_EMOJI_ID : Z := 430469957042831371.

(** [has_single_image] (line 187). *)
Definition has_single_image (self : SpoilerCache) : bool :=
  match attachments self with
  | [] => false
  | a :: _ => Py.endswith_any (Py.lower (filename a)) [".gif"; ".png"; ".jpg"; ".jpeg"]
  end.

Definition newline : string := String (ascii_of_nat 10) EmptyString.

(** [to_embed] (lines 189-210); [user] is [bot.get_user(self.author_id)]. *)
Definition to_embed (self : SpoilerCache) (user : option User) : Embed :=
  let embed := Embed_new (Some (fmt (title self) ++ " Spoiler")%string) None in
  let embed := if truthy (text self) then set_description (fmt (text self)) embed else embed in
  let '(embed, rest) :=
    if has_single_image self then
      let embed :=
        match text self with
        | None => set_title (fmt (title self) ++ " Spoiler Image")%string embed
        | Some _ => embed
        end in
      (match attachments self with
       | a :: _ => set_image (url a) embed
       | [] => embed
       end,
       tail (attachments self))
    else (embed, attachments self) in
  let embed :=
    match rest with
    | [] => embed
    | _ =>
        let value :=
          Py.join newline
            (map (fun a => ("[" ++ filename a ++ "](" ++ url a ++ ")")%string) rest) in
        add_field "Attachments" value embed
    end in
  match user with
  | Some u => set_author (user_name u) embed
  | None => embed
  end.

(** [to_spoiler_embed] (lines 212-221): the front-door embed; its footer
    holds the id of the storage message. *)
Definition to_spoiler_embed (self : SpoilerCache) (ctx : Context) (storage_message : Message) : Embed :=
  let description := "This spoiler has been hidden. Press the button to reveal it!" in
  let embed := Embed_new (Some (fmt (title self) ++ " Spoiler")%string) (Some description) in
  let embed :=
    if (has_single_image self && negb (bool_decide (is_Some (text self))))%bool
    then set_title (fmt (title self) ++ " Spoiler Image")%string embed
    else embed in
  let embed := set_footer (Py.str_of_int (message_id storage_message)) embed in
  set_author (ctx_author_name ctx) embed.

(* ===================================================================== *)
(** ** The archive codec (lines 451-456 and 500-508) *)
(* ===================================================================== *)

(** The embed [redirect_post] writes to the storage channel (lines
    451-456). *)
Definition archive_embed (author channel : Z) (title text : option string) : Embed :=
  let data := Embed_new title None in
  let data := if truthy text then set_description (fmt text) data else data in
  let data := set_author (Py.str_of_int author) data in
  set_footer (Py.str_of_int channel) data.

(** The record [get_spoiler_cache] builds from the storage message (lines
    500-508).  The dictionary display evaluates its values in order. *)
Definition decode (message : Message) : result SpoilerCache :=
  match index0 (embeds message) with
  | Raise e => Raise e
  | Return data =>
      match py_int (embed_author_name data) with
      | Raise e => Raise e
      | Return author =>
          match py_int (embed_footer_text data) with
          | Raise e => Raise e
          | Return channel =>
              Return {| author_id := author;
                        channel_id := channel;
                        attachments := message_attachments message;
                        title := embed_title data;
                        text := if truthy (embed_description data)
                                then embed_description data else None |}
          end
      end
  end.

(** The durable copy of a record: the storage message holding its archive
    embed and its attachments. *)
Definition encode (id : Z) (r : SpoilerCache) : Message :=
  {| message_id := id;
     embeds := [archive_embed (author_id r) (channel_id r) (title r) (text r)];
     message_attachments := attachments r |}.

(* ===================================================================== *)
(** ** [SpoilerCooldown] (lines 224-234) *)
(* ===================================================================== *)

(** [SpoilerCooldown()]: [Cooldown(1, 10.0)] per key. *)
Definition SpoilerCooldown : Cooldowns.CooldownMapping :=
  Cooldowns.new (Cooldowns.make 1 10).

(** [_bucket_key] (line 229). *)
Definition _bucket_key (tup : Z * Z) : Z * Z := tup.

(** [is_rate_limited] (lines 231-234), at clock reading [now]. *)
Definition is_rate_limited (now : Q) (message user : Z)
    (self : Cooldowns.CooldownMapping) : bool * Cooldowns.CooldownMapping :=
  let key := _bucket_key (message, user) in
  let '(bucket, self) := Cooldowns.get_bucket key self in
  let '(retry_after, bucket) := Cooldowns.update_rate_limit now bucket in
  (bool_decide (is_Some retry_after), Cooldowns.set_bucket key bucket self).

(** [Buttons.__init__] (lines 284-289). *)
Definition Buttons_init : Buttons :=
  {| _spoiler_cache := LRU.new 128;
     _spoiler_cooldown := SpoilerCooldown;
     trace := [] |}.

(* ===================================================================== *)
(** ** The handlers *)
(* ===================================================================== *)

Definition supported_attachments : list string :=
  [".png"; ".jpg"; ".jpeg"; ".webm"; ".gif"; ".mp4"; ".txt"].

Definition max_mib : Z := 25 * 1024 * 1024.

(** [attach.filename.lower().endswith(supported_attachments)] (line 424). *)
Definition supported (attach : Attachment) : bool :=
  Py.endswith_any (Py.lower (filename attach)) supported_attachments.

(** [int(resp.headers['Content-Length'])] (line 435). *)
Definition header_content_length (resp : Response) : result Z :=
  match content_length resp with
  | None => Raise (Exn KeyError "'Content-Length'")
  | Some v => py_int (Some v)
  end.

Section Handlers.

Variable env : Env.

#[local] Open Scope monad_scope.

(** [storage_channel] (lines 306-312). *)
Definition storage_channel : option Z :=
  match bot_get_guild env 182325885867786241 with
  | None => None
  | Some guild => guild_get_channel guild 430229522340773899
  end.

(** [self._spoiler_cache[key]] inside [try ... except KeyError]. *)
Definition cache_getitem (key : Z) : M (option SpoilerCache) :=
  fun s =>
    match LRU.getitem key (_spoiler_cache s) with
    | Some (v, c) => (Return (Some v), set_cache c s)
    | None => (Return None, s)
    end.

(** [self._spoiler_cache[key] = value]. *)
Definition cache_setitem (key : Z) (value : SpoilerCache) : M unit :=
  fun s => (Return tt, log (EvCacheSet key) (set_cache (LRU.setitem key value (_spoiler_cache s)) s)).

Definition fetch_message (channel message : Z) : M Message :=
  await (EvFetchMessage channel message) (channel_fetch_message env channel message).

(** [get_spoiler_cache] (lines 474-510). *)
Definition get_spoiler_cache (channel_id message_id : Z) : M (option SpoilerCache) :=
  hit <- cache_getitem message_id ;;
  match hit with
  | Some cache => ret (Some cache)
  | None =>
      match storage_channel with
      | None => ret None
      | Some storage =>
          match bot_get_channel env channel_id with
          | None => ret None
          | Some channel =>
              fetched <-
                try_except
                  (original_message <- fetch_message channel message_id ;;
                   embed <- lift (index0 (embeds original_message)) ;;
                   storage_message_id <- lift (py_int (embed_footer_text embed)) ;;
                   message <- fetch_message storage storage_message_id ;;
                   ret (Some message))
                  (fun _ => ret None) ;;
              match fetched with
              | None => ret None
              | Some message =>
                  cache <- lift (decode message) ;;
                  cache_setitem message_id cache ;;
                  ret (Some cache)
              end
          end
      end
  end.

(** One round of the loop over [ctx.message.attachments] (lines
    430-446); the loop state is [(files, total_bytes)]. *)
Definition fetch_attachment (attach : Attachment) (st : list File * Z)
    : M (ctl * (list File * Z)) :=
  let '(files, total_bytes) := st in
  resp <- await (EvSessionGet (url attach)) (session_get env (url attach)) ;;
  if negb (status resp =? 200) then ret (Next, (files, total_bytes))
  else
    content_length <- lift (header_content_length resp) ;;
    if total_bytes + content_length >? max_mib then ret (Next, (files, total_bytes))
    else
      let total_bytes := total_bytes + content_length in
      fp <- lift (read resp) ;;
      let files := (files ++ [{| file_fp := fp; file_filename := filename attach |}])%list in
      if total_bytes >=? max_mib then ret (Break, (files, total_bytes))
      else ret (Next, (files, total_bytes)).

(** [redirect_post] (lines 418-472). *)
Definition redirect_post (ctx : Context) (title : string) (text : option string)
    : M (Message * SpoilerCache) :=
  match storage_channel with
  | None => raise (Exn RuntimeError "Spoiler storage was not found")
  | Some storage =>
      if negb (forallb supported (ctx_message_attachments ctx)) then
        raise (Exn RuntimeError
                 ("Unsupported file in attachments. Only "
                  ++ Py.join ", " supported_attachments ++ " supported."))
      else
        st <- for_ (ctx_message_attachments ctx) fetch_attachment ([], 0) ;;
        let files := fst st in
        await EvSleep (Return tt) ;;
        await (EvMessageDelete (ctx_channel_id ctx) (ctx_message_id ctx))
              (message_delete env (ctx_channel_id ctx) (ctx_message_id ctx)) ;;
        let data := archive_embed (ctx_author_id ctx) (ctx_channel_id ctx) (Some title) text in
        message <-
          try_except
            (await (EvChannelSend storage data files) (channel_send env storage data files))
            (fun e =>
               if is_HTTPException e then
                 raise (Exn RuntimeError
                          ("Sorry. Could not store message due to "
                           ++ class_name (exn_cls e) ++ ": " ++ exn_str e ++ "."))
               else raise e) ;;
        let cache :=
          {| author_id := ctx_author_id ctx;
             channel_id := ctx_channel_id ctx;
             attachments := message_attachments message;
             title := Some title;
             text := text |} in
        ret (message, cache)
  end.

(** The [spoiler] command (lines 530-557). *)
Definition spoiler (ctx : Context) (title : string) (text : option string) : M unit :=
  if (100 <? String.length title)%nat then
    await (EvCtxSend (Some "Sorry. Title has to be shorter than 100 characters.") None)
          (ctx_send env (Some "Sorry. Title has to be shorter than 100 characters.") None) ;;
    ret tt
  else
    posted <-
      try_except
        (r <- redirect_post ctx title text ;; ret (Some r))
        (fun e =>
           await (EvCtxSend (Some (exn_str e)) None) (ctx_send env (Some (exn_str e)) None) ;;
           ret None) ;;
    match posted with
    | None => ret tt
    | Some (storage_message, cache) =>
        let embed := to_spoiler_embed cache ctx storage_message in
        spoiler_message <- await (EvCtxSend None (Some embed)) (ctx_send env None (Some embed)) ;;
        cache_setitem (message_id spoiler_message) cache
    end.

(** [SpoilerView.reveal_spoiler] (lines 267-278).  The interaction of a
    button press carries its message and channel, so the two assertions
    hold. *)
Definition reveal_spoiler (interaction : Interaction) : M unit :=
  cache <- get_spoiler_cache (interaction_channel_id interaction)
                             (interaction_message_id interaction) ;;
  match cache with
  | Some cache =>
      let embed := to_embed cache (bot_get_user env (author_id cache)) in
      await (EvInteractionSend None (Some embed)) (interaction_send env None (Some embed))
  | None =>
      await (EvInteractionSend (Some "Could not find this message in storage") None)
            (interaction_send env (Some "Could not find this message in storage") None)
  end.

(** The cooldown check of line 517, on the cog's state. *)
Definition spoiler_cooldown_is_rate_limited (message user : Z) : M bool :=
  fun s =>
    let '(limited, m) := is_rate_limited (time_time env) message user (_spoiler_cooldown s) in
    (Return limited, set_cooldown m s).

(** [on_raw_reaction_add] (lines 512-528). *)
Definition on_raw_reaction_add (payload : Payload) : M unit :=
  if negb (bool_decide (payload_emoji_id payload = Some SPOILER_EMOJI_ID)) then ret tt
  else
    limited <- spoiler_cooldown_is_rate_limited (payload_message_id payload)
                                                (payload_user_id payload) ;;
    if limited then ret tt
    else
      user <- match bot_get_user env (payload_user_id payload) with
              | Some u => ret u
              | None => await (EvFetchUser (payload_user_id payload))
                              (bot_fetch_user env (payload_user_id payload))
              end ;;
      if user_bot user then ret tt
      else
        cache <- get_spoiler_cache (payload_channel_id payload) (payload_message_id payload) ;;
        match cache with
        | Some cache =>
            let embed := to_embed cache (bot_get_user env (author_id cache)) in
            await (EvUserSend (payload_user_id payload) embed)
                  (user_send env (payload_user_id payload) embed)
        | None => ret tt
        end.

End Handlers.

(* ===================================================================== *)
(** ** The feedback handlers (lines 245-253, 298-304, 342-394) *)
(* ===================================================================== *)

(** A guild or a channel as [get_feedback_embed] reads it: its name
    ([obj.guild.name], [str(obj.channel)]) and its id. *)
Record Named := {
  named_str : string;
  named_id : Z;
}.

(** The user who gives feedback: [str(user)] and [user.id]. *)
Record Reporter := {
  reporter_str : string;
  reporter_id : Z;
}.

(** [commands.Context] of the [feedback] command.  [Context.tick] is
    defined in [utils/context.py], outside this file; [ctx_tick_true] is
    what [ctx.tick(True)] gives. *)
Record FeedbackContext := {
  fctx_guild : option Named;
  fctx_channel : option Named;
  fctx_message_created_at : Z;
  fctx_author : Reporter;
  fctx_tick_true : string;
}.

(** [discord.Interaction] of a submitted feedback modal. *)
Record FeedbackInteraction := {
  fint_guild : option Named;
  fint_channel : option Named;
  fint_created_at : Z;
  fint_user : Reporter;
}.

(** The [obj] of [get_feedback_embed]: [Context | discord.Interaction]. *)
Inductive FeedbackOrigin :=
  | OfInteraction (interaction : FeedbackInteraction)
  | OfContext (ctx : FeedbackContext).

Definition origin_guild (obj : FeedbackOrigin) : option Named :=
  match obj with
  | OfInteraction i => fint_guild i
  | OfContext c => fctx_guild c
  end.

Definition origin_channel (obj : FeedbackOrigin) : option Named :=
  match obj with
  | OfInteraction i => fint_channel i
  | OfContext c => fctx_channel c
  end.

(** An embed together with its [timestamp] slot, which [Embed] does not
    carry. *)
Record StampedEmbed := {
  stamped_embed : Embed;
  stamped_timestamp : Z;
}.

(** [get_feedback_embed] (lines 342-372).  [summary[:256]] is the first
    256 characters of the summary. *)
Definition get_feedback_embed (obj : FeedbackOrigin) (summary : string)
    (details : option string) : StampedEmbed :=
  let e := Embed_new (Some "Feedback") None in
  let e :=
    match details with
    | Some d => set_title (substring 0 256 summary) (set_description d e)
    | None => set_description summary e
    end in
  let e :=
    match origin_guild obj with
    | Some guild =>
        add_field "Server"
          (named_str guild ++ " (ID: " ++ Py.str_of_int (named_id guild) ++ ")") e
    | None => e
    end in
  let e :=
    match origin_channel obj with
    | Some channel =>
        add_field "Channel"
          (named_str channel ++ " (ID: " ++ Py.str_of_int (named_id channel) ++ ")") e
    | None => e
    end in
  let '(timestamp, user) :=
    match obj with
    | OfInteraction i => (fint_created_at i, fint_user i)
    | OfContext c => (fctx_message_created_at c, fctx_author c)
    end in
  let e := set_author (reporter_str user) e in
  let e := set_footer ("Author ID: " ++ Py.str_of_int (reporter_id user)) e in
  {| stamped_embed := e; stamped_timestamp := timestamp |}.

Section Feedback.

Variable env : Env.

#[local] Open Scope monad_scope.

(** [feedback_channel] (lines 298-304). *)
Definition feedback_channel : option Z :=
  match bot_get_guild env 182325885867786241 with
  | None => None
  | Some guild => guild_get_channel guild 263814407191134218
  end.

(** The [feedback] command (lines 374-394); [channel.send(embed=e)] sends
    no file. *)
Definition feedback (ctx : FeedbackContext) (content : string) : M unit :=
  match feedback_channel with
  | None => ret tt
  | Some channel =>
      let e := stamped_embed (get_feedback_embed (OfContext ctx) content None) in
      await (EvChannelSend channel e []) (channel_send env channel e []) ;;
      let reply := (fctx_tick_true ctx ++ " Successfully sent feedback")%string in
      await (EvCtxSend (Some reply) None) (ctx_send env (Some reply) None) ;;
      ret tt
  end.

(** [FeedbackModal.on_submit] (lines 245-253); [summary] is
    [str(self.summary)] and [details] is [self.details.value]. *)
Definition on_submit (summary : string) (details : option string)
    (interaction : FeedbackInteraction) : M unit :=
  match feedback_channel with
  | None =>
      await (EvInteractionSend (Some "Could not submit your feedback, sorry about this") None)
            (interaction_send env (Some "Could not submit your feedback, sorry about this")
               None)
  | Some channel =>
      let embed :=
        stamped_embed (get_feedback_embed (OfInteraction interaction) summary details) in
      await (EvChannelSend channel embed []) (channel_send env channel embed []) ;;
      await (EvInteractionSend (Some "Successfully submitted feedback") None)
            (interaction_send env (Some "Successfully submitted feedback") None)
  end.

End Feedback.

(* ===================================================================== *)
(** ** Reddit media (lines 114-165 and 559-576) *)
(* ===================================================================== *)

(** A value [await resp.json()] gives. *)
#[warnings="-register-all"]
Inductive json :=
  | JNull
  | JBool (b : bool)
  | JInt (n : Z)
  | JFloat (q : Q)
  | JStr (s : string)
  | JList (xs : list json)
  | JDict (items : list (string * json)).

(** [type(x).__name__]. *)
Definition type_name (x : json) : string :=
  match x with
  | JNull => "NoneType" | JBool _ => "bool" | JInt _ => "int" | JFloat _ => "float"
  | JStr _ => "str" | JList _ => "list" | JDict _ => "dict"
  end.

(** The value of [key] in the items of a [dict]. *)
Fixpoint dict_get (key : string) (items : list (string * json)) : option json :=
  match items with
  | [] => None
  | (k, v) :: rest => if String.eqb key k then Some v else dict_get key rest
  end.

(** [x[0]]. *)
Definition getitem_0 (x : json) : result json :=
  match x with
  | JList [] => Raise (Exn IndexError "list index out of range")
  | JList (y :: _) => Return y
  | JStr EmptyString => Raise (Exn IndexError "string index out of range")
  | JStr (String c _) => Return (JStr (String c EmptyString))
  | JDict _ => Raise (Exn KeyError "0")
  | _ => Raise (Exn TypeError ("'" ++ type_name x ++ "' object is not subscriptable"))
  end.

(** [x[key]] for a [str] key. *)
Definition getitem_str (x : json) (key : string) : result json :=
  match x with
  | JDict items =>
      match dict_get key items with
      | Some v => Return v
      | None => Raise (Exn KeyError ("'" ++ key ++ "'"))
      end
  | JList _ => Raise (Exn TypeError "list indices must be integers or slices, not str")
  | JStr _ => Raise (Exn TypeError "string indices must be integers, not 'str'")
  | _ => Raise (Exn TypeError ("'" ++ type_name x ++ "' object is not subscriptable"))
  end.

(** Evaluation of a subscript chain: the first exception ends it. *)
Definition and_then {A B} (r : result A) (k : A -> result B) : result B :=
  match r with
  | Return a => k a
  | Raise e => Raise e
  end.

Definition same_class (c1 c2 : exn_class) : bool :=
  match c1, c2 with
  | IndexError, IndexError | KeyError, KeyError | ValueError, ValueError
  | TypeError, TypeError | RuntimeError, RuntimeError | HTTPException, HTTPException
  | Forbidden, Forbidden | NotFound, NotFound | DiscordServerError, DiscordServerError
  | ClientError, ClientError => true
  | _, _ => false
  end.

(** [isinstance(e, classes)] for the classes the [except] clauses of
    [convert] name, none of which has a subclass among the modelled
    ones. *)
Definition isinstance (e : exn) (classes : list exn_class) : bool :=
  existsb (same_class (exn_cls e)) classes.

(** [yarl.URL]: what the code reads of it. *)
Record URL := {
  url_host : option string;
  url_parts : list string;
  url_text : string;
}.

(** An aiohttp response as [convert] and [vreddit] read it: [resp.url],
    [await resp.json()], and the status, [Content-Length] and content. *)
Record RedditResponse := {
  resp_url : URL;
  resp_json : result json;
  resp_base : Response;
}.

(** [RedditMediaURL] (lines 114-117). *)
Record RedditMediaURL := {
  media_url : URL;
  media_filename : string;
}.

(** What a converter ends with: a value, [commands.BadArgument] with its
    message, or another exception. *)
Inductive converted (A : Type) :=
  | Converted (a : A)
  | BadArgument (message : string)
  | Failed (e : exn).
Arguments Converted {A} a.
Arguments BadArgument {A} message.
Arguments Failed {A} e.

(** Operations of [convert] and [vreddit], in the order they are
    performed. *)
Inductive request :=
  | ReqTyping                                      (* await ctx.typing() *)
  | ReqGet (u : URL) (headers : list (string * string))   (* ctx.session.get(u, headers=...) *)
  | ReqSendText (content : string)                 (* await ctx.send(content) *)
  | ReqSendFile (file : File).                     (* await ctx.send(file=...) *)

(** What [yarl], Discord and the HTTP session answer. *)
Record Web := {
  yarl_URL : string -> result URL;
  url_truediv : URL -> string -> URL;
  ctx_typing : result unit;
  session_get_url : URL -> list (string * string) -> result RedditResponse;
  ctx_send_text : string -> result unit;
  ctx_send_file : File -> result unit;
}.

(** A coroutine of the media commands: it appends to the list of
    operations and ends as a converter does. *)
Definition W (A : Type) : Type := list request -> converted A * list request.

Definition retW {A} (a : A) : W A := fun t => (Converted a, t).

Definition bad_argument {A} (message : string) : W A := fun t => (BadArgument message, t).

Definition bindW {A B} (m : W A) (k : A -> W B) : W B :=
  fun t =>
    match m t with
    | (Converted a, t') => k a t'
    | (BadArgument message, t') => (BadArgument message, t')
    | (Failed e, t') => (Failed e, t')
    end.

Definition of_result {A} (r : result A) : converted A :=
  match r with
  | Return a => Converted a
  | Raise e => Failed e
  end.

Definition liftW {A} (r : converted A) : W A := fun t => (r, t).

Definition awaitW {A} (req : request) (r : result A) : W A :=
  fun t => (of_result r, (t ++ [req])%list).

Declare Scope web_scope.
Delimit Scope web_scope with web.
Notation "x <- m ;; k" := (bindW m (fun x => k))
  (at level 100, m at next level, right associativity) : web_scope.
Notation "m ;; k" := (bindW m (fun _ => k))
  (at level 100, right associativity) : web_scope.

(** [RedditMediaURL.__init__] (lines 115-117). *)
Definition RedditMediaURL_init (u : URL) : result RedditMediaURL :=
  match nth_error (url_parts u) 1 with
  | Some part => Return {| media_url := u; media_filename := part ++ ".mp4" |}
  | None => Raise (Exn IndexError "tuple index out of range")
  end.

Definition headers : list (string * string) :=
  [("User-Agent", "Discord:RoboDanny:v4.0 (by /u/Rapptz)")].

(** [url.host and url.host.endswith('.reddit.com')], as a truth value
    (line 135). *)
Definition is_valid_path (u : URL) : bool :=
  match url_host u with
  | None => false
  | Some host => negb (String.eqb host "") && Py.endswith host ".reddit.com"
  end.

(** [data[0]['data']['children'][0]['data']] (line 146). *)
Definition submission_of (data : json) : result json :=
  and_then (getitem_0 data) (fun x =>
  and_then (getitem_str x "data") (fun x =>
  and_then (getitem_str x "children") (fun x =>
  and_then (getitem_0 x) (fun x =>
  getitem_str x "data")))).

(** [x['media']['reddit_video']] (lines 151 and 156). *)
Definition reddit_video_of (x : json) : result json :=
  and_then (getitem_str x "media") (fun m => getitem_str m "reddit_video").

(** The media object of the submission, or of the post it was cross
    posted from (lines 145-158). *)
Definition find_media (data : json) : converted json :=
  match submission_of data with
  | Raise e =>
      if isinstance e [KeyError; TypeError; IndexError]
      then BadArgument "Could not fetch submission."
      else Failed e
  | Return submission =>
      match reddit_video_of submission with
      | Return media => Converted media
      | Raise e =>
          if isinstance e [KeyError; TypeError] then
            match and_then (and_then (getitem_str submission "crosspost_parent_list")
                              getitem_0)
                    reddit_video_of with
            | Return media => Converted media
            | Raise e' =>
                if isinstance e' [KeyError; TypeError; IndexError]
                then BadArgument "Could not fetch media information."
                else Failed e'
            end
          else Failed e
      end
  end.

Section Reddit.

Variable web : Web.

#[local] Open Scope web_scope.

(** [yarl.URL(v)] for a JSON value: only a [str] is accepted. *)
Definition yarl_URL_of (v : json) : result URL :=
  match v with
  | JStr s => yarl_URL web s
  | _ => Raise (Exn TypeError "Constructor parameter should be str")
  end.

(** [yarl.URL(media['fallback_url'])] inside [try ... except KeyError]
    (lines 160-163). *)
Definition fallback_url_of (media : json) : converted URL :=
  match and_then (getitem_str media "fallback_url") yarl_URL_of with
  | Return u => Converted u
  | Raise e =>
      if isinstance e [KeyError]
      then BadArgument "Could not fetch fall back URL."
      else Failed e
  end.

(** What [convert] does with the JSON document (lines 145-165). *)
Definition media_of_json (data : json) : converted RedditMediaURL :=
  match find_media data with
  | Converted media =>
      match fallback_url_of media with
      | Converted u => of_result (RedditMediaURL_init u)
      | BadArgument message => BadArgument message
      | Failed e => Failed e
      end
  | BadArgument message => BadArgument message
  | Failed e => Failed e
  end.

(** The API request of [convert] (lines 139-165, "the long way"), for a
    URL [u] that passed the host check. *)
Definition the_long_way (u : URL) : W RedditMediaURL :=
  let api := url_truediv web u ".json" in
  resp <- awaitW (ReqGet api headers) (session_get_url web api headers) ;;
  if negb (status (resp_base resp) =? 200) then
    bad_argument ("Reddit API failed with " ++ Py.str_of_int (status (resp_base resp)) ++ ".")
  else
    data <- liftW (of_result (resp_json resp)) ;;
    liftW (media_of_json data).

(** [RedditMediaURL.convert] (lines 119-165). *)
Definition convert (argument : string) : W RedditMediaURL :=
  u <- match yarl_URL web argument with
       | Return u => retW u
       | Raise _ => bad_argument "Not a valid URL."
       end ;;
  awaitW ReqTyping (ctx_typing web) ;;
  u <- (if bool_decide (url_host u = Some "v.redd.it") then
          resp <- awaitW (ReqGet u headers) (session_get_url web u headers) ;;
          retW (resp_url resp)
        else retW u) ;;
  if negb (is_valid_path u) then bad_argument "Not a reddit URL."
  else the_long_way u.

(** The [vreddit] command (lines 559-576); [guild_filesize_limit] is
    [ctx.guild.filesize_limit], [None] outside a guild. *)
Definition vreddit (guild_filesize_limit : option Z) (reddit : RedditMediaURL) : W unit :=
  let filesize :=
    match guild_filesize_limit with
    | Some limit => limit
    | None => 8388608
    end in
  resp <- awaitW (ReqGet (media_url reddit) [])
                 (session_get_url web (media_url reddit) []) ;;
  if negb (status (resp_base resp) =? 200) then
    awaitW (ReqSendText "Could not download video.")
           (ctx_send_text web "Could not download video.")
  else
    declared <- liftW (of_result (header_content_length (resp_base resp))) ;;
    if declared >=? filesize then
      awaitW (ReqSendText "Video is too big to be uploaded.")
             (ctx_send_text web "Video is too big to be uploaded.")
    else
      data <- liftW (of_result (read (resp_base resp))) ;;
      let file := {| file_fp := data; file_filename := media_filename reddit |} in
      awaitW (ReqSendFile file) (ctx_send_file web file).

End Reddit.

(* ===================================================================== *)
(** ** Notions the properties are stated with *)
(* ===================================================================== *)

(** Remote reads, cache writes, and writes to the remote side. *)
Definition is_fetch (ev : event) : bool :=
  match ev with
  | EvFetchMessage _ _ | EvFetchUser _ | EvSessionGet _ => true
  | _ => false
  end.

Definition is_cache_write (ev : event) : bool :=
  match ev with
  | EvCacheSet _ => true
  | _ => false
  end.

Definition is_store_write (ev : event) : bool :=
  match ev with
  | EvChannelSend _ _ _ | EvMessageDelete _ _ => true
  | _ => false
  end.

(** The ways a run of [get_spoiler_cache] from state [s] can end. *)
Inductive reconstruct_outcome (env : Env) (channel_id message_id : Z) (s : Buttons)
    : result (option SpoilerCache) -> Buttons -> Prop :=
  | hit cache c' :
      LRU.getitem message_id (_spoiler_cache s) = Some (cache, c') ->
      reconstruct_outcome env channel_id message_id s
        (Return (Some cache)) (set_cache c' s)
  | miss_no_storage :
      LRU.getitem message_id (_spoiler_cache s) = None ->
      storage_channel env = None ->
      reconstruct_outcome env channel_id message_id s (Return None) s
  | miss_no_channel storage :
      LRU.getitem message_id (_spoiler_cache s) = None ->
      storage_channel env = Some storage ->
      bot_get_channel env channel_id = None ->
      reconstruct_outcome env channel_id message_id s (Return None) s
  | miss_front_door_unfetched storage channel e :
      LRU.getitem message_id (_spoiler_cache s) = None ->
      storage_channel env = Some storage ->
      bot_get_channel env channel_id = Some channel ->
      channel_fetch_message env channel message_id = Raise e ->
      reconstruct_outcome env channel_id message_id s
        (Return None) (log (EvFetchMessage channel message_id) s)
  | miss_no_pointer storage channel original_message e :
      LRU.getitem message_id (_spoiler_cache s) = None ->
      storage_channel env = Some storage ->
      bot_get_channel env channel_id = Some channel ->
      channel_fetch_message env channel message_id = Return original_message ->
      (index0 (embeds original_message) = Raise e
       \/ exists embed, index0 (embeds original_message) = Return embed
                        /\ py_int (embed_footer_text embed) = Raise e) ->
      reconstruct_outcome env channel_id message_id s
        (Return None) (log (EvFetchMessage channel message_id) s)
  | miss_archive_unfetched storage channel original_message embed pointer e :
      LRU.getitem message_id (_spoiler_cache s) = None ->
      storage_channel env = Some storage ->
      bot_get_channel env channel_id = Some channel ->
      channel_fetch_message env channel message_id = Return original_message ->
      index0 (embeds original_message) = Return embed ->
      py_int (embed_footer_text embed) = Return pointer ->
      channel_fetch_message env storage pointer = Raise e ->
      reconstruct_outcome env channel_id message_id s
        (Return None)
        (log (EvFetchMessage storage pointer) (log (EvFetchMessage channel message_id) s))
  | miss_decode_raises storage channel original_message embed pointer message e :
      LRU.getitem message_id (_spoiler_cache s) = None ->
      storage_channel env = Some storage ->
      bot_get_channel env channel_id = Some channel ->
      channel_fetch_message env channel message_id = Return original_message ->
      index0 (embeds original_message) = Return embed ->
      py_int (embed_footer_text embed) = Return pointer ->
      channel_fetch_message env storage pointer = Return message ->
      decode message = Raise e ->
      reconstruct_outcome env channel_id message_id s
        (Raise e)
        (log (EvFetchMessage storage pointer) (log (EvFetchMessage channel message_id) s))
  | miss_reconstructed storage channel original_message embed pointer message cache :
      LRU.getitem message_id (_spoiler_cache s) = None ->
      storage_channel env = Some storage ->
      bot_get_channel env channel_id = Some channel ->
      channel_fetch_message env channel message_id = Return original_message ->
      index0 (embeds original_message) = Return embed ->
      py_int (embed_footer_text embed) = Return pointer ->
      channel_fetch_message env storage pointer = Return message ->
      decode message = Return cache ->
      reconstruct_outcome env channel_id message_id s
        (Return (Some cache))
        (let s2 := log (EvFetchMessage storage pointer)
                       (log (EvFetchMessage channel message_id) s) in
         log (EvCacheSet message_id)
             (set_cache (LRU.setitem message_id cache (_spoiler_cache s2)) s2)).


(** The filename extension: the text after the last dot, if any. *)
Fixpoint extension (s : string) : option string :=
  match s with
  | EmptyString => None
  | String c s' =>
      match extension s' with
      | Some e => Some e
      | None => if Ascii.eqb c "." then Some s' else None
      end
  end.

Definition allowed_extensions : list string :=
  ["png"; "jpg"; "jpeg"; "webm"; "gif"; "mp4"; "txt"].

(** The type policy of the specification, 4.4, on a filename; extensions
    are compared in lower case. *)
Definition allowed_extension (name : string) : Prop :=
  exists e, extension (Py.lower name) = Some e /\ In e allowed_extensions.

(** A candidate attachment together with what fetching it gives: status
    200, a [Content-Length] of [cand_size], and the content. *)
Record Candidate := {
  cand_attach : Attachment;
  cand_size : Z;
  cand_body : string;
}.

Definition serves (env : Env) (c : Candidate) : Prop :=
  session_get env (url (cand_attach c))
  = Return {| status := 200;
              content_length := Some (Py.str_of_int (cand_size c));
              read := Return (cand_body c) |}.

Definition file_of (c : Candidate) : File :=
  {| file_fp := cand_body c; file_filename := filename (cand_attach c) |}.

(** The size budget as the specification words it, 4.4: candidates are
    taken in order; one that exceeds the remaining budget is skipped and
    the remaining budget is unchanged; processing stops once the budget is
    used up. *)
Fixpoint budget (remaining : Z) (cs : list Candidate) : list Candidate :=
  match cs with
  | [] => []
  | c :: rest =>
      if cand_size c >? remaining then budget remaining rest
      else c :: (if remaining - cand_size c <=? 0 then []
                 else budget (remaining - cand_size c) rest)
  end.

(** The candidates that are fetched at all before processing stops. *)
Fixpoint processed (remaining : Z) (cs : list Candidate) : list Candidate :=
  match cs with
  | [] => []
  | c :: rest =>
      if cand_size c >? remaining then c :: processed remaining rest
      else c :: (if remaining - cand_size c <=? 0 then []
                 else processed (remaining - cand_size c) rest)
  end.

Definition total_size (cs : list Candidate) : Z :=
  fold_right (fun c acc => cand_size c + acc) 0 cs.

Definition MiB : Z := 1024 * 1024.

(** States of the cog over the process lifetime: [__init__], then any run
    of the three entry points. *)
Inductive reachable : Buttons -> Prop :=
  | reach_init : reachable Buttons_init
  | reach_spoiler env ctx title text s :
      reachable s -> reachable (snd (spoiler env ctx title text s))
  | reach_reveal env interaction s :
      reachable s -> reachable (snd (reveal_spoiler env interaction s))
  | reach_reaction env payload s :
      reachable s -> reachable (snd (on_raw_reaction_add env payload s)).

(** Inserting a list of entries one after the other. *)
Definition insert_all {V} (kvs : list (Z * V)) (c : LRU.t V) : LRU.t V :=
  fold_left (fun c kv => LRU.setitem (fst kv) (snd kv) c) kvs c.

(** A coroutine keeps a property of the cog's state. *)
Definition preserves {A} (P : Buttons -> Prop) (m : M A) : Prop :=
  forall s, P s -> P (snd (m s)).

Definition cache_inv (s : Buttons) : Prop :=
  LRU.capacity (_spoiler_cache s) = 128%nat /\ LRU.wf (_spoiler_cache s).

(** The value of a decimal numeral read from the left onto [acc]. *)
Fixpoint uint_value (d : Decimal.uint) (acc : Z) : Z :=
  match d with
  | Decimal.Nil => acc
  | Decimal.D0 d => uint_value d (10 * acc + 0)
  | Decimal.D1 d => uint_value d (10 * acc + 1)
  | Decimal.D2 d => uint_value d (10 * acc + 2)
  | Decimal.D3 d => uint_value d (10 * acc + 3)
  | Decimal.D4 d => uint_value d (10 * acc + 4)
  | Decimal.D5 d => uint_value d (10 * acc + 5)
  | Decimal.D6 d => uint_value d (10 * acc + 6)
  | Decimal.D7 d => uint_value d (10 * acc + 7)
  | Decimal.D8 d => uint_value d (10 * acc + 8)
  | Decimal.D9 d => uint_value d (10 * acc + 9)
  end.

Definition no_space (s : string) : Prop :=
  forall c, In c (list_ascii_of_string s) -> Py.is_space c = false.

(** Appending several events to the trace. *)
Definition logs (evs : list event) (s : Buttons) : Buttons :=
  {| _spoiler_cache := _spoiler_cache s; _spoiler_cooldown := _spoiler_cooldown s;
     trace := (trace s ++ evs)%list |}.

Definition fetch_event (a : Attachment) : event := EvSessionGet (url a).

Definition delete_event (ctx : Context) : event :=
  EvMessageDelete (ctx_channel_id ctx) (ctx_message_id ctx).

(** The exception [redirect_post] raises when [storage.send] raised [e]
    (lines 460-461): an [HTTPException] is turned into a [RuntimeError],
    anything else passes through. *)
Definition store_error (e : exn) : exn :=
  if is_HTTPException e then
    Exn RuntimeError ("Sorry. Could not store message due to "
                      ++ class_name (exn_cls e) ++ ": " ++ exn_str e ++ ".")
  else e.

(** The record [redirect_post] returns next to the storage message
    (lines 463-471). *)
Definition published (ctx : Context) (title : string) (text : option string)
    (message : Message) : SpoilerCache :=
  {| author_id := ctx_author_id ctx; channel_id := ctx_channel_id ctx;
     attachments := message_attachments message; title := Some title; text := text |}.

(** The text of line 425. *)
Definition unsupported_message : string :=
  "Unsupported file in attachments. Only .png, .jpg, .jpeg, .webm, .gif, .mp4, .txt supported.".

(** The outcome of a handler that ends on [await ctx.send(...)]. *)
Definition ctx_send_unit (r : result Message) : result unit :=
  match r with
  | Return _ => Return tt
  | Raise e => Raise e
  end.

Definition without_text (r : SpoilerCache) : SpoilerCache :=
  {| author_id := author_id r; channel_id := channel_id r; title := title r;
     text := None; attachments := attachments r |}.

(** The bucket a key currently has: its own, or the original cooldown. *)
Definition bucket_of (key : Z * Z) (m : Cooldowns.CooldownMapping) : Cooldowns.Cooldown :=
  default (Cooldowns.cooldown m) (Cooldowns.cache m !! key).

(** What [on_raw_reaction_add] does once the limiter let the event pass
    and the user is known and human (lines 524-528). *)
Definition deliver (env : Env) (payload : Payload) : M unit :=
  bind (get_spoiler_cache env (payload_channel_id payload) (payload_message_id payload))
    (fun cache =>
       match cache with
       | Some cache =>
           let embed := to_embed cache (bot_get_user env (author_id cache)) in
           await (EvUserSend (payload_user_id payload) embed)
                 (user_send env (payload_user_id payload) embed)
       | None => ret tt
       end).

(** The ways the fetch of an attachment raises [e] when [total] bytes
    have been collected: the request itself raises; or it is answered
    with status 200 and reading the [Content-Length] header raises (the
    header is missing or is no integer); or the declared length is within
    what remains of the cap and reading the content raises. *)
Definition fetch_raises (env : Env) (a : Attachment) (total : Z) (e : exn) : Prop :=
  session_get env (url a) = Raise e
  \/ exists resp,
       session_get env (url a) = Return resp
       /\ status resp = 200
       /\ (header_content_length resp = Raise e
           \/ exists n,
                header_content_length resp = Return n
                /\ total + n <= max_mib
                /\ read resp = Raise e).

(** The first attachment is an image, by its file name (line 187). *)
Definition first_is_image (r : SpoilerCache) : Prop :=
  exists a rest,
    attachments r = a :: rest
    /\ Py.endswith_any (Py.lower (filename a)) [".gif"; ".png"; ".jpg"; ".jpeg"] = true.

(** GET requests. *)
Definition is_get (req : request) : bool :=
  match req with
  | ReqGet _ _ => true
  | _ => false
  end.

(** Responses to an interaction. *)
Definition is_response (ev : event) : bool :=
  match ev with
  | EvInteractionSend _ _ => true
  | _ => false
  end.

(** What fetching the attachment of a candidate answers on [env]: status
    200, a [Content-Length] that reads as [cand_size], and the content. *)
Definition answers (env : Env) (c : Candidate) : Prop :=
  exists resp,
    session_get env (url (cand_attach c)) = Return resp
    /\ status resp = 200
    /\ header_content_length resp = Return (cand_size c)
    /\ read resp = Return (cand_body c).

(** The limiter of [__init__]: one token per ten seconds, in every bucket
    created so far. *)
Definition cooldown_inv (m : Cooldowns.CooldownMapping) : Prop :=
  Cooldowns.cooldown m = Cooldowns.make 1 10
  /\ forall key b, Cooldowns.cache m !! key = Some b ->
       Cooldowns.rate b = 1 /\ Cooldowns.per b = 10%Q
       /\ 0 <= Cooldowns.tokens b <= 1.

(** The user a feedback report comes from. *)
Definition origin_user (obj : FeedbackOrigin) : Reporter :=
  match obj with
  | OfInteraction i => fint_user i
  | OfContext c => fctx_author c
  end.

(** Messages sent to the channel of the command. *)
Definition is_send (req : request) : bool :=
  match req with
  | ReqSendText _ | ReqSendFile _ => true
  | _ => false
  end.

(* ===================================================================== *)
(** ** Concrete inputs *)
(* ===================================================================== *)

Definition storage_id : Z := 430229522340773899.
Definition general_id : Z := 336642139381301249.
Definition danny_id : Z := 80088516616269824.

Definition img : Attachment :=
  {| filename := "img.png"; url := "https://cdn/img.png"; size := 2 * MiB |}.

Definition record_cat : SpoilerCache :=
  {| author_id := danny_id; channel_id := general_id;
     title := Some "cat"; text := None; attachments := [img] |}.

Definition record_text : SpoilerCache :=
  {| author_id := danny_id; channel_id := general_id;
     title := Some "cat"; text := Some "it sleeps"; attachments := [img] |}.

Definition record_empty_text : SpoilerCache :=
  {| author_id := danny_id; channel_id := general_id;
     title := Some "cat"; text := Some ""; attachments := [img] |}.

Definition the_guild : Guild :=
  {| guild_get_channel := fun c => if c =? storage_id then Some c else None |}.

(** A front-door post whose footer holds [pointer]. *)
Definition front_door (id : Z) (pointer : string) : Message :=
  {| message_id := id;
     embeds := [set_footer pointer (Embed_new (Some "cat Spoiler") None)];
     message_attachments := [] |}.

(** A remote side on which channel [general_id] holds the front-door post
    1000, which points at storage message 7; the storage channel answers
    [archive] for message 7, the HTTP session answers [get], a deletion
    gives [delete] and a write to the storage channel gives [send]. *)
Definition env_of (archive : result Message) (get : string -> result Response)
    (delete : result unit) (send : result Message) : Env :=
  {| bot_get_guild := fun g => if g =? 182325885867786241 then Some the_guild else None;
     bot_get_channel := fun c => if c =? general_id then Some c else None;
     bot_get_user := fun _ => None;
     bot_fetch_user := fun u => Return {| user_name := "viewer"; user_bot := false |};
     channel_fetch_message := fun c m =>
       if (c =? general_id) && (m =? 1000) then Return (front_door 1000 "7")
       else if (c =? storage_id) && (m =? 7) then archive
       else Raise (Exn NotFound "404 Not Found (error code: 10008): Unknown Message");
     channel_send := fun _ _ _ => send;
     message_delete := fun _ _ => delete;
     session_get := get;
     ctx_send := fun _ _ => Return (front_door 1000 "7");
     interaction_send := fun _ _ => Return tt;
     user_send := fun _ _ => Return tt;
     time_time := 0%Q |}.

(** An HTTP session that knows the listed URLs and cannot connect to any
    other. *)
Fixpoint web (pages : list (string * Response)) (u : string) : result Response :=
  match pages with
  | [] => Raise (Exn ClientError "Cannot connect to host")
  | (u', resp) :: rest => if String.eqb u u' then Return resp else web rest u
  end.

Definition env_ok : Env :=
  env_of (Return (encode 7 record_cat)) (web []) (Return tt) (Return (encode 7 record_cat)).

(** The storage message lost its embed. *)
Definition env_no_embed : Env :=
  env_of (Return {| message_id := 7; embeds := []; message_attachments := [] |})
         (web []) (Return tt) (Return (encode 7 record_cat)).

(** The author slot of the storage message holds a name, not an id. *)
Definition env_bad_author : Env :=
  env_of (Return {| message_id := 7;
                    embeds := [set_footer "336642139381301249"
                                 (set_author "Danny" (Embed_new (Some "cat") None))];
                    message_attachments := [] |})
         (web []) (Return tt) (Return (encode 7 record_cat)).

(** The embed of the storage message has no footer. *)
Definition env_no_footer : Env :=
  env_of (Return {| message_id := 7;
                    embeds := [set_author "80088516616269824" (Embed_new (Some "cat") None)];
                    message_attachments := [] |})
         (web []) (Return tt) (Return (encode 7 record_cat)).

(** The state after a first reconstruction of post 1000 on [env_ok]. *)
Definition after_reconstruct : Buttons :=
  {| _spoiler_cache := LRU.Make 128 [(1000, record_cat)];
     _spoiler_cooldown := SpoilerCooldown;
     trace := [EvFetchMessage general_id 1000; EvFetchMessage storage_id 7;
               EvCacheSet 1000] |}.

Definition candidate (name : string) (bytes : Z) : Candidate :=
  {| cand_attach := {| filename := name; url := "https://cdn/" ++ name; size := bytes |};
     cand_size := bytes;
     cand_body := "<" ++ name ++ ">" |}.

Definition page_of (c : Candidate) : string * Response :=
  (url (cand_attach c),
   {| status := 200;
      content_length := Some (Py.str_of_int (cand_size c));
      read := Return (cand_body c) |}).

Definition three_images : list Candidate :=
  [candidate "a.png" (10 * MiB); candidate "b.png" (10 * MiB); candidate "c.png" (10 * MiB)].

Definition one_video : list Candidate := [candidate "big.mp4" (30 * MiB)].

Definition env_serving (cs : list Candidate) (delete : result unit) (send : result Message) : Env :=
  env_of (Return (encode 7 record_cat)) (web (map page_of cs)) delete send.

Definition ctx_with (atts : list Attachment) : Context :=
  {| ctx_author_id := danny_id; ctx_author_name := "Danny";
     ctx_channel_id := general_id; ctx_message_id := 999;
     ctx_message_attachments := atts |}.

Definition server_error : exn := Exn DiscordServerError "500 Internal Server Error".

Definition connect_error : exn := Exn ClientError "Cannot connect to host".

(** [a.png] is gone from the CDN (status 404), [b.png] is served. *)
Definition env_a_missing : Env :=
  env_of (Return (encode 7 record_cat))
         (web [("https://cdn/a.png",
                {| status := 404; content_length := Some "0"; read := Return "" |});
               page_of (candidate "b.png" 5)])
         (Return tt)
         (Return {| message_id := 7; embeds := []; message_attachments := [] |}).

Definition evil : Attachment :=
  {| filename := "evil.exe"; url := "https://cdn/evil.exe"; size := 1 |}.

(** Entries [first], ..., [first + n - 1], all holding [record_cat]. *)
Definition entries (first : Z) (n : nat) : list (Z * SpoilerCache) :=
  map (fun i => (first + Z.of_nat i, record_cat)) (seq 0 n).

Definition full_cache : LRU.t SpoilerCache := insert_all (entries 1 128) (LRU.new 128).

Definition reaction (message user : Z) : Payload :=
  {| payload_emoji_id := Some SPOILER_EMOJI_ID; payload_message_id := message;
     payload_user_id := user; payload_channel_id := general_id |}.

Definition env_viewer : Env :=
  {| bot_get_guild := bot_get_guild env_ok;
     bot_get_channel := bot_get_channel env_ok;
     bot_get_user := fun _ => Some {| user_name := "viewer"; user_bot := false |};
     bot_fetch_user := bot_fetch_user env_ok;
     channel_fetch_message := channel_fetch_message env_ok;
     channel_send := channel_send env_ok;
     message_delete := message_delete env_ok;
     session_get := session_get env_ok;
     ctx_send := ctx_send env_ok;
     interaction_send := interaction_send env_ok;
     user_send := user_send env_ok;
     time_time := 0%Q |}.

(** The front-door post as Discord holds it after [spoiler] sent it. *)
Definition posted_front_door : Message :=
  {| message_id := 1000;
     embeds := [to_spoiler_embed record_cat (ctx_with []) (encode 7 record_cat)];
     message_attachments := [] |}.

(** The remote side after a restart of the bot: channel [general_id] holds
    [posted_front_door], the storage channel holds the archive message 7. *)
Definition env_restarted : Env :=
  {| bot_get_guild := bot_get_guild env_ok;
     bot_get_channel := bot_get_channel env_ok;
     bot_get_user := bot_get_user env_ok;
     bot_fetch_user := bot_fetch_user env_ok;
     channel_fetch_message := fun c m =>
       if (c =? general_id) && (m =? 1000) then Return posted_front_door
       else if (c =? storage_id) && (m =? 7) then Return (encode 7 record_cat)
       else Raise (Exn NotFound "404 Not Found (error code: 10008): Unknown Message");
     channel_send := channel_send env_ok;
     message_delete := message_delete env_ok;
     session_get := session_get env_ok;
     ctx_send := fun _ _ => Return posted_front_door;
     interaction_send := interaction_send env_ok;
     user_send := user_send env_ok;
     time_time := 0%Q |}.

Definition feedback_id : Z := 263814407191134218.

Definition reporter : Reporter := {| reporter_str := "Danny"; reporter_id := danny_id |}.

Definition feedback_ctx : FeedbackContext :=
  {| fctx_guild := None;
     fctx_channel := Some {| named_str := "Direct Message with Danny"; named_id := 5 |};
     fctx_message_created_at := 0;
     fctx_author := reporter;
     fctx_tick_true := "<:greenTick:330090705336664065>" |}.

Definition feedback_interaction : FeedbackInteraction :=
  {| fint_guild := None; fint_channel := None; fint_created_at := 0; fint_user := reporter |}.

(** A remote side whose guild holds the feedback channel; a write to it
    gives [send]. *)
Definition env_feedback (send : result Message) : Env :=
  {| bot_get_guild := fun g =>
       if g =? 182325885867786241
       then Some {| guild_get_channel := fun c => if c =? feedback_id then Some c else None |}
       else None;
     bot_get_channel := bot_get_channel env_ok;
     bot_get_user := bot_get_user env_ok;
     bot_fetch_user := bot_fetch_user env_ok;
     channel_fetch_message := channel_fetch_message env_ok;
     channel_send := fun _ _ _ => send;
     message_delete := message_delete env_ok;
     session_get := session_get env_ok;
     ctx_send := ctx_send env_ok;
     interaction_send := interaction_send env_ok;
     user_send := user_send env_ok;
     time_time := 0%Q |}.

Definition reddit_url (host : string) (parts : list string) : URL :=
  {| url_host := Some host; url_parts := parts;
     url_text := "https://" ++ host ++ Py.join "/" parts |}.

Definition post_url : URL := reddit_url "www.reddit.com" ["/"; "r"; "aww"; "comments"; "abc"].

Definition video_url : URL := reddit_url "v.redd.it" ["/"; "xyz"; "DASH_720.mp4"].

Definition listing (submission : json) : json :=
  JList [JDict [("data", JDict [("children", JList [JDict [("data", submission)]])])]].

(** A post whose [reddit_video] is [null]. *)
Definition null_video : json :=
  listing (JDict [("media", JDict [("reddit_video", JNull)])]).

(** A post with a video. *)
Definition with_video : json :=
  listing (JDict [("media",
    JDict [("reddit_video", JDict [("fallback_url", JStr "https://v.redd.it/xyz/DASH_720.mp4")])])]).

(** A text post: [media] is [null] and the post is no cross post. *)
Definition text_post : json := listing (JDict [("media", JNull)]).

Definition reply_of (u : URL) (data : json) (declared : string) : RedditResponse :=
  {| resp_url := u; resp_json := Return data;
     resp_base := {| status := 200; content_length := Some declared;
                     read := Return "<video>" |} |}.

(** A remote side that knows the post and its video; the API answers
    [data], the video is declared [declared] bytes long. *)
Definition web_of (data : json) (declared : string) : Web :=
  {| yarl_URL := fun s =>
       if String.eqb s "https://www.reddit.com/r/aww/comments/abc" then Return post_url
       else if String.eqb s "https://v.redd.it/xyz/DASH_720.mp4" then Return video_url
       else Raise (Exn ValueError "Invalid URL");
     url_truediv := fun u name =>
       {| url_host := url_host u; url_parts := (url_parts u ++ [name])%list;
          url_text := url_text u ++ "/" ++ name |};
     ctx_typing := Return tt;
     session_get_url := fun u _ =>
       if bool_decide (url_host u = Some "www.reddit.com") then Return (reply_of u data "0")
       else Return (reply_of u JNull declared);
     ctx_send_text := fun _ => Return tt;
     ctx_send_file := fun _ => Return tt |}.

(** A remote side on which the bot does not see the guild of the storage
    channel. *)
Definition env_no_storage : Env :=
  {| bot_get_guild := fun _ => None;
     bot_get_channel := bot_get_channel env_ok;
     bot_get_user := bot_get_user env_ok;
     bot_fetch_user := bot_fetch_user env_ok;
     channel_fetch_message := channel_fetch_message env_ok;
     channel_send := channel_send env_ok;
     message_delete := message_delete env_ok;
     session_get := session_get env_ok;
     ctx_send := ctx_send env_ok;
     interaction_send := interaction_send env_ok;
     user_send := user_send env_ok;
     time_time := 0%Q |}.

(** [a.png] and [c.png] are served; the fetch of [b.png] is answered by
    [b]. *)
Definition env_b (b : Response) : Env :=
  env_of (Return (encode 7 record_cat))
         (web [page_of (candidate "a.png" 5); ("https://cdn/b.png", b);
               page_of (candidate "c.png" 5)])
         (Return tt) (Return (encode 7 record_cat)).

(** An answer with status 200 and no [Content-Length] header. *)
Definition no_length : Response :=
  {| status := 200; content_length := None; read := Return "" |}.

(** An answer with status 200 whose content cannot be read. *)
Definition unreadable : Response :=
  {| status := 200; content_length := Some "5"; read := Raise connect_error |}.

(** A remote side that knows the reacting user as [cached] or, when it
    is not cached, answers [fetched] to [fetch_user]. *)
Definition env_of_user (cached : option User) (fetched : result User) : Env :=
  {| bot_get_guild := bot_get_guild env_ok;
     bot_get_channel := bot_get_channel env_ok;
     bot_get_user := fun _ => cached;
     bot_fetch_user := fun _ => fetched;
     channel_fetch_message := channel_fetch_message env_ok;
     channel_send := channel_send env_ok;
     message_delete := message_delete env_ok;
     session_get := session_get env_ok;
     ctx_send := ctx_send env_ok;
     interaction_send := interaction_send env_ok;
     user_send := user_send env_ok;
     time_time := 0%Q |}.

Definition a_bot : User := {| user_name := "R. Danny"; user_bot := true |}.

(** A title of exactly 100 characters. *)
Definition title_100 : string := string_of_list_ascii (repeat "a"%char 100).

(** Unfolding the monad in a goal. *)
Ltac run :=
  unfold bind, ret, raise, lift, await, try_except, fetch_message,
         cache_getitem, cache_setitem in *;
  simpl in *.

(** Closing the side goals of a miss: nothing was returned from the cache,
    and the cache did not hold the key. *)
Ltac closing :=
  solve [ intros ? [=]
        | match goal with
          | Hm : _ -> forall (_ : SpoilerCache) (P : Prop), _,
            Hg : LRU.getitem _ _ = None |- _ =>
              let Hq := fresh in intros ? Hq; exact (Hm Hg _ _ Hq)
          end ].

(* ===================================================================== *)
(** ** Facts about the Python builtins *)
(* ===================================================================== *)

Example str_of_int_ex : Py.str_of_int 430229522340773899 = "430229522340773899".
Proof. reflexivity. Qed.

Example str_of_int_neg : Py.str_of_int (-42) = "-42".
Proof. reflexivity. Qed.

Example int_of_str_ex : Py.int_of_str " +1_000 " = Some 1000.
Proof. reflexivity. Qed.

Example int_of_str_bad : Py.int_of_str "12a" = None.
Proof. reflexivity. Qed.

Example endswith_ex : Py.endswith_any (Py.lower "Cat.PNG") [".png"; ".jpg"] = true.
Proof. reflexivity. Qed.

Lemma parse_digits_uint d acc :
  Py.parse_digits (NilEmpty.string_of_uint d) acc true = Some (uint_value d acc).
Proof.
  revert acc; induction d; intros acc; simpl; try reflexivity; apply IHd.
Qed.

Lemma parse_digits_uint_nonnil d acc prev :
  d <> Decimal.Nil ->
  Py.parse_digits (NilEmpty.string_of_uint d) acc prev = Some (uint_value d acc).
Proof.
  destruct d; intros Hd; try congruence; simpl; apply parse_digits_uint.
Qed.

Lemma uint_value_of_lu d d' :
  uint_value d (Z.of_N (DecimalPos.Unsigned.of_lu d'))
  = Z.of_N (DecimalPos.Unsigned.of_lu (Decimal.revapp d d')).
Proof.
  revert d'; induction d; intros d'; simpl; try reflexivity;
    rewrite <- IHd; f_equal; simpl DecimalPos.Unsigned.of_lu; lia.
Qed.

Lemma uint_value_to_uint p : uint_value (Pos.to_uint p) 0 = Z.pos p.
Proof.
  transitivity (Z.of_uint (Pos.to_uint p)).
  - unfold Z.of_uint. rewrite DecimalPos.Unsigned.of_uint_alt.
    apply (uint_value_of_lu _ Decimal.Nil).
  - unfold Z.of_uint. rewrite DecimalPos.Unsigned.of_to. reflexivity.
Qed.

Lemma rstrip_no_space s : no_space s -> Py.rstrip s = s.
Proof.
  induction s as [|c s IH]; intros H; simpl; [reflexivity|].
  rewrite IH by (intros c' Hc'; apply H; simpl; auto).
  destruct s; [|reflexivity].
  rewrite (H c) by (simpl; auto). reflexivity.
Qed.

Lemma strip_no_space s : no_space s -> Py.strip s = s.
Proof.
  intros H. unfold Py.strip.
  replace (Py.lstrip s) with s; [apply rstrip_no_space; assumption|].
  destruct s as [|c s]; simpl; [reflexivity|].
  rewrite (H c) by (simpl; auto). reflexivity.
Qed.

Lemma no_space_uint d : no_space (NilEmpty.string_of_uint d).
Proof.
  induction d; intros c; simpl; try tauto;
    (intros [<-|H]; [reflexivity | apply IHd; assumption]).
Qed.

Lemma no_space_cons c s : Py.is_space c = false -> no_space s -> no_space (String c s).
Proof. intros Hc Hs c'; simpl; intros [<-|H]; auto. Qed.

Lemma string_of_uint_nonnil d :
  d <> Decimal.Nil -> NilZero.string_of_uint d = NilEmpty.string_of_uint d.
Proof. unfold NilZero.string_of_uint. destruct d; congruence. Qed.

(** [int(str(n)) == n] for every integer. *)
Lemma int_of_str_of_int n : Py.int_of_str (Py.str_of_int n) = Some n.
Proof.
  destruct n as [|p|p]; [reflexivity| |];
    pose proof (DecimalPos.Unsigned.to_uint_nonnil p) as Hp;
    unfold Py.str_of_int; simpl Z.to_int; simpl NilZero.string_of_int;
    rewrite (string_of_uint_nonnil _ Hp); unfold Py.int_of_str.
  - rewrite strip_no_space by apply no_space_uint.
    rewrite <- (uint_value_to_uint p), <- (parse_digits_uint_nonnil _ 0 false Hp).
    destruct (Pos.to_uint p); try congruence; reflexivity.
  - rewrite strip_no_space by (apply no_space_cons; [reflexivity | apply no_space_uint]).
    rewrite parse_digits_uint_nonnil by assumption.
    rewrite uint_value_to_uint. reflexivity.
Qed.

Lemma py_int_str n : py_int (Some (Py.str_of_int n)) = Return n.
Proof. unfold py_int. rewrite int_of_str_of_int. reflexivity. Qed.

(* ===================================================================== *)
(** ** Facts about the cache model *)
(* ===================================================================== *)

Section LRUFacts.
Context {V : Type}.
Implicit Types (l : list (Z * V)) (c : LRU.t V) (k : Z) (v : V).

Lemma find_In_keys k l v : LRU.find k l = Some v -> In k (map fst l).
Proof.
  induction l as [|[k' v'] l IH]; simpl; [discriminate|].
  destruct (Z.eqb_spec k k'); [auto | intros H; right; auto].
Qed.

Lemma find_None_keys k l : LRU.find k l = None <-> ~ In k (map fst l).
Proof.
  induction l as [|[k' v'] l IH]; simpl; [tauto|].
  destruct (Z.eqb_spec k k'); [split; [discriminate | intros H; exfalso; apply H; auto]|].
  rewrite IH. split; [intros H [E|H']; [congruence | tauto] | tauto].
Qed.

Lemma remove_keys k k' l : In k' (map fst (LRU.remove k l)) <-> k' <> k /\ In k' (map fst l).
Proof.
  induction l as [|[k0 v0] l IH]; simpl; [tauto|].
  destruct (Z.eqb_spec k k0); simpl; rewrite IH; split; intros H.
  - tauto.
  - destruct H as [Hne [E|H]]; [congruence | tauto].
  - destruct H as [E|H]; [subst; split; [congruence|auto] | tauto].
  - tauto.
Qed.

Lemma remove_NoDup k l : NoDup (map fst l) -> NoDup (map fst (LRU.remove k l)).
Proof.
  induction l as [|[k0 v0] l IH]; simpl; [auto|].
  intros H. apply NoDup_cons in H as [Hn Hd]. rewrite list_elem_of_In in Hn.
  destruct (Z.eqb_spec k k0); simpl; [auto|].
  apply NoDup_cons. split; [|auto].
  rewrite list_elem_of_In, remove_keys. tauto.
Qed.

Lemma remove_absent k l : ~ In k (map fst l) -> LRU.remove k l = l.
Proof.
  induction l as [|[k0 v0] l IH]; simpl; [auto|].
  intros H. destruct (Z.eqb_spec k k0); [exfalso; apply H; auto|].
  rewrite IH; tauto.
Qed.

Lemma remove_length_le k l : (length (LRU.remove k l) <= length l)%nat.
Proof.
  induction l as [|[k0 v0] l IH]; simpl; [lia|].
  destruct (Z.eqb k k0); simpl; lia.
Qed.

Lemma remove_length_lt k l : In k (map fst l) -> (length (LRU.remove k l) < length l)%nat.
Proof.
  induction l as [|[k0 v0] l IH]; simpl; [tauto|].
  pose proof (remove_length_le k l) as Hle.
  destruct (Z.eqb_spec k k0); simpl; [lia|].
  intros [E|H]; [congruence | specialize (IH H); lia].
Qed.

Lemma removelast_length (A : Type) (l : list A) : length (removelast l) = Nat.pred (length l).
Proof.
  induction l as [|a [|b l] IH]; simpl in *; auto.
Qed.

Lemma removelast_keys_NoDup l : NoDup (map fst l) -> NoDup (map fst (removelast l)).
Proof.
  induction l as [|[k0 v0] [|b l] IH]; simpl; auto.
  - intros _. constructor.
  - intros H. apply NoDup_cons in H as [Hn Hd].
    apply NoDup_cons. split; [|apply IH; exact Hd].
    intros Hin. apply Hn. rewrite list_elem_of_In in *.
    clear -Hin. revert b Hin. induction l as [|a l IHl]; intros b Hin; simpl in *; [tauto|].
    destruct Hin as [E|Hin]; [auto | right; eapply IHl; eauto].
Qed.

(** A hit keeps the cache well formed and only reorders it. *)
Lemma getitem_wf k c v c' :
  LRU.wf c -> LRU.getitem k c = Some (v, c') ->
  LRU.wf c' /\ LRU.capacity c' = LRU.capacity c
  /\ LRU.items c' = (k, v) :: LRU.remove k (LRU.items c).
Proof.
  unfold LRU.getitem, LRU.wf, LRU.keys. intros [Hnd Hlen] H.
  destruct (LRU.find k (LRU.items c)) as [v0|] eqn:Hf; [|discriminate].
  injection H as <- <-. simpl. repeat split; auto.
  - apply NoDup_cons. split; [|apply remove_NoDup; auto].
    rewrite list_elem_of_In, remove_keys. tauto.
  - pose proof (remove_length_lt k _ (find_In_keys _ _ _ Hf)). lia.
Qed.

Lemma setitem_wf k v c : LRU.wf c -> LRU.wf (LRU.setitem k v c).
Proof.
  unfold LRU.wf, LRU.keys, LRU.setitem. intros [Hnd Hlen].
  pose proof (remove_length_le k (LRU.items c)) as Hr.
  set (l := (k, v) :: LRU.remove k (LRU.items c)).
  assert (Hl : NoDup (map fst l)).
  { subst l. simpl. apply NoDup_cons. split; [|apply remove_NoDup; auto].
    rewrite list_elem_of_In, remove_keys. tauto. }
  assert (Hlen' : (length l <= S (LRU.capacity c))%nat) by (subst l; simpl; lia).
  clearbody l. cbn [LRU.items LRU.capacity].
  destruct (Nat.ltb_spec (LRU.capacity c) (length l)) as [Hlt|Hge].
  - split; [apply removelast_keys_NoDup; exact Hl|].
    rewrite removelast_length. lia.
  - split; [exact Hl | lia].
Qed.

(** The entry just written is found again. *)
Lemma peek_setitem_eq k v c :
  (1 <= LRU.capacity c)%nat -> LRU.peek k (LRU.setitem k v c) = Some v.
Proof.
  unfold LRU.peek, LRU.setitem. simpl. intros Hcap.
  destruct (Nat.ltb_spec (LRU.capacity c) (S (length (LRU.remove k (LRU.items c))))) as [Hlt|Hge].
  - destruct (LRU.remove k (LRU.items c)) as [|p l] eqn:E; simpl in *; [lia|].
    rewrite Z.eqb_refl. reflexivity.
  - simpl. rewrite Z.eqb_refl. reflexivity.
Qed.

Lemma getitem_peek k c :
  LRU.getitem k c = None <-> LRU.peek k c = None.
Proof.
  unfold LRU.getitem, LRU.peek. destruct (LRU.find k (LRU.items c)); split; congruence.
Qed.

Lemma getitem_peek_Some k c v :
  (exists c', LRU.getitem k c = Some (v, c')) <-> LRU.peek k c = Some v.
Proof.
  unfold LRU.getitem, LRU.peek. destruct (LRU.find k (LRU.items c)); split.
  - intros [c' [= ->]]. reflexivity.
  - intros [= ->]. eauto.
  - intros [c' H]. discriminate.
  - discriminate.
Qed.

Lemma find_app_last k l k0 v0 :
  k <> k0 -> LRU.find k l = LRU.find k (l ++ [(k0, v0)]).
Proof.
  intros Hne. induction l as [|[k1 v1] l IH]; simpl.
  - destruct (Z.eqb_spec k k0); congruence.
  - destruct (Z.eqb k k1); auto.
Qed.

Lemma find_init_last l k0 v0 :
  NoDup (map fst (l ++ [(k0, v0)])) -> LRU.find k0 l = None.
Proof.
  intros H. apply find_None_keys. rewrite map_app in H. simpl in H.
  apply NoDup_app in H as (_ & H & _). intros Hin.
  apply (H k0); [rewrite list_elem_of_In; exact Hin | constructor].
Qed.

(** Writing a new key into a full cache evicts the least recently
    accessed entry and no other. *)
Lemma setitem_full_evicts k v c :
  LRU.wf c -> (1 <= LRU.capacity c)%nat ->
  length (LRU.items c) = LRU.capacity c ->
  LRU.peek k c = None ->
  exists old,
    LRU.victim c = Some old /\ old <> k
    /\ LRU.items (LRU.setitem k v c) = (k, v) :: removelast (LRU.items c)
    /\ LRU.peek old (LRU.setitem k v c) = None
    /\ LRU.peek k (LRU.setitem k v c) = Some v
    /\ (forall k', k' <> old -> k' <> k ->
          LRU.peek k' (LRU.setitem k v c) = LRU.peek k' c)
    /\ length (LRU.items (LRU.setitem k v c)) = LRU.capacity c.
Proof.
  intros [Hnd Hle] Hcap Hfull Hk.
  destruct (exists_last (l := LRU.items c)) as (l & [k0 v0] & El).
  { intros E. rewrite E in Hfull. simpl in Hfull. lia. }
  unfold LRU.peek in *. apply find_None_keys in Hk.
  assert (Hne : k0 <> k).
  { intros ->. apply Hk. rewrite El, map_app, in_app_iff. simpl. auto. }
  assert (Hit : LRU.items (LRU.setitem k v c) = (k, v) :: removelast (LRU.items c)).
  { unfold LRU.setitem. simpl LRU.items. rewrite remove_absent by exact Hk.
    simpl length. rewrite Hfull.
    destruct (Nat.ltb_spec (LRU.capacity c) (S (LRU.capacity c))); [|lia].
    simpl. destruct (LRU.items c); [simpl in Hfull; lia | reflexivity]. }
  exists k0. unfold LRU.victim, LRU.keys in *. rewrite Hit.
  rewrite El in *. rewrite removelast_last. rewrite last_snoc. simpl.
  repeat split; auto.
  - destruct (Z.eqb_spec k0 k); [congruence|]. eapply find_init_last; eauto.
  - rewrite Z.eqb_refl. reflexivity.
  - intros k' H1 H2. destruct (Z.eqb_spec k' k); [congruence|].
    apply find_app_last; auto.
  - rewrite length_app in Hfull. simpl in Hfull. lia.
Qed.

(** After a hit on [k], writing any other key does not evict [k]. *)
Lemma getitem_refreshes k v c c' k2 v2 :
  LRU.wf c -> (2 <= LRU.capacity c)%nat ->
  LRU.getitem k c = Some (v, c') -> k2 <> k ->
  LRU.peek k (LRU.setitem k2 v2 c') = Some v.
Proof.
  intros Hwf Hcap Hget Hne.
  destruct (getitem_wf _ _ _ _ Hwf Hget) as (Hwf' & Hc & Hit).
  unfold LRU.peek, LRU.setitem. cbn [LRU.items]. rewrite Hit, Hc.
  cbn [LRU.remove]. destruct (Z.eqb_spec k2 k) as [|_]; [congruence|].
  set (r := LRU.remove k2 (LRU.remove k (LRU.items c))).
  assert (Hk : LRU.find k ((k2, v2) :: (k, v) :: r) = Some v).
  { cbn [LRU.find]. destruct (Z.eqb_spec k k2); [congruence|].
    rewrite Z.eqb_refl. reflexivity. }
  destruct (Nat.ltb_spec (LRU.capacity c) (length ((k2, v2) :: (k, v) :: r))) as [Hlt|Hge];
    [|exact Hk].
  destruct r as [|p r]; [simpl in Hlt; lia|].
  change (removelast ((k2, v2) :: (k, v) :: p :: r))
    with ((k2, v2) :: (k, v) :: removelast (p :: r)).
  cbn [LRU.find]. destruct (Z.eqb_spec k k2); [congruence|].
  rewrite Z.eqb_refl. reflexivity.
Qed.

(** After a hit on [k] the next victim is another key. *)
Lemma getitem_not_victim k v c c' :
  LRU.wf c -> LRU.getitem k c = Some (v, c') ->
  (2 <= length (LRU.items c))%nat -> LRU.victim c' <> Some k.
Proof.
  intros Hwf Hget Hlen.
  destruct (getitem_wf _ _ _ _ Hwf Hget) as (Hwf' & Hc & Hit).
  unfold LRU.victim. rewrite Hit.
  destruct (LRU.remove k (LRU.items c)) as [|p l] eqn:E.
  - exfalso. destruct Hwf as [Hnd _]. unfold LRU.keys in Hnd.
    destruct (LRU.items c) as [|[k1 v1] [|[k2 w2] r]]; simpl in *; try lia.
    apply NoDup_cons in Hnd as [Hn1 _]. rewrite list_elem_of_In in Hn1. simpl in Hn1.
    destruct (Z.eqb_spec k k1), (Z.eqb_spec k k2); try discriminate. subst. tauto.
  - change (last ((k, v) :: p :: l)) with (last (p :: l)).
    destruct (last (p :: l)) as [[k0 v0]|] eqn:El; simpl; [|discriminate].
    intros [= ->]. apply last_Some in El as [l' El].
    assert (Hin : In k (map fst (LRU.remove k (LRU.items c)))).
    { rewrite E, El, map_app, in_app_iff. simpl. auto. }
    apply remove_keys in Hin. tauto.
Qed.

Lemma insert_all_snoc (kvs : list (Z * V)) k v c :
  insert_all (kvs ++ [(k, v)]) c = LRU.setitem k v (insert_all kvs c).
Proof. unfold insert_all. rewrite fold_left_app. reflexivity. Qed.

(** Inserting distinct keys into an empty cache keeps the most recent
    [n] of them, most recent first. *)
Lemma insert_all_distinct (kvs : list (Z * V)) n :
  NoDup (map fst kvs) ->
  LRU.items (insert_all kvs (LRU.new n)) = firstn n (rev kvs)
  /\ LRU.capacity (insert_all kvs (LRU.new n)) = n.
Proof.
  induction kvs as [|[k v] kvs IH] using rev_ind; intros Hnd.
  - simpl. rewrite firstn_nil. auto.
  - rewrite map_app in Hnd. simpl in Hnd.
    apply NoDup_app in Hnd as (Hnd & Hdisj & _).
    destruct (IH Hnd) as [Hit Hcap].
    rewrite insert_all_snoc, rev_app_distr.
    set (c0 := insert_all kvs (LRU.new n)) in *.
    split; [|exact Hcap].
    unfold LRU.setitem. cbn [LRU.items]. rewrite Hcap, Hit.
    assert (Hk : ~ In k (map fst (firstn n (rev kvs)))).
    { intros Hin. apply (Hdisj k); [|constructor].
      rewrite list_elem_of_In. apply in_map_iff in Hin as (p & <- & Hp).
      apply in_map. apply in_rev. rewrite <- (firstn_skipn n (rev kvs)).
      apply in_or_app. left. exact Hp. }
    rewrite remove_absent by exact Hk.
    change (rev [(k, v)] ++ rev kvs)%list with ((k, v) :: rev kvs).
    destruct (Nat.ltb_spec n (length ((k, v) :: firstn n (rev kvs)))) as [Hlt|Hge].
    + simpl in Hlt. rewrite length_firstn in Hlt.
      assert (Hn : (n <= length (rev kvs))%nat) by lia.
      change ((k, v) :: firstn n (rev kvs)) with (firstn (S n) ((k, v) :: rev kvs)).
      apply removelast_firstn. simpl. lia.
    + simpl in Hge. rewrite length_firstn in Hge.
      destruct n as [|n]; [lia|]. simpl. f_equal.
      rewrite !firstn_all2; auto; lia.
Qed.

End LRUFacts.

(* ===================================================================== *)
(** ** Facts about reconstruction *)
(* ===================================================================== *)

(** Every run of [get_spoiler_cache] ends in one of the listed ways. *)
Lemma get_spoiler_cache_outcome env channel_id message_id s :
  reconstruct_outcome env channel_id message_id s
    (fst (get_spoiler_cache env channel_id message_id s))
    (snd (get_spoiler_cache env channel_id message_id s)).
Proof.
  unfold get_spoiler_cache. run.
  destruct (LRU.getitem message_id (_spoiler_cache s)) as [[cache c']|] eqn:Hget; simpl.
  { eapply hit; eauto. }
  destruct (storage_channel env) as [storage|] eqn:Hst; simpl.
  2: { eapply miss_no_storage; eauto. }
  destruct (bot_get_channel env channel_id) as [channel|] eqn:Hch; simpl.
  2: { eapply miss_no_channel; eauto. }
  destruct (channel_fetch_message env channel message_id) as [original|e] eqn:Hf1; simpl.
  2: { eapply miss_front_door_unfetched; eauto. }
  destruct (index0 (embeds original)) as [embed|e] eqn:Hi; simpl.
  2: { eapply miss_no_pointer; eauto. }
  destruct (py_int (embed_footer_text embed)) as [pointer|e] eqn:Hp; simpl.
  2: { eapply miss_no_pointer; eauto. }
  destruct (channel_fetch_message env storage pointer) as [message|e] eqn:Hf2; simpl.
  2: { eapply miss_archive_unfetched; eauto. }
  destruct (decode message) as [cache|e] eqn:Hd; simpl.
  - eapply miss_reconstructed; eauto.
  - eapply miss_decode_raises; eauto.
Qed.

Lemma get_spoiler_cache_inv env ch mid s r s' :
  get_spoiler_cache env ch mid s = (r, s') -> reconstruct_outcome env ch mid s r s'.
Proof.
  intros H. pose proof (get_spoiler_cache_outcome env ch mid s) as O.
  rewrite H in O. exact O.
Qed.

(** An exception leaves [get_spoiler_cache] only from the decode step,
    after both fetches succeeded; every earlier failure gives [None]. *)
Lemma get_spoiler_cache_raises_only_in_decode env ch mid s e s' :
  get_spoiler_cache env ch mid s = (Raise e, s') ->
  exists message, decode message = Raise e
    /\ (exn_cls e = IndexError \/ exn_cls e = TypeError \/ exn_cls e = ValueError).
Proof.
  intros H. apply get_spoiler_cache_inv in H. inversion H; subst.
  exists message. split; [assumption|].
  match goal with Hd : decode _ = Raise _ |- _ => revert Hd end.
  unfold decode, index0, py_int.
  repeat case_match; intros Hd; simplify_eq; simpl; auto.
Qed.

(** Whenever both fetches succeed on a cache miss, an exception of the
    decode step is the outcome of [get_spoiler_cache], and nothing is
    written to the cache. *)
Lemma get_spoiler_cache_decode_escapes env ch mid s storage channel original embed
    pointer message e :
  LRU.getitem mid (_spoiler_cache s) = None ->
  storage_channel env = Some storage ->
  bot_get_channel env ch = Some channel ->
  channel_fetch_message env channel mid = Return original ->
  index0 (embeds original) = Return embed ->
  py_int (embed_footer_text embed) = Return pointer ->
  channel_fetch_message env storage pointer = Return message ->
  decode message = Raise e ->
  get_spoiler_cache env ch mid s
  = (Raise e, log (EvFetchMessage storage pointer) (log (EvFetchMessage channel mid) s)).
Proof.
  intros Hget Hst Hch Hf Hi Hp Hf2 Hd. unfold get_spoiler_cache. run.
  rewrite Hget. simpl. rewrite Hst, Hch, Hf. simpl. rewrite Hi. simpl.
  rewrite Hp. simpl. rewrite Hf2. simpl. rewrite Hd. reflexivity.
Qed.

(** C1.  Reconstruction is claimed never to let an exception escape.  On
    the code the decode step (lines 500-508) runs after the [try] block:
    with both fetches successful, a storage message without embed makes
    [get_spoiler_cache] raise [IndexError], an author slot that is not an
    integer makes it raise [ValueError], and a missing footer [TypeError]. *)
Theorem get_spoiler_cache_decode_raises :
  get_spoiler_cache env_no_embed general_id 1000 Buttons_init
    = (Raise (Exn IndexError "list index out of range"),
       log (EvFetchMessage storage_id 7) (log (EvFetchMessage general_id 1000) Buttons_init))
  /\ fst (get_spoiler_cache env_bad_author general_id 1000 Buttons_init)
    = Raise (Exn ValueError "invalid literal for int() with base 10: 'Danny'")
  /\ fst (get_spoiler_cache env_no_footer general_id 1000 Buttons_init)
    = Raise (Exn TypeError
        "int() argument must be a string, a bytes-like object or a real number, not 'NoneType'").
Proof. split_and!; vm_compute; reflexivity. Qed.

(** C7.  A run of [get_spoiler_cache] adds to the trace at most two
    fetches, the front-door message and then the storage message, at most
    one cache write and no write to the remote side; a cache hit adds
    nothing; and once a record was returned, any later lookup of the same
    message id returns that record and adds nothing to the trace. *)
Theorem reconstruct_cost env channel_id message_id s r s' :
  get_spoiler_cache env channel_id message_id s = (r, s') ->
  exists evs,
    trace s' = (trace s ++ evs)%list
    /\ (List.filter is_fetch evs = []
        \/ (exists channel,
              bot_get_channel env channel_id = Some channel
              /\ List.filter is_fetch evs = [EvFetchMessage channel message_id])
        \/ (exists channel storage pointer,
              bot_get_channel env channel_id = Some channel
              /\ storage_channel env = Some storage
              /\ List.filter is_fetch evs
                 = [EvFetchMessage channel message_id; EvFetchMessage storage pointer]))
    /\ (length (List.filter is_cache_write evs) <= 1)%nat
    /\ List.filter is_store_write evs = []
    /\ Forall (fun ev => is_fetch ev || is_cache_write ev = true) evs
    /\ (forall cache, LRU.peek message_id (_spoiler_cache s) = Some cache ->
          r = Return (Some cache) /\ evs = [])
    /\ (forall cache, r = Return (Some cache) ->
          (1 <= LRU.capacity (_spoiler_cache s))%nat ->
          forall env' channel_id',
            fst (get_spoiler_cache env' channel_id' message_id s') = Return (Some cache)
            /\ trace (snd (get_spoiler_cache env' channel_id' message_id s')) = trace s').
Proof.
  intros H. apply get_spoiler_cache_inv in H.
  assert (Hhit : forall cache (s0 : Buttons) env' channel_id',
            LRU.peek message_id (_spoiler_cache s0) = Some cache ->
            fst (get_spoiler_cache env' channel_id' message_id s0) = Return (Some cache)
            /\ trace (snd (get_spoiler_cache env' channel_id' message_id s0)) = trace s0).
  { intros cache s0 env' ch' Hp. apply getitem_peek_Some in Hp as [c1 Hp].
    unfold get_spoiler_cache. run. rewrite Hp. simpl. auto. }
  assert (Hmiss : LRU.getitem message_id (_spoiler_cache s) = None ->
            forall cache (P : Prop), LRU.peek message_id (_spoiler_cache s) = Some cache -> P).
  { intros Hnone cache P Hp. apply getitem_peek in Hnone. congruence. }
  destruct H as [cache c' Hget | Hget Hst | storage Hget Hst Hch
                 | storage channel e Hget Hst Hch Hf
                 | storage channel original e Hget Hst Hch Hf Hptr
                 | storage channel original embed pointer e Hget Hst Hch Hf Hi Hp Hf2
                 | storage channel original embed pointer message e Hget Hst Hch Hf Hi Hp Hf2 Hd
                 | storage channel original embed pointer message cache Hget Hst Hch Hf Hi Hp Hf2 Hd];
    cbn [trace log set_cache _spoiler_cooldown _spoiler_cache].
  - assert (Hc' : LRU.peek message_id c' = Some cache).
    { unfold LRU.getitem in Hget. unfold LRU.peek.
      destruct (LRU.find message_id (LRU.items (_spoiler_cache s))); [|discriminate].
      injection Hget as <- <-. cbn. rewrite Z.eqb_refl. reflexivity. }
    exists []. split; [cbn; rewrite app_nil_r; reflexivity|]. split_and!; simpl; auto.
    + intros cache' Hp. apply getitem_peek_Some in Hp as [c1 Hp]. split; congruence.
    + intros cache' [= <-] _ env' ch'.
      destruct (Hhit cache (set_cache c' s) env' ch' Hc') as [H1 H2].
      split; [exact H1 | exact H2].
  - exists []. split; [cbn; rewrite app_nil_r; reflexivity|].
    split_and!; simpl; eauto; closing.
  - exists []. split; [cbn; rewrite app_nil_r; reflexivity|].
    split_and!; simpl; eauto; closing.
  - eexists [_]. split; [reflexivity|]. split_and!; simpl; eauto; closing.
  - eexists [_]. split; [reflexivity|]. split_and!; simpl; eauto; closing.
  - eexists [_; _]. split; [cbn; rewrite <- app_assoc; reflexivity|].
    split_and!; simpl; eauto 10; closing.
  - eexists [_; _]. split; [cbn; rewrite <- app_assoc; reflexivity|].
    split_and!; simpl; eauto 10; closing.
  - eexists [_; _; _]. split; [cbn; rewrite <- !app_assoc; reflexivity|].
    split_and!; simpl; eauto 10; try closing.
    intros cache' [= <-] Hcap env' ch'.
    match goal with
    | |- context [get_spoiler_cache _ _ _ ?s0] =>
        destruct (Hhit cache s0 env' ch') as [H1 H2];
          [cbn; apply peek_setitem_eq; assumption | split; [exact H1 | exact H2]]
    end.
Qed.

Lemma reconstruct_cost_witness :
  get_spoiler_cache env_ok general_id 1000 Buttons_init
    = (Return (Some record_cat), after_reconstruct)
  /\ fst (get_spoiler_cache env_no_embed general_id 1000 after_reconstruct)
     = Return (Some record_cat)
  /\ trace (snd (get_spoiler_cache env_no_embed general_id 1000 after_reconstruct))
     = trace after_reconstruct.
Proof.
  assert (E : get_spoiler_cache env_ok general_id 1000 Buttons_init
              = (Return (Some record_cat), after_reconstruct))
    by (vm_compute; reflexivity).
  split; [exact E|].
  destruct (reconstruct_cost env_ok general_id 1000 Buttons_init _ _ E)
    as (evs & _ & _ & _ & _ & _ & _ & Hnext).
  apply (Hnext record_cat eq_refl); simpl; lia.
Defined.

(* ===================================================================== *)
(** ** The archive codec *)
(* ===================================================================== *)

Lemma decode_encode_gen id r :
  decode (encode id r)
  = Return {| author_id := author_id r; channel_id := channel_id r;
              attachments := attachments r; title := title r;
              text := if truthy (text r) then text r else None |}.
Proof.
  unfold decode, encode, archive_embed. cbn [embeds index0 message_attachments].
  destruct (truthy (text r)) eqn:Ht; cbn; rewrite !int_of_str_of_int; cbn.
  - destruct (text r) as [t|]; [|discriminate]. cbn in *. rewrite Ht. reflexivity.
  - reflexivity.
Qed.

(** A record whose text is present but empty does not decode to itself. *)
Lemma roundtrip_empty_text_counterexample :
  decode (encode 7 record_empty_text) <> Return record_empty_text.
Proof. vm_compute. discriminate. Qed.

(** C3, as the code has it.  Decoding the archive encoding of a record
    gives the record back, field by field, when its text is absent or not
    empty; a text that is present but empty comes back as absent, the other
    fields unchanged. *)
Theorem decode_encode_roundtrip (id : Z) (r : SpoilerCache) :
  (text r <> Some "" -> decode (encode id r) = Return r)
  /\ (text r = Some "" -> decode (encode id r) = Return (without_text r)).
Proof.
  rewrite decode_encode_gen. destruct r as [a c t x atts]; cbn. split.
  - intros Hx. destruct x as [x|]; cbn; [|reflexivity].
    destruct (String.eqb_spec x ""); [congruence | reflexivity].
  - intros ->. reflexivity.
Qed.

Lemma decode_encode_roundtrip_witness :
  (decode (encode 7 record_cat) = Return record_cat
   /\ decode (encode 7 record_text) = Return record_text)
  /\ decode (encode 7 record_empty_text) = Return (without_text record_empty_text).
Proof.
  split; [split|].
  - apply (proj1 (decode_encode_roundtrip 7 record_cat)). discriminate.
  - apply (proj1 (decode_encode_roundtrip 7 record_text)). intros H; discriminate H.
  - apply (proj2 (decode_encode_roundtrip 7 record_empty_text)). reflexivity.
Defined.

(** What [redirect_post] returns decodes to the record it returns, when
    the storage channel holds the embed as it was sent. *)
Lemma published_decodes ctx title text message :
  embeds message
    = [archive_embed (ctx_author_id ctx) (ctx_channel_id ctx) (Some title) text] ->
  text <> Some "" ->
  decode message = Return (published ctx title text message).
Proof.
  intros He Ht.
  transitivity (decode (encode (message_id message) (published ctx title text message))).
  - unfold decode, encode, published. simpl. rewrite He. reflexivity.
  - rewrite decode_encode_gen. unfold published. simpl.
    destruct text as [t|]; simpl; [|reflexivity].
    destruct (String.eqb_spec t ""); [congruence | reflexivity].
Qed.

(** C10.  The text of a decoded record is absent or a non-empty string: a
    storage message whose embed has no description, or an empty one,
    decodes to an absent text; so does every record reconstructed on a
    cache miss; and the encoding of a record with an empty text decodes to
    a record with absent text. *)
Theorem decode_text_absent_or_nonempty :
  (forall message r, decode message = Return r ->
     text r = None \/ exists t, text r = Some t /\ t <> "")
  /\ (forall message data rest r,
        embeds message = data :: rest ->
        embed_description data = None \/ embed_description data = Some "" ->
        decode message = Return r -> text r = None)
  /\ (forall env channel_id message_id s cache s',
        LRU.peek message_id (_spoiler_cache s) = None ->
        get_spoiler_cache env channel_id message_id s = (Return (Some cache), s') ->
        text cache = None \/ exists t, text cache = Some t /\ t <> "")
  /\ (forall id r, text r = Some "" ->
        exists r', decode (encode id r) = Return r' /\ text r' = None).
Proof.
  assert (Hd : forall message r, decode message = Return r ->
            exists data rest, embeds message = data :: rest
              /\ text r = if truthy (embed_description data)
                          then embed_description data else None).
  { intros message r H. unfold decode in H.
    destruct (embeds message) as [|data rest]; [discriminate|].
    cbn in H. destruct (py_int (embed_author_name data)); [|discriminate].
    destruct (py_int (embed_footer_text data)); [|discriminate].
    injection H as <-. eauto. }
  assert (H1 : forall message r, decode message = Return r ->
            text r = None \/ exists t, text r = Some t /\ t <> "").
  { intros message r H. destruct (Hd _ _ H) as (data & rest & _ & ->).
    destruct (embed_description data) as [d|]; cbn; [|auto].
    destruct (String.eqb_spec d ""); cbn; [auto | right; eauto]. }
  split_and!.
  - exact H1.
  - intros message data rest r He Hdesc H.
    destruct (Hd _ _ H) as (data' & rest' & He' & ->).
    rewrite He in He'. injection He' as <- <-.
    destruct Hdesc as [-> | ->]; reflexivity.
  - intros env ch mid s cache s' Hpeek H.
    apply getitem_peek in Hpeek. apply get_spoiler_cache_inv in H.
    inversion H; subst; try congruence. eapply H1; eauto.
  - intros id r Hx. eexists. split.
    + apply decode_encode_gen.
    + cbn. rewrite Hx. reflexivity.
Qed.

Lemma decode_text_absent_or_nonempty_witness :
  (text record_text = None \/ exists t, text record_text = Some t /\ t <> "")
  /\ text (without_text record_empty_text) = None
  /\ (text record_cat = None \/ exists t, text record_cat = Some t /\ t <> "")
  /\ exists r', decode (encode 7 record_empty_text) = Return r' /\ text r' = None.
Proof.
  destruct decode_text_absent_or_nonempty as (H1 & H2 & H3 & H4).
  split_and!.
  - apply (H1 (encode 7 record_text) record_text). vm_compute. reflexivity.
  - apply (H2 (encode 7 record_empty_text)
              (archive_embed danny_id general_id (Some "cat") (Some "")) []).
    + reflexivity.
    + left. reflexivity.
    + vm_compute. reflexivity.
  - apply (H3 env_ok general_id 1000 Buttons_init record_cat after_reconstruct).
    + reflexivity.
    + vm_compute. reflexivity.
  - apply (H4 7 record_empty_text). reflexivity.
Defined.

(* ===================================================================== *)
(** ** The publish pipeline *)
(* ===================================================================== *)

Lemma logs_nil s : logs [] s = s.
Proof. destruct s. unfold logs. simpl. rewrite app_nil_r. reflexivity. Qed.

Lemma logs_log ev evs s : logs evs (log ev s) = logs (ev :: evs) s.
Proof. unfold logs, log. simpl. rewrite <- app_assoc. reflexivity. Qed.

(** *** The type policy *)

Lemma endswith_dot_extension s e :
  extension e = None ->
  Py.endswith s (String "." e) = true <-> extension s = Some e.
Proof.
  intros He. induction s as [|c s IH].
  - simpl. split; discriminate.
  - cbn [Py.endswith extension]. rewrite orb_true_iff, IH.
    split.
    + intros [H | H].
      * apply String.eqb_eq in H. injection H as -> ->. rewrite He. reflexivity.
      * rewrite H. reflexivity.
    + destruct (extension s) as [e'|] eqn:Es.
      * intros [= ->]. auto.
      * destruct (Ascii.eqb_spec c "."); [|discriminate].
        intros [= ->]. subst c. left. apply String.eqb_refl.
Qed.

(** The check of line 424 is the type policy: the lower-cased extension is
    one of the seven allowed ones. *)
Lemma supported_iff a : supported a = true <-> allowed_extension (filename a).
Proof.
  unfold supported, allowed_extension, Py.endswith_any, supported_attachments, allowed_extensions.
  set (n := Py.lower (filename a)).
  cbn [existsb]. rewrite !orb_true_iff.
  rewrite !endswith_dot_extension by reflexivity.
  split.
  - intros H. decompose [or] H; try discriminate; eexists; (split; [eassumption|]); simpl; tauto.
  - intros (e & He & Hin). simpl in Hin. decompose [or] Hin; subst; tauto.
Qed.

Lemma evil_exe_not_allowed : ~ allowed_extension "evil.exe".
Proof.
  intros H. apply (supported_iff evil) in H. discriminate H.
Qed.

Lemma forallb_supported_false atts a :
  In a atts -> ~ allowed_extension (filename a) -> forallb supported atts = false.
Proof.
  intros Hin Hna. destruct (forallb supported atts) eqn:E; [|reflexivity].
  rewrite forallb_forall in E. specialize (E a Hin).
  apply supported_iff in E. contradiction.
Qed.

(** With the storage channel missing, the publish of [evil.exe] fails
    with the storage error of line 421, which is raised before the type
    check, and not with the unsupported-file error. *)
Lemma unsupported_attachment_counterexample :
  ~ allowed_extension (filename evil)
  /\ storage_channel env_no_storage = None
  /\ redirect_post env_no_storage (ctx_with [evil]) "cat" None Buttons_init
     = (Raise (Exn RuntimeError "Spoiler storage was not found"), Buttons_init)
  /\ Exn RuntimeError "Spoiler storage was not found"
     <> Exn RuntimeError unsupported_message.
Proof.
  split_and!; [exact evil_exe_not_allowed | reflexivity | reflexivity | discriminate].
Qed.

(** C8, as the code has it.  When some candidate attachment has an
    extension outside the allowed set, [redirect_post] raises a
    [RuntimeError] without any operation, so without fetching any
    content.  With the storage channel found the error is the
    unsupported-file error, which the [spoiler] command then sends to the
    author as its only operation; with the storage channel missing the
    check of line 420 comes first and the error is the storage error,
    sent in the same way.  [evil.exe] is such a candidate. *)
Theorem unsupported_attachment_rejected env ctx title text s a :
  In a (ctx_message_attachments ctx) ->
  ~ allowed_extension (filename a) ->
  (exists e, redirect_post env ctx title text s = (Raise e, s)
             /\ exn_cls e = RuntimeError)
  /\ (forall storage, storage_channel env = Some storage ->
        redirect_post env ctx title text s
        = (Raise (Exn RuntimeError unsupported_message), s)
        /\ ((String.length title <= 100)%nat ->
            spoiler env ctx title text s
            = (ctx_send_unit (ctx_send env (Some unsupported_message) None),
               log (EvCtxSend (Some unsupported_message) None) s)))
  /\ (storage_channel env = None ->
        redirect_post env ctx title text s
        = (Raise (Exn RuntimeError "Spoiler storage was not found"), s)
        /\ ((String.length title <= 100)%nat ->
            spoiler env ctx title text s
            = (ctx_send_unit (ctx_send env (Some "Spoiler storage was not found") None),
               log (EvCtxSend (Some "Spoiler storage was not found") None) s)))
  /\ ~ allowed_extension "evil.exe".
Proof.
  intros Hin Hna. pose proof (forallb_supported_false _ _ Hin Hna) as Hf.
  assert (Hrp : forall storage, storage_channel env = Some storage ->
            redirect_post env ctx title text s
            = (Raise (Exn RuntimeError unsupported_message), s)).
  { intros storage Hst. unfold redirect_post. rewrite Hst, Hf. reflexivity. }
  assert (Hno : storage_channel env = None ->
            redirect_post env ctx title text s
            = (Raise (Exn RuntimeError "Spoiler storage was not found"), s)).
  { intros Hst. unfold redirect_post. rewrite Hst. reflexivity. }
  assert (Hsp : forall message,
            redirect_post env ctx title text s = (Raise (Exn RuntimeError message), s) ->
            (String.length title <= 100)%nat ->
            spoiler env ctx title text s
            = (ctx_send_unit (ctx_send env (Some message) None),
               log (EvCtxSend (Some message) None) s)).
  { intros message Hr Hlen. unfold spoiler.
    destruct (Nat.ltb_spec 100 (String.length title)) as [Hlt|_]; [lia|].
    run. rewrite Hr. cbn [exn_str].
    destruct (ctx_send env (Some message) None); reflexivity. }
  split_and!.
  - destruct (storage_channel env) as [storage|] eqn:Hst.
    + rewrite (Hrp storage eq_refl). eexists; split; reflexivity.
    + rewrite (Hno eq_refl). eexists; split; reflexivity.
  - intros storage Hst. split; [apply Hrp with storage; exact Hst|].
    apply Hsp. apply Hrp with storage. exact Hst.
  - intros Hst. split; [apply Hno; exact Hst|]. apply Hsp. apply Hno. exact Hst.
  - exact evil_exe_not_allowed.
Qed.

Lemma unsupported_attachment_rejected_witness :
  redirect_post env_ok (ctx_with [img; evil]) "cat" None Buttons_init
  = (Raise (Exn RuntimeError unsupported_message), Buttons_init)
  /\ trace (snd (spoiler env_ok (ctx_with [img; evil]) "cat" None Buttons_init))
     = [EvCtxSend (Some unsupported_message) None]
  /\ trace (snd (spoiler env_no_storage (ctx_with [img; evil]) "cat" None Buttons_init))
     = [EvCtxSend (Some "Spoiler storage was not found") None].
Proof.
  assert (Hin : In evil (ctx_message_attachments (ctx_with [img; evil]))) by (simpl; auto).
  assert (Hna : ~ allowed_extension (filename evil)).
  { intros H. apply (supported_iff evil) in H. vm_compute in H. discriminate H. }
  destruct (unsupported_attachment_rejected env_ok (ctx_with [img; evil]) "cat" None
              Buttons_init evil Hin Hna) as (_ & H & _).
  destruct (unsupported_attachment_rejected env_no_storage (ctx_with [img; evil]) "cat" None
              Buttons_init evil Hin Hna) as (_ & _ & H' & _).
  destruct (H storage_id eq_refl) as [H1 H2].
  destruct (H' eq_refl) as [_ H3].
  split_and!; [exact H1 | |].
  - rewrite H2 by (simpl; lia). reflexivity.
  - rewrite H3 by (simpl; lia). reflexivity.
Defined.

(** *** The attachment loop *)

Lemma fetch_attachment_serves env c files total s :
  serves env c ->
  fetch_attachment env (cand_attach c) (files, total) s
  = (Return (if total + cand_size c >? max_mib then (Next, (files, total))
             else (if total + cand_size c >=? max_mib then Break else Next,
                   ((files ++ [file_of c])%list, total + cand_size c))),
     log (fetch_event (cand_attach c)) s).
Proof.
  unfold serves, fetch_attachment. intros Hs.
  unfold bind, await, lift, ret. rewrite Hs.
  cbn [status content_length read header_content_length negb Z.eqb Pos.eqb].
  rewrite py_int_str.
  destruct (total + cand_size c >? max_mib); [reflexivity|]. simpl.
  destruct (total + cand_size c >=? max_mib); reflexivity.
Qed.

(** On candidates that are served, the loop computes the budget of the
    specification, from the budget that remains. *)
Lemma for_budget env cs :
  Forall (serves env) cs ->
  forall files total s,
    for_ (map cand_attach cs) (fetch_attachment env) (files, total) s
    = (Return ((files ++ map file_of (budget (max_mib - total) cs))%list,
               total + total_size (budget (max_mib - total) cs)),
       logs (map (fun c => fetch_event (cand_attach c)) (processed (max_mib - total) cs)) s).
Proof.
  induction 1 as [|c cs Hc Hcs IH]; intros files total s.
  - simpl. unfold ret. rewrite app_nil_r, Z.add_0_r, logs_nil. reflexivity.
  - cbn [map for_ budget processed]. unfold bind.
    rewrite (fetch_attachment_serves _ _ _ _ _ Hc).
    rewrite Z.gtb_ltb, Z.geb_leb.
    rewrite (Z.gtb_ltb (cand_size c)).
    destruct (Z.ltb_spec max_mib (total + cand_size c)) as [Hgt|Hle];
      destruct (Z.ltb_spec (max_mib - total) (cand_size c)) as [Hgt'|Hle']; try lia.
    + rewrite IH, logs_log. reflexivity.
    + destruct (Z.leb_spec max_mib (total + cand_size c)) as [Hge|Hlt];
        destruct (Z.leb_spec (max_mib - total - cand_size c) 0) as [Hge'|Hlt']; try lia.
      * unfold ret. cbn [map]. change (total_size [c]) with (cand_size c + 0).
        rewrite Z.add_0_r. unfold logs, log. reflexivity.
      * rewrite IH, logs_log. cbn [map].
        replace (max_mib - (total + cand_size c)) with (max_mib - total - cand_size c) by lia.
        set (B := budget (max_mib - total - cand_size c) cs).
        change (total_size (c :: B)) with (cand_size c + total_size B).
        rewrite <- app_assoc, Z.add_assoc. reflexivity.
Qed.

Lemma budget_sublist r cs : sublist (budget r cs) cs.
Proof.
  revert r. induction cs as [|c cs IH]; intros r; simpl; [constructor|].
  destruct (cand_size c >? r); [apply sublist_cons; auto|].
  apply sublist_skip. destruct (r - cand_size c <=? 0); [apply sublist_nil_l | auto].
Qed.

Lemma budget_total r cs : 0 <= r -> total_size (budget r cs) <= r.
Proof.
  revert r. induction cs as [|c cs IH]; intros r Hr; simpl; [lia|].
  rewrite Z.gtb_ltb. destruct (Z.ltb_spec r (cand_size c)); [auto|].
  cbn [total_size fold_right].
  fold (total_size (if r - cand_size c <=? 0 then [] else budget (r - cand_size c) cs)).
  destruct (Z.leb_spec (r - cand_size c) 0); [simpl; lia|].
  specialize (IH (r - cand_size c)). lia.
Qed.

Lemma processed_prefix r cs : processed r cs `prefix_of` cs.
Proof.
  revert r. induction cs as [|c cs IH]; intros r; simpl; [reflexivity|].
  destruct (cand_size c >? r); [apply prefix_cons; auto|].
  apply prefix_cons. destruct (r - cand_size c <=? 0); [apply prefix_nil | auto].
Qed.

Lemma processed_stops r cs : processed r cs = cs \/ total_size (budget r cs) = r.
Proof.
  revert r. induction cs as [|c cs IH]; intros r; simpl; [auto|].
  rewrite Z.gtb_ltb. destruct (Z.ltb_spec r (cand_size c)).
  - destruct (IH r) as [-> | ->]; auto.
  - destruct (Z.leb_spec (r - cand_size c) 0).
    + right. simpl. lia.
    + cbn [total_size fold_right]. fold (total_size (budget (r - cand_size c) cs)).
      destruct (IH (r - cand_size c)) as [-> | ->]; [auto | right; lia].
Qed.

Lemma fetch_attachment_trace env a st s :
  snd (fetch_attachment env a st s) = log (fetch_event a) s.
Proof.
  unfold fetch_attachment. destruct st as [files total]. run.
  destruct (session_get env (url a)) as [resp|e]; [|reflexivity]. simpl.
  destruct (negb (status resp =? 200)); [reflexivity|].
  destruct (header_content_length resp) as [n|e]; [|reflexivity]. simpl.
  destruct (total + n >? max_mib); [reflexivity|].
  destruct (read resp); [|reflexivity]. simpl.
  destruct (total + n >=? max_mib); reflexivity.
Qed.

(** The loop only fetches, and only a prefix of the attachments. *)
Lemma for_trace env atts :
  forall st s, exists n,
    snd (for_ atts (fetch_attachment env) st s)
    = logs (map fetch_event (firstn n atts)) s.
Proof.
  induction atts as [|a atts IH]; intros st s.
  - exists 0%nat. simpl. rewrite logs_nil. reflexivity.
  - cbn [for_]. unfold bind.
    pose proof (fetch_attachment_trace env a st s) as Ht.
    destruct (fetch_attachment env a st s) as [[[[|] st']|e] s1]; simpl in Ht; subst s1.
    + destruct (IH st' (log (fetch_event a) s)) as [n Hn].
      exists (S n). rewrite Hn, logs_log. reflexivity.
    + exists 1%nat. reflexivity.
    + exists 1%nat. reflexivity.
Qed.

(** [redirect_post] once the storage channel is found and the type policy
    passed: the loop, then the delay, the deletion and the archive write. *)
Lemma redirect_post_unfold env ctx title text s storage :
  storage_channel env = Some storage ->
  forallb supported (ctx_message_attachments ctx) = true ->
  redirect_post env ctx title text s
  = match for_ (ctx_message_attachments ctx) (fetch_attachment env) ([], 0) s with
    | (Raise e, s1) => (Raise e, s1)
    | (Return (files, _), s1) =>
        let s2 := log (delete_event ctx) (log EvSleep s1) in
        let data := archive_embed (ctx_author_id ctx) (ctx_channel_id ctx) (Some title) text in
        match message_delete env (ctx_channel_id ctx) (ctx_message_id ctx) with
        | Raise e => (Raise e, s2)
        | Return _ =>
            match channel_send env storage data files with
            | Raise e => (Raise (store_error e), log (EvChannelSend storage data files) s2)
            | Return message =>
                (Return (message, published ctx title text message),
                 log (EvChannelSend storage data files) s2)
            end
        end
    end.
Proof.
  intros Hst Hsup. unfold redirect_post. rewrite Hst, Hsup. cbn [negb]. run.
  destruct (for_ (ctx_message_attachments ctx) (fetch_attachment env) ([], 0) s)
    as [[[files total]|e] s1]; [|reflexivity]. simpl.
  destruct (message_delete env (ctx_channel_id ctx) (ctx_message_id ctx)); [|reflexivity].
  destruct (channel_send env storage _ files) as [m|e]; [reflexivity|].
  unfold store_error. destruct (is_HTTPException e); reflexivity.
Qed.

(** *** Attachment fetch failures *)

(** A fetch that raises in one of the three ways makes the round raise,
    after the request was issued. *)
Lemma fetch_attachment_raises env a files total s e :
  fetch_raises env a total e ->
  fetch_attachment env a (files, total) s = (Raise e, log (fetch_event a) s).
Proof.
  unfold fetch_attachment. run.
  intros [Hg | (resp & Hg & Hs & [Hh | (n & Hh & Hcap & Hr)])]; rewrite Hg; simpl;
    [reflexivity | |]; rewrite Hs; simpl; rewrite Hh; simpl; [reflexivity|].
  rewrite Z.gtb_ltb. destruct (Z.ltb_spec max_mib (total + n)); [lia|].
  rewrite Hr. reflexivity.
Qed.

(** A round raises in these three ways only. *)
Lemma fetch_attachment_raises_inv env a files total s e s1 :
  fetch_attachment env a (files, total) s = (Raise e, s1) ->
  fetch_raises env a total e /\ s1 = log (fetch_event a) s.
Proof.
  unfold fetch_attachment, fetch_raises. run.
  destruct (session_get env (url a)) as [resp|e0] eqn:Hg; simpl.
  2: { intros [= <- <-]. auto. }
  destruct (Z.eqb_spec (status resp) 200) as [Hs|Hs]; simpl; [|discriminate].
  destruct (header_content_length resp) as [n|e1] eqn:Hh; simpl.
  2: { intros [= <- <-]. split; [|reflexivity]. right. exists resp. auto. }
  rewrite Z.gtb_ltb. destruct (Z.ltb_spec max_mib (total + n)); [discriminate|].
  destruct (read resp) as [fp|e2] eqn:Hr; simpl.
  { destruct (total + n >=? max_mib); discriminate. }
  intros [= <- <-]. split; [|reflexivity]. right. exists resp. split_and!; auto.
  right. exists n. auto.
Qed.

(** The loop ends early only with the cap reached. *)
Lemma fetch_attachment_break env a files total s files' total' s' :
  fetch_attachment env a (files, total) s = (Return (Break, (files', total')), s') ->
  max_mib <= total'.
Proof.
  unfold fetch_attachment. run.
  destruct (session_get env (url a)) as [resp|e0]; simpl; [|discriminate].
  destruct (negb (status resp =? 200)); [discriminate|].
  destruct (header_content_length resp) as [n|e1]; simpl; [|discriminate].
  destruct (total + n >? max_mib); [discriminate|].
  destruct (read resp) as [fp|e2]; simpl; [|discriminate].
  destruct (Z.geb_spec (total + n) max_mib); [|discriminate].
  intros [= _ <- _]. lia.
Qed.

(** A loop that returned below the cap went through all the attachments,
    and goes on with the attachments after them. *)
Lemma for_continue env pre rest :
  forall files total s files1 total1 s1,
    for_ pre (fetch_attachment env) (files, total) s = (Return (files1, total1), s1) ->
    total1 < max_mib ->
    s1 = logs (map fetch_event pre) s
    /\ for_ (pre ++ rest) (fetch_attachment env) (files, total) s
       = for_ rest (fetch_attachment env) (files1, total1) s1.
Proof.
  induction pre as [|a pre IH]; intros files total s files1 total1 s1.
  - simpl. unfold ret. intros [= <- <- <-] _. rewrite logs_nil. auto.
  - cbn [for_ app]. unfold bind.
    pose proof (fetch_attachment_trace env a (files, total) s) as Ht.
    destruct (fetch_attachment env a (files, total) s) as [[[c [files2 total2]]|e] s2] eqn:Hf;
      [|discriminate].
    simpl in Ht. subst s2. destruct c.
    + intros H Hlt. destruct (IH _ _ _ _ _ _ H Hlt) as [Hs1 Hrest].
      split; [rewrite Hs1, logs_log; reflexivity | exact Hrest].
    + unfold ret. intros [= <- <- <-] Hlt.
      apply fetch_attachment_break in Hf. lia.
Qed.

(** The fetch of [a.png] fails with status 404; the publish nevertheless
    succeeds, [b.png] is fetched after it and the archive message is
    written. *)
Lemma attachment_fetch_failure_counterexample :
  let a := cand_attach (candidate "a.png" 5) in
  let b := candidate "b.png" 5 in
  let run := redirect_post env_a_missing (ctx_with [a; cand_attach b]) "cat" None Buttons_init in
  (exists resp, session_get env_a_missing (url a) = Return resp /\ status resp = 404)
  /\ (exists r, fst run = Return r)
  /\ trace (snd run)
     = [fetch_event a; fetch_event (cand_attach b); EvSleep;
        EvMessageDelete general_id 999;
        EvChannelSend storage_id
          (archive_embed danny_id general_id (Some "cat") None) [file_of b]].
Proof.
  cbv zeta. split_and!.
  - eexists. split; vm_compute; reflexivity.
  - eexists. vm_compute. reflexivity.
  - vm_compute. reflexivity.
Qed.

(** C4, as the code has it.  A fetch that raises ends the loop at once,
    whether the request itself raises, the [Content-Length] header is
    missing or is no integer, or the content cannot be read; a round of
    the loop raises in these three ways only.  At any place of the
    attachment list, [redirect_post] then raises that exception having
    fetched the attachments up to that one and no further, without
    deletion and without archive write, and the [spoiler] command sends
    the text of the exception to the author.  A fetch answered with a
    status other than 200 does not fail the publish: the attachment is
    skipped and the loop goes on. *)
Theorem attachment_fetch_failure env ctx title text s :
  (forall a rest st e,
      session_get env (url a) = Raise e ->
      for_ (a :: rest) (fetch_attachment env) st s
      = (Raise e, log (fetch_event a) s))
  /\ (forall a rest st resp,
        session_get env (url a) = Return resp -> status resp <> 200 ->
        for_ (a :: rest) (fetch_attachment env) st s
        = for_ rest (fetch_attachment env) st (log (fetch_event a) s))
  /\ (forall storage e s1,
        storage_channel env = Some storage ->
        forallb supported (ctx_message_attachments ctx) = true ->
        for_ (ctx_message_attachments ctx) (fetch_attachment env) ([], 0) s = (Raise e, s1) ->
        redirect_post env ctx title text s = (Raise e, s1)
        /\ (exists n, s1 = logs (map fetch_event (firstn n (ctx_message_attachments ctx))) s)
        /\ ((String.length title <= 100)%nat ->
            spoiler env ctx title text s
            = (ctx_send_unit (ctx_send env (Some (exn_str e)) None),
               log (EvCtxSend (Some (exn_str e)) None) s1)))
  /\ (forall a rest files total e,
        fetch_raises env a total e ->
        for_ (a :: rest) (fetch_attachment env) (files, total) s
        = (Raise e, log (fetch_event a) s))
  /\ (forall a files total e s1,
        fetch_attachment env a (files, total) s = (Raise e, s1) ->
        fetch_raises env a total e)
  /\ (forall storage pre a rest files total s1 e,
        storage_channel env = Some storage ->
        forallb supported (ctx_message_attachments ctx) = true ->
        ctx_message_attachments ctx = (pre ++ a :: rest)%list ->
        for_ pre (fetch_attachment env) ([], 0) s = (Return (files, total), s1) ->
        total < max_mib ->
        fetch_raises env a total e ->
        s1 = logs (map fetch_event pre) s
        /\ redirect_post env ctx title text s = (Raise e, log (fetch_event a) s1)
        /\ ((String.length title <= 100)%nat ->
            spoiler env ctx title text s
            = (ctx_send_unit (ctx_send env (Some (exn_str e)) None),
               log (EvCtxSend (Some (exn_str e)) None) (log (fetch_event a) s1)))).
Proof.
  assert (Hsp : forall e s1,
            redirect_post env ctx title text s = (Raise e, s1) ->
            (String.length title <= 100)%nat ->
            spoiler env ctx title text s
            = (ctx_send_unit (ctx_send env (Some (exn_str e)) None),
               log (EvCtxSend (Some (exn_str e)) None) s1)).
  { intros e s1 Hrp Hlen. unfold spoiler.
    destruct (Nat.ltb_spec 100 (String.length title)) as [Hlt|_]; [lia|].
    run. rewrite Hrp.
    destruct (ctx_send env (Some (exn_str e)) None); reflexivity. }
  split_and!.
  - intros a rest [files total] e He. cbn [for_]. unfold bind, fetch_attachment. run.
    rewrite He. reflexivity.
  - intros a rest [files total] resp Hr Hs. cbn [for_]. unfold bind at 1.
    unfold fetch_attachment. run. rewrite Hr. simpl.
    destruct (Z.eqb_spec (status resp) 200); [contradiction|]. reflexivity.
  - intros storage e s1 Hst Hsup Hloop.
    assert (Hrp : redirect_post env ctx title text s = (Raise e, s1)).
    { rewrite (redirect_post_unfold _ _ _ _ _ _ Hst Hsup), Hloop. reflexivity. }
    split_and!; [exact Hrp | |].
    + destruct (for_trace env (ctx_message_attachments ctx) ([], 0) s) as [n Hn].
      rewrite Hloop in Hn. eauto.
    + intros Hlen. apply Hsp; assumption.
  - intros a rest files total e He. cbn [for_]. unfold bind.
    rewrite (fetch_attachment_raises _ _ _ _ _ _ He). reflexivity.
  - intros a files total e s1 H. apply fetch_attachment_raises_inv in H. apply H.
  - intros storage pre a rest files total s1 e Hst Hsup Hatts Hpre Hlt He.
    destruct (for_continue env pre (a :: rest) _ _ _ _ _ _ Hpre Hlt) as [Hs1 Hgo].
    assert (Hrp : redirect_post env ctx title text s = (Raise e, log (fetch_event a) s1)).
    { rewrite (redirect_post_unfold _ _ _ _ _ _ Hst Hsup), Hatts, Hgo.
      cbn [for_]. unfold bind. rewrite (fetch_attachment_raises _ _ _ _ _ _ He).
      reflexivity. }
    split_and!; [exact Hs1 | exact Hrp |].
    intros Hlen. apply Hsp; assumption.
Qed.

Lemma attachment_fetch_failure_witness :
  let a := cand_attach (candidate "a.png" 5) in
  let b := cand_attach (candidate "b.png" 5) in
  let c := cand_attach (candidate "c.png" 5) in
  for_ [a; b] (fetch_attachment env_ok) ([], 0) Buttons_init
    = (Raise connect_error, log (fetch_event a) Buttons_init)
  /\ for_ [a; b] (fetch_attachment env_a_missing) ([], 0) Buttons_init
     = for_ [b] (fetch_attachment env_a_missing) ([], 0) (log (fetch_event a) Buttons_init)
  /\ spoiler env_ok (ctx_with [a; b]) "cat" None Buttons_init
     = (Return tt,
        log (EvCtxSend (Some "Cannot connect to host") None)
            (log (fetch_event a) Buttons_init))
  /\ spoiler (env_b no_length) (ctx_with [a; b; c]) "cat" None Buttons_init
     = (Return tt,
        logs [fetch_event a; fetch_event b; EvCtxSend (Some "'Content-Length'") None]
          Buttons_init)
  /\ spoiler (env_b unreadable) (ctx_with [a; b; c]) "cat" None Buttons_init
     = (Return tt,
        logs [fetch_event a; fetch_event b; EvCtxSend (Some "Cannot connect to host") None]
          Buttons_init).
Proof.
  cbv zeta.
  set (a := cand_attach (candidate "a.png" 5)).
  set (b := cand_attach (candidate "b.png" 5)).
  set (c := cand_attach (candidate "c.png" 5)).
  destruct (attachment_fetch_failure env_ok (ctx_with [a; b]) "cat" None Buttons_init)
    as (H1 & _ & H3 & _).
  destruct (attachment_fetch_failure env_a_missing (ctx_with [a; b]) "cat" None Buttons_init)
    as (_ & H2 & _).
  destruct (attachment_fetch_failure (env_b no_length) (ctx_with [a; b; c]) "cat" None
              Buttons_init) as (_ & _ & _ & _ & _ & H6).
  destruct (attachment_fetch_failure (env_b unreadable) (ctx_with [a; b; c]) "cat" None
              Buttons_init) as (_ & _ & _ & _ & _ & H7).
  split_and!.
  - apply H1. reflexivity.
  - apply (H2 a [b] ([], 0)
              {| status := 404; content_length := Some "0"; read := Return "" |}).
    + reflexivity.
    + simpl. lia.
  - destruct (H3 storage_id connect_error (log (fetch_event a) Buttons_init))
      as (_ & _ & H); [reflexivity | reflexivity | | ].
    + apply H1. reflexivity.
    + rewrite H by (simpl; lia). reflexivity.
  - assert (Hr : fetch_raises (env_b no_length) b 5 (Exn KeyError "'Content-Length'")).
    { right. exists no_length. split_and!; try reflexivity. left. reflexivity. }
    destruct (H6 storage_id [a] b [c] [file_of (candidate "a.png" 5)] 5
                (log (fetch_event a) Buttons_init) (Exn KeyError "'Content-Length'")
                eq_refl eq_refl eq_refl eq_refl eq_refl Hr) as (_ & _ & H).
    rewrite H by (simpl; lia). reflexivity.
  - assert (Hr : fetch_raises (env_b unreadable) b 5 connect_error).
    { right. exists unreadable. split_and!; try reflexivity.
      right. exists 5. split_and!; try reflexivity. vm_compute. discriminate. }
    destruct (H7 storage_id [a] b [c] [file_of (candidate "a.png" 5)] 5
                (log (fetch_event a) Buttons_init) connect_error
                eq_refl eq_refl eq_refl eq_refl eq_refl Hr) as (_ & _ & H).
    rewrite H by (simpl; lia). reflexivity.
Defined.

(** *** Failure of the archive write *)

(** The archive write fails with a server error; the deletion of the
    original message was issued before it and had succeeded. *)
Lemma archive_write_failure_counterexample :
  let env := env_serving [] (Return tt) (Raise server_error) in
  let run := redirect_post env (ctx_with []) "cat" None Buttons_init in
  fst run = Raise (Exn RuntimeError
              "Sorry. Could not store message due to DiscordServerError: 500 Internal Server Error.")
  /\ message_delete env general_id 999 = Return tt
  /\ trace (snd run)
     = [EvSleep; EvMessageDelete general_id 999;
        EvChannelSend storage_id (archive_embed danny_id general_id (Some "cat") None) []].
Proof. cbv zeta. split_and!; vm_compute; reflexivity. Qed.

(** C2, as the code has it.  After the attachment loop [redirect_post]
    deletes the original message first and writes the archive message
    second.  When the archive write raises, the pipeline raises the
    archive-write error (for an [HTTPException]; any other exception as it
    is), and the original message has been deleted already.  When the
    deletion itself raises, nothing is written. *)
Theorem archive_write_failure env ctx title text s storage files total s1 :
  storage_channel env = Some storage ->
  forallb supported (ctx_message_attachments ctx) = true ->
  for_ (ctx_message_attachments ctx) (fetch_attachment env) ([], 0) s
    = (Return (files, total), s1) ->
  let data := archive_embed (ctx_author_id ctx) (ctx_channel_id ctx) (Some title) text in
  let s2 := log (delete_event ctx) (log EvSleep s1) in
  (forall e, message_delete env (ctx_channel_id ctx) (ctx_message_id ctx) = Raise e ->
     redirect_post env ctx title text s = (Raise e, s2))
  /\ (forall e, message_delete env (ctx_channel_id ctx) (ctx_message_id ctx) = Return tt ->
        channel_send env storage data files = Raise e ->
        redirect_post env ctx title text s
        = (Raise (store_error e), log (EvChannelSend storage data files) s2)).
Proof.
  intros Hst Hsup Hloop data s2. split.
  - intros e Hdel. rewrite (redirect_post_unfold _ _ _ _ _ _ Hst Hsup), Hloop, Hdel. reflexivity.
  - intros e Hdel Hsend.
    rewrite (redirect_post_unfold _ _ _ _ _ _ Hst Hsup), Hloop, Hdel. cbv zeta.
    fold data. rewrite Hsend. reflexivity.
Qed.

Lemma archive_write_failure_witness :
  redirect_post (env_serving [] (Raise (Exn Forbidden "403 Forbidden")) (Raise server_error))
                (ctx_with []) "cat" None Buttons_init
    = (Raise (Exn Forbidden "403 Forbidden"),
       log (delete_event (ctx_with [])) (log EvSleep Buttons_init))
  /\ redirect_post (env_serving [] (Return tt) (Raise server_error))
                   (ctx_with []) "cat" None Buttons_init
     = (Raise (store_error server_error),
        log (EvChannelSend storage_id (archive_embed danny_id general_id (Some "cat") None) [])
            (log (delete_event (ctx_with [])) (log EvSleep Buttons_init))).
Proof.
  split.
  - apply (archive_write_failure
             (env_serving [] (Raise (Exn Forbidden "403 Forbidden")) (Raise server_error))
             (ctx_with []) "cat" None Buttons_init storage_id [] 0 Buttons_init);
      reflexivity.
  - apply (archive_write_failure
             (env_serving [] (Return tt) (Raise server_error))
             (ctx_with []) "cat" None Buttons_init storage_id [] 0 Buttons_init);
      reflexivity.
Defined.

(** *** The size budget *)

(** C5.  On candidates whose content is served, the attachment loop
    archives exactly the candidates the budget of the specification
    selects under the 25 MiB cap, in their order, and counts their sizes:
    a candidate exceeding what remains is skipped and not counted, later
    candidates are still considered, and nothing is fetched once the total
    has reached the cap.  The files so collected are those written to the
    storage channel.  For three candidates of 10 MiB the first two are
    archived; for one of 30 MiB none is. *)
Theorem size_budget env cs s :
  Forall (serves env) cs ->
  let archived := budget max_mib cs in
  for_ (map cand_attach cs) (fetch_attachment env) ([], 0) s
  = (Return (map file_of archived, total_size archived),
     logs (map (fun c => fetch_event (cand_attach c)) (processed max_mib cs)) s)
  /\ sublist archived cs
  /\ total_size archived <= max_mib
  /\ processed max_mib cs `prefix_of` cs
  /\ (processed max_mib cs = cs \/ total_size archived = max_mib)
  /\ (forall c1 c2 c3, cs = [c1; c2; c3] ->
        cand_size c1 = 10 * MiB -> cand_size c2 = 10 * MiB -> cand_size c3 = 10 * MiB ->
        archived = [c1; c2])
  /\ (forall c, cs = [c] -> cand_size c = 30 * MiB -> archived = [])
  /\ (forall ctx title text storage message,
        ctx_message_attachments ctx = map cand_attach cs ->
        storage_channel env = Some storage ->
        forallb supported (ctx_message_attachments ctx) = true ->
        message_delete env (ctx_channel_id ctx) (ctx_message_id ctx) = Return tt ->
        let data := archive_embed (ctx_author_id ctx) (ctx_channel_id ctx) (Some title) text in
        channel_send env storage data (map file_of archived) = Return message ->
        redirect_post env ctx title text s
        = (Return (message, published ctx title text message),
           log (EvChannelSend storage data (map file_of archived))
             (log (delete_event ctx)
                (log EvSleep
                   (logs (map (fun c => fetch_event (cand_attach c)) (processed max_mib cs)) s))))).
Proof.
  intros Hs archived.
  pose proof (for_budget env cs Hs [] 0 s) as Hloop.
  rewrite Z.sub_0_r, Z.add_0_l in Hloop. cbn [app] in Hloop. fold archived in Hloop.
  split_and!.
  - exact Hloop.
  - apply budget_sublist.
  - apply budget_total. unfold max_mib. lia.
  - apply processed_prefix.
  - apply processed_stops.
  - intros c1 c2 c3 -> H1 H2 H3. subst archived. unfold budget.
    rewrite H1, H2, H3. reflexivity.
  - intros c -> H1. subst archived. unfold budget. rewrite H1. reflexivity.
  - intros ctx title text storage message Hatts Hst Hsup Hdel data Hsend.
    rewrite (redirect_post_unfold _ _ _ _ _ _ Hst Hsup), Hatts, Hloop, Hdel. cbv zeta.
    fold data. rewrite Hsend. reflexivity.
Qed.

Lemma size_budget_witness :
  budget max_mib three_images
    = [candidate "a.png" (10 * MiB); candidate "b.png" (10 * MiB)]
  /\ budget max_mib one_video = []
  /\ fst (for_ (map cand_attach three_images)
               (fetch_attachment (env_serving three_images (Return tt) (Return (encode 7 record_cat))))
               ([], 0) Buttons_init)
     = Return ([file_of (candidate "a.png" (10 * MiB)); file_of (candidate "b.png" (10 * MiB))],
               20 * MiB).
Proof.
  assert (H3 : Forall (serves (env_serving three_images (Return tt) (Return (encode 7 record_cat))))
                 three_images).
  { repeat constructor; vm_compute; reflexivity. }
  assert (H1 : Forall (serves (env_serving one_video (Return tt) (Return (encode 7 record_cat))))
                 one_video).
  { repeat constructor; vm_compute; reflexivity. }
  destruct (size_budget _ three_images Buttons_init H3) as (Hrun & _ & _ & _ & _ & Hthree & _).
  destruct (size_budget _ one_video Buttons_init H1) as (_ & _ & _ & _ & _ & _ & Hone & _).
  assert (E3 : budget max_mib three_images
               = [candidate "a.png" (10 * MiB); candidate "b.png" (10 * MiB)])
    by (apply (Hthree _ _ (candidate "c.png" (10 * MiB))); reflexivity).
  split_and!.
  - exact E3.
  - apply (Hone (candidate "big.mp4" (30 * MiB))); reflexivity.
  - rewrite Hrun, E3. reflexivity.
Defined.

(* ===================================================================== *)
(** ** The reveal rate limiter *)
(* ===================================================================== *)

Lemma is_rate_limited_eq now p a m :
  is_rate_limited now p a m
  = (bool_decide (is_Some (fst (Cooldowns.update_rate_limit now (bucket_of (p, a) m)))),
     Cooldowns.set_bucket (p, a)
       (snd (Cooldowns.update_rate_limit now (bucket_of (p, a) m))) m).
Proof.
  unfold is_rate_limited, _bucket_key, Cooldowns.get_bucket, bucket_of.
  destruct (Cooldowns.cache m !! (p, a)) as [b|] eqn:E; simpl.
  - destruct (Cooldowns.update_rate_limit now b); reflexivity.
  - destruct (Cooldowns.update_rate_limit now (Cooldowns.cooldown m)) as [r b'].
    simpl. unfold Cooldowns.set_bucket. simpl. rewrite insert_insert_eq. reflexivity.
Qed.





Lemma update_full now b :
  Cooldowns.tokens b = 1 -> Cooldowns.rate b = 1 ->
  Cooldowns.update_rate_limit now b
  = (None, {| Cooldowns.rate := 1; Cooldowns.per := Cooldowns.per b;
              Cooldowns.tokens := 0; Cooldowns.window := now |}).
Proof.
  intros Ht Hr. unfold Cooldowns.update_rate_limit, Cooldowns.get_tokens.
  rewrite Ht, Hr. destruct (Qle_bool _ _); reflexivity.
Qed.




Lemma get_spoiler_cache_keeps_cooldown env ch mid s :
  _spoiler_cooldown (snd (get_spoiler_cache env ch mid s)) = _spoiler_cooldown s.
Proof.
  destruct (get_spoiler_cache_outcome env ch mid s); reflexivity.
Qed.


Lemma reveal_spoiler_keeps_cooldown env i s :
  _spoiler_cooldown (snd (reveal_spoiler env i s)) = _spoiler_cooldown s.
Proof.
  unfold reveal_spoiler, bind.
  pose proof (get_spoiler_cache_keeps_cooldown env (interaction_channel_id i)
                (interaction_message_id i) s) as H.
  destruct (get_spoiler_cache env _ _ s) as [[[c|]|e] s1]; simpl in *; exact H.
Qed.



(* ===================================================================== *)
(** ** The cache over the process lifetime *)
(* ===================================================================== *)

Section Preserves.
Variable P : Buttons -> Prop.
Hypothesis P_log : forall ev s, P s -> P (log ev s).

Lemma preserves_ret {A} (a : A) : preserves P (ret a).
Proof. intros s H. exact H. Qed.

Lemma preserves_raise {A} e : preserves P (@raise A e).
Proof. intros s H. exact H. Qed.

Lemma preserves_lift {A} (r : result A) : preserves P (lift r).
Proof. intros s H. exact H. Qed.

Lemma preserves_await {A} ev (r : result A) : preserves P (await ev r).
Proof. intros s H. apply P_log. exact H. Qed.

Lemma preserves_bind {A B} (m : M A) (k : A -> M B) :
  preserves P m -> (forall a, preserves P (k a)) -> preserves P (bind m k).
Proof.
  intros Hm Hk s H. unfold bind. specialize (Hm s H).
  destruct (m s) as [[a|e] s1]; simpl in *; [apply Hk; exact Hm | exact Hm].
Qed.

Lemma preserves_try_except {A} (m : M A) (h : exn -> M A) :
  preserves P m -> (forall e, preserves P (h e)) -> preserves P (try_except m h).
Proof.
  intros Hm Hh s H. unfold try_except. specialize (Hm s H).
  destruct (m s) as [[a|e] s1]; simpl in *; [exact Hm | apply Hh; exact Hm].
Qed.

Lemma preserves_for {A St} (xs : list A) (body : A -> St -> M (ctl * St)) :
  (forall x st, preserves P (body x st)) -> forall st, preserves P (for_ xs body st).
Proof.
  intros Hb. induction xs as [|x xs IH]; intros st; cbn [for_].
  - apply preserves_ret.
  - apply preserves_bind; [apply Hb|].
    intros [[|] st']; [apply IH | apply preserves_ret].
Qed.
End Preserves.

Lemma cache_inv_log ev s : cache_inv s -> cache_inv (log ev s).
Proof. intros H. exact H. Qed.

Lemma cache_inv_init : cache_inv Buttons_init.
Proof.
  split; [reflexivity|]. split; [constructor | simpl; lia].
Qed.

Lemma preserves_cache_getitem key : preserves cache_inv (cache_getitem key).
Proof.
  intros s [Hcap Hwf]. unfold cache_getitem.
  destruct (LRU.getitem key (_spoiler_cache s)) as [[v c]|] eqn:E; simpl; [|split; assumption].
  destruct (getitem_wf _ _ _ _ Hwf E) as (Hwf' & Hc & _).
  split; cbn; [congruence | exact Hwf'].
Qed.

Lemma preserves_cache_setitem key value : preserves cache_inv (cache_setitem key value).
Proof.
  intros s [Hcap Hwf]. unfold cache_setitem. simpl.
  split; [exact Hcap | apply setitem_wf; exact Hwf].
Qed.

Lemma preserves_is_rate_limited env message user :
  preserves cache_inv (spoiler_cooldown_is_rate_limited env message user).
Proof.
  intros s H. unfold spoiler_cooldown_is_rate_limited.
  destruct (is_rate_limited _ _ _ _). exact H.
Qed.

Ltac preserve :=
  repeat first
    [ apply preserves_ret | apply preserves_raise | apply preserves_lift
    | apply preserves_await; [exact cache_inv_log]
    | apply preserves_cache_getitem | apply preserves_cache_setitem
    | apply preserves_is_rate_limited
    | apply preserves_bind; [| intros]
    | apply preserves_try_except; [| intros]
    | apply preserves_for; intros
    | match goal with
      | |- preserves _ (match ?x with _ => _ end) => destruct x
      | |- preserves _ (let '(_, _) := ?x in _) => destruct x
      end ].

Lemma preserves_get_spoiler_cache env ch mid :
  preserves cache_inv (get_spoiler_cache env ch mid).
Proof. unfold get_spoiler_cache, fetch_message. preserve. Qed.

Lemma preserves_redirect_post env ctx title text :
  preserves cache_inv (redirect_post env ctx title text).
Proof. unfold redirect_post, fetch_attachment. preserve. Qed.

Lemma preserves_spoiler env ctx title text :
  preserves cache_inv (spoiler env ctx title text).
Proof. unfold spoiler. preserve; apply preserves_redirect_post. Qed.

Lemma preserves_reveal_spoiler env i : preserves cache_inv (reveal_spoiler env i).
Proof. unfold reveal_spoiler. preserve; apply preserves_get_spoiler_cache. Qed.

Lemma preserves_on_raw_reaction_add env p : preserves cache_inv (on_raw_reaction_add env p).
Proof. unfold on_raw_reaction_add. preserve; apply preserves_get_spoiler_cache. Qed.

(** Every state of the cog holds a well-formed cache of capacity 128. *)
Lemma reachable_cache_inv s : reachable s -> cache_inv s.
Proof.
  induction 1.
  - apply cache_inv_init.
  - apply preserves_spoiler; assumption.
  - apply preserves_reveal_spoiler; assumption.
  - apply preserves_on_raw_reaction_add; assumption.
Qed.

Lemma insert_all_wf {V} (kvs : list (Z * V)) c : LRU.wf c -> LRU.wf (insert_all kvs c).
Proof.
  revert c. induction kvs as [|[k v] kvs IH]; intros c H; [exact H|].
  apply IH. apply setitem_wf. exact H.
Qed.

Lemma new_wf {V} n : LRU.wf (@LRU.new V n).
Proof. split; [constructor | simpl; lia]. Qed.

(** C9.  The cache of the cog has capacity 128 and never holds more than
    128 entries, in any state the handlers can reach.  Writing a new key
    to a full cache evicts the least recently accessed entry and no other
    one; writing 129 distinct entries to an empty cache leaves all but the
    first.  A successful lookup makes the entry the most recent one: it is
    not the next victim, and writing any other key keeps it. *)
Theorem lru_cache_bound :
  (forall s, reachable s ->
     LRU.capacity (_spoiler_cache s) = 128%nat
     /\ LRU.wf (_spoiler_cache s)
     /\ (length (LRU.items (_spoiler_cache s)) <= 128)%nat)
  /\ (forall (c : LRU.t SpoilerCache) k v,
        LRU.wf c -> LRU.capacity c = 128%nat -> length (LRU.items c) = 128%nat ->
        LRU.peek k c = None ->
        exists old,
          LRU.victim c = Some old /\ old <> k
          /\ LRU.peek old (LRU.setitem k v c) = None
          /\ LRU.peek k (LRU.setitem k v c) = Some v
          /\ (forall k', k' <> old -> k' <> k ->
                LRU.peek k' (LRU.setitem k v c) = LRU.peek k' c)
          /\ length (LRU.items (LRU.setitem k v c)) = 128%nat)
  /\ (forall (first : Z * SpoilerCache) rest,
        NoDup (map fst (first :: rest)) -> length (first :: rest) = 129%nat ->
        LRU.items (insert_all (first :: rest) (LRU.new 128)) = rev rest)
  /\ (forall (c : LRU.t SpoilerCache) k v c',
        LRU.wf c -> LRU.capacity c = 128%nat ->
        LRU.getitem k c = Some (v, c') ->
        LRU.items c' = (k, v) :: LRU.remove k (LRU.items c)
        /\ ((2 <= length (LRU.items c))%nat -> LRU.victim c' <> Some k)
        /\ (forall k2 v2, k2 <> k -> LRU.peek k (LRU.setitem k2 v2 c') = Some v)).
Proof.
  split_and!.
  - intros s Hs. destruct (reachable_cache_inv s Hs) as [Hcap Hwf].
    split_and!; [exact Hcap | exact Hwf |]. destruct Hwf as [_ Hlen]. lia.
  - intros c k v Hwf Hcap Hfull Hk.
    destruct (setitem_full_evicts k v c Hwf) as (old & H1 & H2 & _ & H3 & H4 & H5 & H6);
      [lia | lia | exact Hk |].
    exists old. rewrite Hcap in H6. auto 10.
  - intros first rest Hnd Hlen.
    destruct (insert_all_distinct (first :: rest) 128 Hnd) as [Hit _].
    rewrite Hit. simpl rev. simpl in Hlen.
    rewrite firstn_app, firstn_all2 by (rewrite length_rev; lia).
    rewrite length_rev. replace (128 - length rest)%nat with 0%nat by lia.
    simpl. apply app_nil_r.
  - intros c k v c' Hwf Hcap Hget.
    destruct (getitem_wf _ _ _ _ Hwf Hget) as (_ & _ & Hit).
    split_and!.
    + exact Hit.
    + intros Hlen. eapply getitem_not_victim; eauto.
    + intros k2 v2 Hne. eapply getitem_refreshes; eauto. lia.
Qed.

Lemma entries_NoDup first n : NoDup (map fst (entries first n)).
Proof.
  unfold entries. rewrite map_map. simpl.
  assert (Hinj : Inj eq eq (fun i : nat => first + Z.of_nat i)) by (intros i j H; lia).
  apply (NoDup_fmap_2 _), NoDup_seq.
Qed.

Lemma entries_S first n : entries first (S n) = (first, record_cat) :: entries (first + 1) n.
Proof.
  unfold entries. simpl. rewrite Z.add_0_r. f_equal.
  rewrite <- seq_shift, map_map. apply map_ext. intros i. f_equal. lia.
Qed.

Lemma full_cache_wf : LRU.wf full_cache.
Proof. apply insert_all_wf, new_wf. Qed.

Lemma full_cache_items : LRU.items full_cache = rev (entries 1 128).
Proof.
  unfold full_cache.
  destruct (insert_all_distinct (entries 1 128) 128 (entries_NoDup 1 128)) as [-> _].
  apply firstn_all2. rewrite length_rev. unfold entries. rewrite length_map, length_seq. lia.
Qed.

Lemma lru_cache_bound_witness :
  (length (LRU.items (_spoiler_cache Buttons_init)) <= 128)%nat
  /\ (exists old, LRU.victim full_cache = Some old
                  /\ LRU.peek old (LRU.setitem 129 record_cat full_cache) = None)
  /\ LRU.items (insert_all (entries 1 129) (LRU.new 128)) = rev (entries 2 128)
  /\ LRU.peek 1 (LRU.setitem 129 record_cat
                   (LRU.Make 128 ((1, record_cat) :: LRU.remove 1 (LRU.items full_cache))))
     = Some record_cat.
Proof.
  destruct lru_cache_bound as (H1 & H2 & H3 & H4).
  split_and!.
  - apply (H1 Buttons_init reach_init).
  - destruct (H2 full_cache 129 record_cat) as (old & Hv & _ & Ho & _).
    + exact full_cache_wf.
    + reflexivity.
    + rewrite full_cache_items, length_rev. reflexivity.
    + unfold LRU.peek. rewrite full_cache_items. vm_compute. reflexivity.
    + exists old. auto.
  - rewrite (entries_S 1 128). change (1 + 1) with 2.
    apply (H3 (1, record_cat) (entries 2 128)).
    + change 2 with (1 + 1). rewrite <- (entries_S 1 128). apply entries_NoDup.
    + reflexivity.
  - apply (H4 full_cache 1 record_cat); [exact full_cache_wf | reflexivity | | lia].
    unfold LRU.getitem. rewrite full_cache_items. vm_compute. reflexivity.
Defined.

(* ===================================================================== *)
(** ** Publication, the cache and a restart *)
(* ===================================================================== *)

(** Every run of [redirect_post]: a prefix of the attachments is fetched;
    then the run has raised, or the deletion is issued; the archive write
    is issued once the deletion returned. *)
Lemma redirect_post_cases env ctx title text s :
  let atts := ctx_message_attachments ctx in
  let data := archive_embed (ctx_author_id ctx) (ctx_channel_id ctx) (Some title) text in
  exists n,
    let s1 := logs (map fetch_event (firstn n atts)) s in
    let s2 := log (delete_event ctx) (log EvSleep s1) in
    (exists e, redirect_post env ctx title text s = (Raise e, s1))
    \/ (exists e files total,
          for_ atts (fetch_attachment env) ([], 0) s = (Return (files, total), s1)
          /\ message_delete env (ctx_channel_id ctx) (ctx_message_id ctx) = Raise e
          /\ redirect_post env ctx title text s = (Raise e, s2))
    \/ (exists storage files total,
          storage_channel env = Some storage
          /\ for_ atts (fetch_attachment env) ([], 0) s = (Return (files, total), s1)
          /\ message_delete env (ctx_channel_id ctx) (ctx_message_id ctx) = Return tt
          /\ redirect_post env ctx title text s
             = (match channel_send env storage data files with
                | Raise e => Raise (store_error e)
                | Return message => Return (message, published ctx title text message)
                end,
                log (EvChannelSend storage data files) s2)).
Proof.
  intros atts data.
  destruct (storage_channel env) as [storage|] eqn:Hst.
  2: { exists 0%nat. left. unfold redirect_post. rewrite Hst. simpl. rewrite logs_nil.
       eexists. reflexivity. }
  destruct (forallb supported atts) eqn:Hsup.
  2: { exists 0%nat. left. unfold redirect_post. rewrite Hst. fold atts. rewrite Hsup.
       simpl. rewrite logs_nil. eexists. reflexivity. }
  rewrite (redirect_post_unfold _ _ _ _ _ _ Hst Hsup). fold atts.
  destruct (for_trace env atts ([], 0) s) as [n Hn]. exists n. cbv zeta.
  destruct (for_ atts (fetch_attachment env) ([], 0) s) as [[[files total]|e] s1] eqn:Hloop;
    simpl in Hn; subst s1.
  2: { left. eexists. reflexivity. }
  destruct (message_delete env (ctx_channel_id ctx) (ctx_message_id ctx)) as [[]|e] eqn:Hdel.
  2: { right. left. exists e, files, total. auto. }
  right. right. exists storage, files, total. split_and!; auto.
  fold data. destruct (channel_send env storage data files); reflexivity.
Qed.

Lemma redirect_post_keeps_state env ctx title text s :
  _spoiler_cache (snd (redirect_post env ctx title text s)) = _spoiler_cache s
  /\ _spoiler_cooldown (snd (redirect_post env ctx title text s)) = _spoiler_cooldown s.
Proof.
  destruct (redirect_post_cases env ctx title text s) as [n H]. cbv zeta in H.
  destruct H as [[e ->] | [(e & files & total & _ & _ & ->) | (st & files & total & _ & _ & _ & ->)]];
    split; reflexivity.
Qed.

Lemma redirect_post_returns env ctx title text s m c s1 :
  redirect_post env ctx title text s = (Return (m, c), s1) ->
  c = published ctx title text m
  /\ _spoiler_cache s1 = _spoiler_cache s.
Proof.
  intros H. split.
  - destruct (redirect_post_cases env ctx title text s) as [n Hc]. cbv zeta in Hc.
    destruct Hc as [[e He] | [(e & files & total & _ & _ & He)
                              | (st & files & total & _ & _ & _ & He)]];
      rewrite He in H; try discriminate.
    destruct (channel_send env st _ files); simplify_eq. reflexivity.
  - pose proof (redirect_post_keeps_state env ctx title text s) as [Hk _].
    rewrite H in Hk. exact Hk.
Qed.

(** A cached record is served without any operation. *)
Lemma get_spoiler_cache_hit env ch mid s cache :
  LRU.peek mid (_spoiler_cache s) = Some cache ->
  fst (get_spoiler_cache env ch mid s) = Return (Some cache)
  /\ trace (snd (get_spoiler_cache env ch mid s)) = trace s
  /\ LRU.peek mid (_spoiler_cache (snd (get_spoiler_cache env ch mid s))) = Some cache.
Proof.
  intros Hp. apply getitem_peek_Some in Hp as [c1 Hp].
  unfold get_spoiler_cache. run. rewrite Hp. simpl. split_and!; auto.
  unfold LRU.getitem in Hp. unfold LRU.peek.
  destruct (LRU.find mid (LRU.items (_spoiler_cache s))); [|discriminate].
  injection Hp as <- <-. cbn. rewrite Z.eqb_refl. reflexivity.
Qed.

(** *** Spoiler then lookup *)

(** X1.  After a successful [spoiler] the record is in the cache under the id
    of the front-door post: a lookup of that id, and a press of the button
    on that post, are answered from the cache without any fetch. *)
Theorem spoiler_then_reveal env ctx title text s storage_message cache s1 front :
  (1 <= LRU.capacity (_spoiler_cache s))%nat ->
  (String.length title <= 100)%nat ->
  redirect_post env ctx title text s = (Return (storage_message, cache), s1) ->
  ctx_send env None (Some (to_spoiler_embed cache ctx storage_message)) = Return front ->
  let s2 := snd (spoiler env ctx title text s) in
  fst (spoiler env ctx title text s) = Return tt
  /\ trace s2
     = (trace s1 ++ [EvCtxSend None (Some (to_spoiler_embed cache ctx storage_message));
                     EvCacheSet (message_id front)])%list
  /\ (forall env' channel_id,
        fst (get_spoiler_cache env' channel_id (message_id front) s2) = Return (Some cache)
        /\ trace (snd (get_spoiler_cache env' channel_id (message_id front) s2)) = trace s2)
  /\ (forall env' interaction,
        interaction_message_id interaction = message_id front ->
        let embed := to_embed cache (bot_get_user env' (author_id cache)) in
        fst (reveal_spoiler env' interaction s2) = interaction_send env' None (Some embed)
        /\ trace (snd (reveal_spoiler env' interaction s2))
           = (trace s2 ++ [EvInteractionSend None (Some embed)])%list).
Proof.
  intros Hcap Hlen Hrp Hsend s2.
  destruct (redirect_post_returns _ _ _ _ _ _ _ _ Hrp) as [_ Hk].
  assert (Hs2 : spoiler env ctx title text s
                = (Return tt,
                   log (EvCacheSet (message_id front))
                     (set_cache (LRU.setitem (message_id front) cache (_spoiler_cache s1))
                        (log (EvCtxSend None (Some (to_spoiler_embed cache ctx storage_message)))
                           s1)))).
  { unfold spoiler. destruct (Nat.ltb_spec 100 (String.length title)) as [Hlt|_]; [lia|].
    run. rewrite Hrp. simpl. rewrite Hsend. reflexivity. }
  assert (Hpeek : LRU.peek (message_id front) (_spoiler_cache s2) = Some cache).
  { subst s2. rewrite Hs2. cbn. apply peek_setitem_eq. rewrite Hk. exact Hcap. }
  split_and!.
  - rewrite Hs2. reflexivity.
  - subst s2. rewrite Hs2. cbn. rewrite <- app_assoc. reflexivity.
  - intros env' ch. destruct (get_spoiler_cache_hit env' ch _ _ _ Hpeek) as (H1 & H2 & _).
    split; [exact H1 | exact H2].
  - intros env' i Hi embed.
    destruct (get_spoiler_cache_hit env' (interaction_channel_id i) _ _ _ Hpeek)
      as (H1 & H2 & _).
    unfold reveal_spoiler, bind. rewrite Hi.
    destruct (get_spoiler_cache env' (interaction_channel_id i) (message_id front) s2)
      as [r s3]. simpl in H1, H2. subst r. unfold await. simpl. rewrite H2.
    split; reflexivity.
Qed.

Lemma spoiler_then_reveal_witness :
  fst (spoiler env_ok (ctx_with []) "cat" None Buttons_init) = Return tt
  /\ fst (reveal_spoiler env_viewer {| interaction_channel_id := general_id;
                                       interaction_message_id := 1000 |}
            (snd (spoiler env_ok (ctx_with []) "cat" None Buttons_init)))
     = Return tt.
Proof.
  destruct (spoiler_then_reveal env_ok (ctx_with []) "cat" None Buttons_init
              (encode 7 record_cat) record_cat
              (log (EvChannelSend storage_id
                      (archive_embed danny_id general_id (Some "cat") None) [])
                 (log (delete_event (ctx_with [])) (log EvSleep Buttons_init)))
              (front_door 1000 "7"))
    as (H1 & _ & _ & H4).
  - simpl. lia.
  - simpl. lia.
  - reflexivity.
  - reflexivity.
  - split; [exact H1|].
    destruct (H4 env_viewer {| interaction_channel_id := general_id;
                               interaction_message_id := 1000 |} eq_refl) as [H5 _].
    rewrite H5. reflexivity.
Defined.

(** *** Reconstruct after restart *)

(** The front-door embed carries the id of the storage message in its
    footer, in a form the reconstruction reads back. *)
Lemma to_spoiler_embed_pointer cache ctx storage_message :
  py_int (embed_footer_text (to_spoiler_embed cache ctx storage_message))
  = Return (message_id storage_message).
Proof.
  unfold to_spoiler_embed.
  destruct (has_single_image cache && negb (bool_decide (is_Some (text cache))))%bool;
    cbn [set_author set_footer embed_footer_text]; apply py_int_str.
Qed.

(** X2.  What [spoiler] published is found again by a process that has nothing
    cached: when Discord holds the front-door post and the storage message
    as they were sent, [get_spoiler_cache] on the id of the front-door post
    fetches the two messages and returns the record [redirect_post]
    returned, for a text that is absent or not empty. *)
Theorem reconstruct_after_restart env ctx title text s storage_message cache s1
    env' front storage channel s' :
  redirect_post env ctx title text s = (Return (storage_message, cache), s1) ->
  text <> Some "" ->
  embeds storage_message
    = [archive_embed (ctx_author_id ctx) (ctx_channel_id ctx) (Some title) text] ->
  embeds front = [to_spoiler_embed cache ctx storage_message] ->
  storage_channel env' = Some storage ->
  bot_get_channel env' (ctx_channel_id ctx) = Some channel ->
  channel_fetch_message env' channel (message_id front) = Return front ->
  channel_fetch_message env' storage (message_id storage_message) = Return storage_message ->
  LRU.peek (message_id front) (_spoiler_cache s') = None ->
  fst (get_spoiler_cache env' (ctx_channel_id ctx) (message_id front) s') = Return (Some cache)
  /\ trace (snd (get_spoiler_cache env' (ctx_channel_id ctx) (message_id front) s'))
     = (trace s' ++ [EvFetchMessage channel (message_id front);
                     EvFetchMessage storage (message_id storage_message);
                     EvCacheSet (message_id front)])%list.
Proof.
  intros Hrp Htext Harch Hfront Hst Hch Hf1 Hf2 Hmiss.
  destruct (redirect_post_returns _ _ _ _ _ _ _ _ Hrp) as [-> _].
  apply getitem_peek in Hmiss.
  pose proof (published_decodes ctx title text storage_message Harch Htext) as Hd.
  unfold get_spoiler_cache. run. rewrite Hmiss. simpl. rewrite Hst, Hch, Hf1. simpl.
  rewrite Hfront. cbn [index0].
  rewrite to_spoiler_embed_pointer. simpl. rewrite Hf2. simpl. rewrite Hd. simpl.
  split; [reflexivity|]. rewrite <- !app_assoc. reflexivity.
Qed.

Lemma reconstruct_after_restart_witness :
  fst (get_spoiler_cache env_restarted general_id 1000 Buttons_init) = Return (Some record_cat).
Proof.
  refine (proj1 (reconstruct_after_restart env_ok (ctx_with []) "cat" None Buttons_init
              (encode 7 record_cat) record_cat
              (log (EvChannelSend storage_id
                      (archive_embed danny_id general_id (Some "cat") None) [])
                 (log (delete_event (ctx_with [])) (log EvSleep Buttons_init)))
              env_restarted posted_front_door storage_id general_id Buttons_init
              _ _ _ _ _ _ _ _ _));
    first [reflexivity | discriminate].
Defined.

(** *** A failed reconstruction is not cached *)

(** A hit moves the entry and changes no value. *)
Lemma getitem_keeps_peek (k : Z) (c c' : LRU.t SpoilerCache) v :
  LRU.getitem k c = Some (v, c') ->
  LRU.capacity c' = LRU.capacity c
  /\ forall k', LRU.peek k' c' = LRU.peek k' c.
Proof.
  unfold LRU.getitem, LRU.peek.
  destruct (LRU.find k (LRU.items c)) as [v0|] eqn:Hf; [|discriminate].
  intros [= <- <-]. split; [reflexivity|]. intros k'. cbn.
  destruct (Z.eqb_spec k' k) as [->|Hne]; [symmetry; exact Hf|].
  clear Hf. induction (LRU.items c) as [|[k0 v1] l IH]; [reflexivity|].
  simpl. destruct (Z.eqb_spec k k0) as [->|Hne0].
  - destruct (Z.eqb_spec k' k0); [contradiction | exact IH].
  - simpl. destruct (Z.eqb_spec k' k0); [reflexivity | exact IH].
Qed.

(** X3.  [get_spoiler_cache] changes the cache contents in one case only:
    on a miss that ends with a record, which it stores under the id asked
    for.  A hit returns the cached record without any operation and
    leaves the value of every entry, the hit one included, and the
    capacity as they were.  A run that ends with [None] or raises leaves
    the cache as it was, so the next call for the same id goes to the
    remote side again.  The cooldown mapping is never touched. *)
Theorem reconstruct_cache_writes env channel_id message_id s r s' :
  get_spoiler_cache env channel_id message_id s = (r, s') ->
  _spoiler_cooldown s' = _spoiler_cooldown s
  /\ (forall cache, LRU.peek message_id (_spoiler_cache s) = Some cache ->
        r = Return (Some cache)
        /\ trace s' = trace s
        /\ LRU.capacity (_spoiler_cache s') = LRU.capacity (_spoiler_cache s)
        /\ forall k, LRU.peek k (_spoiler_cache s') = LRU.peek k (_spoiler_cache s))
  /\ (LRU.peek message_id (_spoiler_cache s) = None ->
        forall cache, r = Return (Some cache) ->
          _spoiler_cache s' = LRU.setitem message_id cache (_spoiler_cache s))
  /\ ((forall cache, r <> Return (Some cache)) ->
        _spoiler_cache s' = _spoiler_cache s
        /\ LRU.peek message_id (_spoiler_cache s) = None)
  /\ (forall cache, r = Return (Some cache) ->
        LRU.peek message_id (_spoiler_cache s) = Some cache
        \/ LRU.peek message_id (_spoiler_cache s) = None).
Proof.
  intros H. apply get_spoiler_cache_inv in H.
  destruct H as [cache c' Hget | Hget Hst | storage Hget Hst Hch
                 | storage channel e Hget Hst Hch Hf
                 | storage channel original e Hget Hst Hch Hf Hptr
                 | storage channel original embed pointer e Hget Hst Hch Hf Hi Hp Hf2
                 | storage channel original embed pointer message e Hget Hst Hch Hf Hi Hp Hf2 Hd
                 | storage channel original embed pointer message cache Hget Hst Hch Hf Hi Hp Hf2 Hd];
    cbn [trace log set_cache _spoiler_cooldown _spoiler_cache];
    (split; [reflexivity|]);
    try solve [ apply getitem_peek in Hget; rewrite Hget;
                split_and!; [ intros ? [=] | intros _ ? [=] | intros; split; reflexivity
                            | intros ? [=] ] ].
  - (* hit *)
    assert (Hp : LRU.peek message_id (_spoiler_cache s) = Some cache)
      by (apply getitem_peek_Some; eauto).
    destruct (getitem_keeps_peek _ _ _ _ Hget) as [Hcap Hpeek].
    rewrite Hp. split_and!.
    + intros cache' [= <-]. split_and!; auto.
    + discriminate.
    + intros Hno. exfalso. apply (Hno cache). reflexivity.
    + intros cache' [= <-]. left. reflexivity.
  - (* reconstructed on a miss *)
    apply getitem_peek in Hget. rewrite Hget. split_and!.
    + intros ? [=].
    + intros _ cache' [= <-]. reflexivity.
    + intros Hno. exfalso. apply (Hno cache). reflexivity.
    + intros cache' [= <-]. right. reflexivity.
Qed.

Lemma reconstruct_cache_writes_witness :
  fst (get_spoiler_cache env_no_embed general_id 1000 after_reconstruct)
  = Return (Some record_cat)
  /\ _spoiler_cache (snd (get_spoiler_cache env_no_embed general_id 1000 Buttons_init))
     = _spoiler_cache Buttons_init.
Proof.
  split.
  - destruct (reconstruct_cache_writes env_no_embed general_id 1000 after_reconstruct
                (fst (get_spoiler_cache env_no_embed general_id 1000 after_reconstruct))
                (snd (get_spoiler_cache env_no_embed general_id 1000 after_reconstruct))
                eq_refl) as (_ & H & _).
    exact (proj1 (H record_cat eq_refl)).
  - destruct (reconstruct_cache_writes env_no_embed general_id 1000 Buttons_init
                (fst (get_spoiler_cache env_no_embed general_id 1000 Buttons_init))
                (snd (get_spoiler_cache env_no_embed general_id 1000 Buttons_init))
                eq_refl) as (_ & _ & _ & H & _).
    apply H. intros cache. vm_compute. discriminate.
Defined.

(* ===================================================================== *)
(** ** The publish pipeline on any remote side *)
(* ===================================================================== *)

(** *** The attachment loop on any remote side *)

(** One round of the loop that returns either left the loop state as it
    was, or archived the attachment: its fetch was answered with status
    200, a readable [Content-Length] within what remains of the cap, and
    its content. *)
Lemma fetch_attachment_cases env a files total s c files1 total1 s1 :
  fetch_attachment env a (files, total) s = (Return (c, (files1, total1)), s1) ->
  (c = Next /\ files1 = files /\ total1 = total)
  \/ (exists cand,
        cand_attach cand = a /\ answers env cand
        /\ files1 = (files ++ [file_of cand])%list
        /\ total1 = total + cand_size cand
        /\ total1 <= max_mib).
Proof.
  unfold fetch_attachment. run.
  destruct (session_get env (url a)) as [resp|e] eqn:Hget; simpl; [|discriminate].
  destruct (Z.eqb_spec (status resp) 200) as [Hs|Hs]; simpl.
  2: { intros [= <- <- <- _]. left. auto. }
  destruct (header_content_length resp) as [n|e] eqn:Hn; simpl; [|discriminate].
  rewrite Z.gtb_ltb.
  destruct (Z.ltb_spec max_mib (total + n)) as [Hgt|Hle].
  { intros [= <- <- <- _]. left. auto. }
  destruct (read resp) as [fp|e] eqn:Hr; simpl; [|discriminate].
  intros H. right.
  exists {| cand_attach := a; cand_size := n; cand_body := fp |}.
  assert (Hans : answers env {| cand_attach := a; cand_size := n; cand_body := fp |}).
  { exists resp. simpl. auto. }
  destruct (total + n >=? max_mib); injection H as <- <- <- _;
    split_and!; auto.
Qed.

(** The files the loop collects, whatever the remote side answers: they
    come from attachments of the message, in their order, each one
    answered with status 200 and a declared length; the lengths add up to
    the loop's total, which stays within the cap. *)
Lemma for_chosen env atts :
  forall files total s files' total' s',
    for_ atts (fetch_attachment env) (files, total) s = (Return (files', total'), s') ->
    exists chosen,
      Forall (answers env) chosen
      /\ sublist (map cand_attach chosen) atts
      /\ files' = (files ++ map file_of chosen)%list
      /\ total' = total + total_size chosen
      /\ (total <= max_mib -> total' <= max_mib).
Proof.
  induction atts as [|a atts IH]; intros files total s files' total' s'.
  - simpl. unfold ret. intros [= <- <- _]. exists []. simpl.
    rewrite app_nil_r, Z.add_0_r. split_and!; auto; constructor.
  - cbn [for_]. unfold bind.
    destruct (fetch_attachment env a (files, total) s) as [[[c [files1 total1]]|e] s1] eqn:Hf;
      [|discriminate].
    apply fetch_attachment_cases in Hf.
    destruct Hf as [(-> & -> & ->) | (cand & Ha & Hans & -> & -> & Hcap)].
    + intros H. apply IH in H as (chosen & H1 & H2 & H3 & H4 & H5).
      exists chosen. split_and!; auto. apply sublist_cons. exact H2.
    + assert (Hrest : forall files' total' chosen,
                Forall (answers env) chosen ->
                sublist (map cand_attach chosen) atts ->
                files' = ((files ++ [file_of cand]) ++ map file_of chosen)%list ->
                total' = total + cand_size cand + total_size chosen ->
                (total + cand_size cand <= max_mib -> total' <= max_mib) ->
                exists chosen0,
                  Forall (answers env) chosen0
                  /\ sublist (map cand_attach chosen0) (a :: atts)
                  /\ files' = (files ++ map file_of chosen0)%list
                  /\ total' = total + total_size chosen0
                  /\ (total <= max_mib -> total' <= max_mib)).
      { intros f t chosen H1 H2 H3 H4 H5. exists (cand :: chosen). split_and!.
        - constructor; assumption.
        - cbn [map]. rewrite Ha. apply sublist_skip. exact H2.
        - rewrite H3, <- app_assoc. reflexivity.
        - rewrite H4. cbn [total_size fold_right]. fold (total_size chosen). lia.
        - intros _. apply H5. exact Hcap. }
      destruct c.
      * intros H. apply IH in H as (chosen & H1 & H2 & H3 & H4 & H5).
        eapply Hrest; eauto.
      * unfold ret. intros [= <- <- _].
        apply (Hrest _ _ []); simpl; auto.
        -- apply sublist_nil_l.
        -- rewrite app_nil_r. reflexivity.
        -- lia.
Qed.

(** Appended events are determined by the two traces. *)
Lemma trace_app_inv (s : Buttons) evs evs' :
  (trace s ++ evs)%list = (trace s ++ evs')%list -> evs = evs'.
Proof. apply app_inv_head. Qed.

(** X4.  Whatever the remote side answers, the files of an archive write that
    [redirect_post] issues come from attachments of the original message,
    in their order, each fetched with status 200, and their declared
    lengths add up to at most 25 MiB. *)
Theorem archive_files_within_cap env ctx title text s r s' evs storage data files :
  redirect_post env ctx title text s = (r, s') ->
  trace s' = (trace s ++ evs)%list ->
  In (EvChannelSend storage data files) evs ->
  exists chosen,
    Forall (answers env) chosen
    /\ sublist (map cand_attach chosen) (ctx_message_attachments ctx)
    /\ files = map file_of chosen
    /\ total_size chosen <= max_mib.
Proof.
  intros Hrp Htr Hin.
  destruct (redirect_post_cases env ctx title text s) as [n Hc]. cbv zeta in Hc.
  assert (Hnf : forall l, ~ In (EvChannelSend storage data files) (map fetch_event l)).
  { intros l Hl. apply in_map_iff in Hl as (a & Ha & _). discriminate Ha. }
  destruct Hc as [[e He] | [(e & files0 & total & _ & _ & He)
                            | (st & files0 & total & _ & Hloop & _ & He)]];
    rewrite He in Hrp; injection Hrp as <- <-; cbn [trace log logs] in Htr.
  - apply trace_app_inv in Htr. subst evs. exfalso. eapply Hnf, Hin.
  - rewrite <- !app_assoc in Htr. apply trace_app_inv in Htr. subst evs.
    apply in_app_or in Hin as [Hin|Hin]; [exfalso; eapply Hnf, Hin|].
    simpl in Hin. destruct Hin as [Hin|[Hin|[]]]; discriminate Hin.
  - rewrite <- !app_assoc in Htr. apply trace_app_inv in Htr. subst evs.
    apply in_app_or in Hin as [Hin|Hin]; [exfalso; eapply Hnf, Hin|].
    simpl in Hin. destruct Hin as [Hin|[Hin|[Hin|[]]]]; try discriminate Hin.
    injection Hin as _ _ <-.
    apply for_chosen in Hloop as (chosen & H1 & H2 & H3 & H4 & H5).
    exists chosen. split_and!; auto. rewrite H4 in H5. apply H5. unfold max_mib. lia.
Qed.

Lemma archive_files_within_cap_witness :
  exists chosen,
    sublist (map cand_attach chosen) (map cand_attach three_images)
    /\ map file_of (firstn 2 three_images) = map file_of chosen
    /\ total_size chosen <= max_mib.
Proof.
  pose (env := env_serving three_images (Return tt) (Return (encode 7 record_cat))).
  pose (ctx := ctx_with (map cand_attach three_images)).
  destruct (archive_files_within_cap env ctx "cat" None Buttons_init
              (fst (redirect_post env ctx "cat" None Buttons_init))
              (snd (redirect_post env ctx "cat" None Buttons_init))
              (skipn 0 (trace (snd (redirect_post env ctx "cat" None Buttons_init))))
              storage_id (archive_embed danny_id general_id (Some "cat") None)
              (map file_of (firstn 2 three_images)))
    as (chosen & _ & H2 & H3 & H4).
  - reflexivity.
  - reflexivity.
  - vm_compute. do 5 right. left. reflexivity.
  - exists chosen. split_and!; assumption.
Defined.

(** *** The order of the publish pipeline *)

(** X5.  Every run of [redirect_post] fetches a prefix of the attachments, then
    either has raised, or sleeps and issues the deletion of the original
    message; the archive write is issued only once the deletion returned,
    and the run returns only if the archive write returned.  The run never
    touches the cache or the cooldown mapping. *)
Theorem publish_order env ctx title text s r s' :
  redirect_post env ctx title text s = (r, s') ->
  let data := archive_embed (ctx_author_id ctx) (ctx_channel_id ctx) (Some title) text in
  _spoiler_cache s' = _spoiler_cache s
  /\ _spoiler_cooldown s' = _spoiler_cooldown s
  /\ exists n tail,
       trace s'
       = (trace s ++ map fetch_event (firstn n (ctx_message_attachments ctx)) ++ tail)%list
       /\ ((tail = [] /\ exists e, r = Raise e)
           \/ (tail = [EvSleep; delete_event ctx]
               /\ exists e,
                    message_delete env (ctx_channel_id ctx) (ctx_message_id ctx) = Raise e
                    /\ r = Raise e)
           \/ (exists storage files,
                 tail = [EvSleep; delete_event ctx; EvChannelSend storage data files]
                 /\ storage_channel env = Some storage
                 /\ message_delete env (ctx_channel_id ctx) (ctx_message_id ctx) = Return tt
                 /\ r = match channel_send env storage data files with
                        | Raise e => Raise (store_error e)
                        | Return message =>
                            Return (message, published ctx title text message)
                        end)).
Proof.
  intros Hrp data.
  pose proof (redirect_post_keeps_state env ctx title text s) as [Hk1 Hk2].
  rewrite Hrp in Hk1, Hk2. simpl in Hk1, Hk2. split_and!; [exact Hk1 | exact Hk2 |].
  destruct (redirect_post_cases env ctx title text s) as [n Hc]. cbv zeta in Hc.
  exists n.
  destruct Hc as [[e He] | [(e & files0 & total & _ & Hdel & He)
                            | (st & files0 & total & Hst & _ & Hdel & He)]];
    rewrite He in Hrp; injection Hrp as <- <-; cbn [trace log logs].
  - exists []. split; [rewrite app_nil_r; reflexivity|]. left. eauto.
  - exists [EvSleep; delete_event ctx]. split; [rewrite <- !app_assoc; reflexivity|].
    right. left. eauto.
  - exists [EvSleep; delete_event ctx; EvChannelSend st data files0].
    split; [rewrite <- !app_assoc; reflexivity|].
    right. right. exists st, files0. split_and!; auto.
Qed.

Lemma publish_order_witness :
  let env := env_serving three_images (Raise server_error) (Return (encode 7 record_cat)) in
  let ctx := ctx_with (map cand_attach three_images) in
  _spoiler_cache (snd (redirect_post env ctx "cat" None Buttons_init))
  = _spoiler_cache Buttons_init.
Proof.
  intros env ctx.
  exact (proj1 (publish_order env ctx "cat" None Buttons_init
                  (fst (redirect_post env ctx "cat" None Buttons_init))
                  (snd (redirect_post env ctx "cat" None Buttons_init)) eq_refl)).
Defined.

(* ===================================================================== *)
(** ** What the handlers answer *)
(* ===================================================================== *)

(** *** The spoiler command and the cache *)

Lemma filter_cache_write_fetches l :
  List.filter is_cache_write (map fetch_event l) = [].
Proof. induction l; simpl; auto. Qed.

(** What [redirect_post] appends to the trace holds no cache write. *)
Lemma redirect_post_no_cache_write env ctx title text s :
  exists evs,
    trace (snd (redirect_post env ctx title text s)) = (trace s ++ evs)%list
    /\ List.filter is_cache_write evs = [].
Proof.
  destruct (redirect_post_cases env ctx title text s) as [n Hc]. cbv zeta in Hc.
  destruct Hc as [[e He] | [(e & files0 & total & _ & _ & He)
                            | (st & files0 & total & _ & _ & _ & He)]];
    rewrite He; cbn [snd trace log logs]; rewrite <- ?app_assoc;
    eexists; (split; [reflexivity|]);
    rewrite ?List.filter_app, filter_cache_write_fetches; reflexivity.
Qed.

(** X6.  The [spoiler] command writes to the cache at the end of a
    successful publish only.  A title of more than 100 characters is
    refused with one message and nothing else happens; a title of up to
    100 characters, 100 included, is accepted.  For such a title: when
    [redirect_post] raises, the text of the exception is sent and the
    cache is left as it was; when it returns and the front-door post
    cannot be sent, that exception escapes and the cache is left as it
    was; when the front-door post is sent, the record [redirect_post]
    returned is stored under the id of the front-door post, as the last
    operation.  The cooldown mapping is never touched. *)
Theorem spoiler_cache_discipline env ctx title text s r s' :
  spoiler env ctx title text s = (r, s') ->
  _spoiler_cooldown s' = _spoiler_cooldown s
  /\ ((100 < String.length title)%nat ->
        r = ctx_send_unit
              (ctx_send env (Some "Sorry. Title has to be shorter than 100 characters.") None)
        /\ s' = log (EvCtxSend (Some "Sorry. Title has to be shorter than 100 characters.")
                       None) s)
  /\ ((String.length title <= 100)%nat ->
        forall e s1,
          redirect_post env ctx title text s = (Raise e, s1) ->
          r = ctx_send_unit (ctx_send env (Some (exn_str e)) None)
          /\ s' = log (EvCtxSend (Some (exn_str e)) None) s1
          /\ _spoiler_cache s' = _spoiler_cache s)
  /\ ((String.length title <= 100)%nat ->
        forall storage_message cache s1,
          redirect_post env ctx title text s = (Return (storage_message, cache), s1) ->
          let embed := to_spoiler_embed cache ctx storage_message in
          cache = published ctx title text storage_message
          /\ (forall e, ctx_send env None (Some embed) = Raise e ->
                r = Raise e
                /\ s' = log (EvCtxSend None (Some embed)) s1
                /\ _spoiler_cache s' = _spoiler_cache s)
          /\ (forall front, ctx_send env None (Some embed) = Return front ->
                r = Return tt
                /\ s' = log (EvCacheSet (message_id front))
                          (set_cache (LRU.setitem (message_id front) cache (_spoiler_cache s))
                             (log (EvCtxSend None (Some embed)) s1))))
  /\ exists evs,
       trace s' = (trace s ++ evs)%list
       /\ ((_spoiler_cache s' = _spoiler_cache s /\ List.filter is_cache_write evs = [])
           \/ (exists storage_message front s1,
                 let cache := published ctx title text storage_message in
                 (String.length title <= 100)%nat
                 /\ redirect_post env ctx title text s = (Return (storage_message, cache), s1)
                 /\ ctx_send env None (Some (to_spoiler_embed cache ctx storage_message))
                    = Return front
                 /\ r = Return tt
                 /\ _spoiler_cache s'
                    = LRU.setitem (message_id front) cache (_spoiler_cache s)
                 /\ List.filter is_cache_write evs = [EvCacheSet (message_id front)]
                 /\ last evs = Some (EvCacheSet (message_id front)))).
Proof.
  intros H. unfold spoiler in H.
  destruct (Nat.ltb_spec 100 (String.length title)) as [Hlt|Hle].
  { run. destruct (ctx_send env _ None) as [m|e] eqn:Hs; injection H as <- <-;
      (split_and!;
       [reflexivity | intros _; split; reflexivity | intros; lia | intros; lia |]);
      (eexists [_]; split; [reflexivity|]); left; split; reflexivity. }
  pose proof (redirect_post_keeps_state env ctx title text s) as [Hk1 Hk2].
  destruct (redirect_post_no_cache_write env ctx title text s) as (evs1 & Ht1 & Hf1).
  run. destruct (redirect_post env ctx title text s) as [[[m c]|e] s1] eqn:Hrp;
    simpl in H, Hk1, Hk2, Ht1.
  - destruct (redirect_post_returns _ _ _ _ _ _ _ _ Hrp) as [-> _].
    destruct (ctx_send env None _) as [front|e] eqn:Hs; injection H as <- <-;
      cbn [log set_cache _spoiler_cooldown _spoiler_cache trace].
    + split_and!; [exact Hk2 | intros; lia | intros _ ? ? [=] | |].
      * intros _ m' c' s1' [= <- <- <-]. cbv zeta. split_and!; [reflexivity | |].
        -- intros e He. rewrite Hs in He. discriminate He.
        -- intros front' Hf. rewrite Hs in Hf. injection Hf as <-.
           split; [reflexivity|]. unfold log, set_cache. cbn. rewrite Hk1. reflexivity.
      * exists (evs1 ++ [EvCtxSend None
                           (Some (to_spoiler_embed (published ctx title text m) ctx m));
                         EvCacheSet (message_id front)])%list.
        split; [rewrite Ht1, <- !app_assoc; reflexivity|].
        right. exists m, front, s1. cbv zeta. split_and!; auto.
        -- rewrite Hk1. reflexivity.
        -- rewrite List.filter_app, Hf1. reflexivity.
        -- rewrite last_app. reflexivity.
    + split_and!; [exact Hk2 | intros; lia | intros _ ? ? [=] | |].
      * intros _ m' c' s1' [= <- <- <-]. cbv zeta. split_and!; [reflexivity | |].
        -- intros e' He. rewrite Hs in He. injection He as <-.
           split_and!; [reflexivity | reflexivity | exact Hk1].
        -- intros front' Hf. rewrite Hs in Hf. discriminate Hf.
      * exists (evs1 ++ [EvCtxSend None
                           (Some (to_spoiler_embed (published ctx title text m) ctx m))])%list.
        split; [rewrite Ht1, <- !app_assoc; reflexivity|].
        left. split; [exact Hk1|]. rewrite List.filter_app, Hf1. reflexivity.
  - destruct (ctx_send env (Some (exn_str e)) None) as [m|e'] eqn:Hs; injection H as <- <-;
      cbn [log set_cache _spoiler_cooldown _spoiler_cache trace];
      (split_and!;
       [ exact Hk2 | intros; lia
       | intros _ e0 s10 [= <- <-]; rewrite Hs; split_and!; [reflexivity | reflexivity | exact Hk1]
       | intros _ ? ? ? [=] |]);
      (exists (evs1 ++ [EvCtxSend (Some (exn_str e)) None])%list);
      (split; [rewrite Ht1, <- !app_assoc; reflexivity|]);
      left; (split; [exact Hk1|]); rewrite List.filter_app, Hf1; reflexivity.
Qed.

Lemma spoiler_cache_discipline_witness :
  String.length title_100 = 100%nat
  /\ LRU.peek 1000
       (_spoiler_cache (snd (spoiler env_ok (ctx_with []) title_100 None Buttons_init)))
     = Some (published (ctx_with []) title_100 None (encode 7 record_cat)).
Proof.
  split; [reflexivity|].
  destruct (spoiler_cache_discipline env_ok (ctx_with []) title_100 None Buttons_init
              (fst (spoiler env_ok (ctx_with []) title_100 None Buttons_init))
              (snd (spoiler env_ok (ctx_with []) title_100 None Buttons_init))
              eq_refl) as (_ & _ & _ & H & _).
  assert (Hlen : (String.length title_100 <= 100)%nat) by (vm_compute; lia).
  destruct (H Hlen (encode 7 record_cat)
              (published (ctx_with []) title_100 None (encode 7 record_cat))
              (log (EvChannelSend storage_id
                      (archive_embed danny_id general_id (Some title_100) None) [])
                 (log (delete_event (ctx_with [])) (log EvSleep Buttons_init)))
              eq_refl) as (_ & _ & Hfront).
  destruct (Hfront (front_door 1000 "7") eq_refl) as [_ ->].
  reflexivity.
Defined.

(** *** The reaction handler and the limiter *)

(** X7.  A reaction with another emoji is ignored altogether.  A reaction
    with the spoiler emoji is charged to the limiter first: whatever
    happens next, the cooldown mapping is the one [is_rate_limited] left.
    When the limiter refuses, nothing else happens.  Otherwise the user is
    taken from the cache of users or, when not there, fetched, and an
    exception of that fetch escapes; a bot user, cached or fetched, gets
    nothing: no message is fetched and nothing is sent; for any other
    user the handler goes on to reconstruct the record and to deliver
    it. *)
Theorem reaction_charges_limiter env payload s :
  (payload_emoji_id payload <> Some SPOILER_EMOJI_ID ->
     on_raw_reaction_add env payload s = (Return tt, s))
  /\ (payload_emoji_id payload = Some SPOILER_EMOJI_ID ->
        let charged :=
          is_rate_limited (time_time env) (payload_message_id payload)
            (payload_user_id payload) (_spoiler_cooldown s) in
        let s0 := set_cooldown (snd charged) s in
        let s1 := log (EvFetchUser (payload_user_id payload)) s0 in
        _spoiler_cooldown (snd (on_raw_reaction_add env payload s)) = snd charged
        /\ (fst charged = true -> on_raw_reaction_add env payload s = (Return tt, s0))
        /\ (forall user,
              fst charged = false ->
              bot_get_user env (payload_user_id payload) = Some user ->
              on_raw_reaction_add env payload s
              = if user_bot user then (Return tt, s0) else deliver env payload s0)
        /\ (forall e,
              fst charged = false ->
              bot_get_user env (payload_user_id payload) = None ->
              bot_fetch_user env (payload_user_id payload) = Raise e ->
              on_raw_reaction_add env payload s = (Raise e, s1))
        /\ (forall user,
              fst charged = false ->
              bot_get_user env (payload_user_id payload) = None ->
              bot_fetch_user env (payload_user_id payload) = Return user ->
              on_raw_reaction_add env payload s
              = if user_bot user then (Return tt, s1) else deliver env payload s1)).
Proof.
  split.
  - intros Hne. unfold on_raw_reaction_add.
    rewrite bool_decide_eq_false_2 by exact Hne. reflexivity.
  - intros Heq. cbv zeta.
    unfold on_raw_reaction_add, deliver.
    rewrite bool_decide_eq_true_2 by exact Heq. cbn [negb].
    unfold spoiler_cooldown_is_rate_limited, bind, ret, await. cbv beta.
    destruct (is_rate_limited (time_time env) (payload_message_id payload)
                (payload_user_id payload) (_spoiler_cooldown s)) as [limited m].
    cbn [fst snd].
    split_and!.
    + destruct limited; [reflexivity|].
      destruct (bot_get_user env (payload_user_id payload)) as [u|].
      * destruct (user_bot u); [reflexivity|].
        pose proof (get_spoiler_cache_keeps_cooldown env (payload_channel_id payload)
                      (payload_message_id payload) (set_cooldown m s)) as Hk.
        destruct (get_spoiler_cache env _ _ (set_cooldown m s)) as [[[c|]|e] s1];
          simpl in Hk |- *; exact Hk.
      * destruct (bot_fetch_user env (payload_user_id payload)) as [u|e]; [|reflexivity].
        destruct (user_bot u); [reflexivity|].
        pose proof (get_spoiler_cache_keeps_cooldown env (payload_channel_id payload)
                      (payload_message_id payload)
                      (log (EvFetchUser (payload_user_id payload)) (set_cooldown m s))) as Hk.
        destruct (get_spoiler_cache env _ _ (log _ (set_cooldown m s))) as [[[c|]|e] s1];
          simpl in Hk |- *; exact Hk.
    + intros ->. reflexivity.
    + intros user -> Hu. rewrite Hu. destruct (user_bot user); reflexivity.
    + intros e -> Hu Hf. rewrite Hu, Hf. reflexivity.
    + intros user -> Hu Hf. rewrite Hu, Hf. destruct (user_bot user); reflexivity.
Qed.

Lemma reaction_charges_limiter_witness :
  let run := on_raw_reaction_add (env_of_user None (Return a_bot)) (reaction 1000 5)
               Buttons_init in
  fst run = Return tt /\ trace (snd run) = [EvFetchUser 5].
Proof.
  cbv zeta.
  destruct (proj2 (reaction_charges_limiter (env_of_user None (Return a_bot))
                     (reaction 1000 5) Buttons_init) eq_refl) as (_ & _ & _ & _ & H).
  rewrite (H a_bot eq_refl eq_refl eq_refl). split; reflexivity.
Defined.

(** *** One response per button press *)

Lemma filter_response_fetch_cache evs :
  Forall (fun ev => is_fetch ev || is_cache_write ev = true) evs ->
  List.filter is_response evs = [].
Proof.
  induction 1 as [|ev evs Hev _ IH]; [reflexivity|].
  simpl. rewrite IH. destruct ev; simpl in *; try reflexivity; discriminate.
Qed.

(** What a run of [get_spoiler_cache] appends to the trace: fetches and
    cache writes. *)
Lemma get_spoiler_cache_events env ch mid s :
  exists evs,
    trace (snd (get_spoiler_cache env ch mid s)) = (trace s ++ evs)%list
    /\ Forall (fun ev => is_fetch ev || is_cache_write ev = true) evs.
Proof.
  destruct (get_spoiler_cache_outcome env ch mid s);
    cbn [trace log set_cache]; rewrite <- ?app_assoc;
    first [ exists []; split; [rewrite app_nil_r; reflexivity | constructor]
          | eexists; split; [reflexivity | repeat constructor] ].
Qed.

(** X8.  A press of the reveal button is answered exactly once, as the
    last operation of the handler, whenever the reconstruction returns:
    with the rendering of the record [get_spoiler_cache] returned when
    there is one, with the not-found text when it returned [None]; the
    outcome of the handler is the outcome of that response.  Before the
    response the handler performs the operations of [get_spoiler_cache]
    and no other, none of them a response.  When [get_spoiler_cache]
    raises, the press gets no response and the exception escapes; it is
    an exception of the decode step on the storage message that was
    fetched. *)
Theorem reveal_responds_once env interaction s r s' :
  reveal_spoiler env interaction s = (r, s') ->
  let found := get_spoiler_cache env (interaction_channel_id interaction)
                 (interaction_message_id interaction) s in
  (exists evs,
     trace (snd found) = (trace s ++ evs)%list
     /\ List.filter is_response evs = [])
  /\ (forall cache, fst found = Return (Some cache) ->
        let embed := to_embed cache (bot_get_user env (author_id cache)) in
        r = interaction_send env None (Some embed)
        /\ s' = log (EvInteractionSend None (Some embed)) (snd found))
  /\ (fst found = Return None ->
        r = interaction_send env (Some "Could not find this message in storage") None
        /\ s' = log (EvInteractionSend (Some "Could not find this message in storage") None)
                  (snd found))
  /\ (forall e, fst found = Raise e ->
        r = Raise e /\ s' = snd found
        /\ exists storage pointer message,
             storage_channel env = Some storage
             /\ channel_fetch_message env storage pointer = Return message
             /\ decode message = Raise e).
Proof.
  intros H found. unfold reveal_spoiler, bind in H.
  destruct (get_spoiler_cache_events env (interaction_channel_id interaction)
              (interaction_message_id interaction) s) as (evs & Ht & Hev).
  apply filter_response_fetch_cache in Hev.
  pose proof (get_spoiler_cache_outcome env (interaction_channel_id interaction)
                (interaction_message_id interaction) s) as Hout.
  subst found.
  destruct (get_spoiler_cache env (interaction_channel_id interaction)
              (interaction_message_id interaction) s) as [[[c|]|e] s1];
    cbn [fst snd] in *; unfold await in H; injection H as <- <-;
    (split; [exists evs; split; assumption|]); split_and!.
  - intros cache [= <-]. cbv zeta. split; reflexivity.
  - intros [=].
  - intros e [=].
  - intros cache [=].
  - intros _. split; reflexivity.
  - intros e [=].
  - intros cache [=].
  - intros [=].
  - intros e' [= <-]. split_and!; [reflexivity | reflexivity |].
    inversion Hout; subst. do 3 eexists. split_and!; eassumption.
Qed.

Lemma reveal_responds_once_witness :
  reveal_spoiler env_ok {| interaction_channel_id := general_id;
                           interaction_message_id := 1000 |} Buttons_init
  = (Return tt,
     logs [EvFetchMessage general_id 1000; EvFetchMessage storage_id 7; EvCacheSet 1000;
           EvInteractionSend None (Some (to_embed record_cat None))]
       (set_cache (LRU.Make 128 [(1000, record_cat)]) Buttons_init)).
Proof.
  destruct (reveal_responds_once env_ok {| interaction_channel_id := general_id;
                                          interaction_message_id := 1000 |} Buttons_init
              (fst (reveal_spoiler env_ok {| interaction_channel_id := general_id;
                                             interaction_message_id := 1000 |} Buttons_init))
              (snd (reveal_spoiler env_ok {| interaction_channel_id := general_id;
                                             interaction_message_id := 1000 |} Buttons_init))
              eq_refl) as (_ & H & _).
  destruct (H record_cat eq_refl) as [Hr Hs].
  rewrite (surjective_pairing (reveal_spoiler env_ok _ Buttons_init)), Hr, Hs.
  reflexivity.
Defined.

(* ===================================================================== *)
(** ** Renderings, and the limiter over the process lifetime *)
(* ===================================================================== *)

(** *** The two renderings of a record *)

(** X9.  The front-door embed and the revealed embed of a record carry the
    same title, whoever the author and whatever the storage message: the
    title of the record followed by " Spoiler Image" when the first
    attachment is an image by its file name and the record has no text,
    and by " Spoiler" in every other case. *)
Theorem renderings_agree_on_title (r : SpoilerCache) (user : option User) (ctx : Context)
    (storage_message : Message) :
  embed_title (to_embed r user) = embed_title (to_spoiler_embed r ctx storage_message)
  /\ (first_is_image r -> text r = None ->
        embed_title (to_embed r user) = Some (fmt (title r) ++ " Spoiler Image"))
  /\ (~ first_is_image r \/ text r <> None ->
        embed_title (to_embed r user) = Some (fmt (title r) ++ " Spoiler")).
Proof.
  assert (Himg : has_single_image r = true <-> first_is_image r).
  { unfold has_single_image, first_is_image. destruct (attachments r) as [|a rest].
    - split; [discriminate | intros (a & rest & [=] & _)].
    - split; [eauto | intros (a' & rest' & [= <- <-] & H); exact H]. }
  assert (Htitle : embed_title (to_embed r user)
                   = Some (fmt (title r)
                           ++ (if has_single_image r && negb (bool_decide (is_Some (text r)))
                               then " Spoiler Image" else " Spoiler"))).
  { unfold to_embed.
    destruct (has_single_image r) eqn:Hs; destruct (text r) as [t|] eqn:Ht; cbn [andb negb];
      try rewrite (bool_decide_eq_true_2 (is_Some (Some t))) by eauto;
      try rewrite (bool_decide_eq_false_2 (is_Some (@None string)))
        by (intros [? [=]]);
      cbn [negb]; unfold truthy;
      repeat match goal with
             | |- context [if ?b then _ else _] => destruct b
             | |- context [match ?l with [] => _ | _ :: _ => _ end] => destruct l
             | |- context [match user with Some _ => _ | None => _ end] => destruct user
             end; reflexivity. }
  split_and!.
  - rewrite Htitle. unfold to_spoiler_embed.
    destruct (has_single_image r && negb (bool_decide (is_Some (text r))))%bool; reflexivity.
  - intros Hi Ht. rewrite Htitle, (proj2 Himg Hi), Ht.
    rewrite bool_decide_eq_false_2 by (intros [? [=]]). reflexivity.
  - intros Hno. rewrite Htitle. destruct Hno as [Hno|Hno].
    + destruct (has_single_image r) eqn:Hs; [|reflexivity].
      exfalso. apply Hno, Himg. reflexivity.
    + destruct (text r) as [t|]; [|congruence].
      rewrite (bool_decide_eq_true_2 (is_Some (Some t))) by eauto.
      rewrite andb_false_r. reflexivity.
Qed.

Lemma renderings_agree_on_title_witness :
  embed_title (to_spoiler_embed record_cat (ctx_with []) (encode 7 record_cat))
  = Some "cat Spoiler Image"
  /\ embed_title (to_embed record_text None) = Some "cat Spoiler".
Proof.
  split.
  - destruct (renderings_agree_on_title record_cat None (ctx_with []) (encode 7 record_cat))
      as (H1 & H2 & _).
    rewrite <- H1. apply H2; [|reflexivity].
    exists img, []. split; reflexivity.
  - apply (proj2 (proj2 (renderings_agree_on_title record_text None (ctx_with [])
                           (encode 7 record_cat)))).
    right. discriminate.
Defined.

(** X10.  An attachment that is shown as the image of the revealed embed has a
    type the publish pipeline accepts: [has_single_image] implies that the
    first attachment passes the type check of [redirect_post], and the
    image of the embed is that attachment. *)
Theorem image_is_supported (r : SpoilerCache) (user : option User) :
  has_single_image r = true ->
  exists a rest,
    attachments r = a :: rest
    /\ supported a = true
    /\ embed_image_url (to_embed r user) = Some (url a).
Proof.
  intros H. pose proof H as H0. unfold has_single_image in H.
  destruct (attachments r) as [|a rest] eqn:Ha; [discriminate|].
  exists a, rest. split_and!; [reflexivity | |].
  - unfold supported, supported_attachments, Py.endswith_any in *.
    cbn [existsb] in *.
    repeat match type of H with
           | (?b || _)%bool = true => destruct b; [rewrite ?orb_true_r; reflexivity|];
                                      cbn [orb] in H
           end.
    discriminate.
  - unfold to_embed. rewrite H0, Ha. cbn [tail].
    destruct (truthy (text r)); destruct (text r); destruct rest; destruct user; reflexivity.
Qed.

Lemma image_is_supported_witness :
  exists a rest,
    attachments record_cat = a :: rest /\ supported a = true
    /\ embed_image_url (to_embed record_cat None) = Some (url a).
Proof. exact (image_is_supported record_cat None eq_refl). Defined.

(** *** The limiter over the process lifetime *)

Lemma spoiler_keeps_cooldown env ctx title text s :
  _spoiler_cooldown (snd (spoiler env ctx title text s)) = _spoiler_cooldown s.
Proof.
  unfold spoiler. destruct (100 <? String.length title)%nat.
  { run. destruct (ctx_send env _ None); reflexivity. }
  pose proof (redirect_post_keeps_state env ctx title text s) as [_ Hk].
  run. destruct (redirect_post env ctx title text s) as [[[m c]|e] s1]; simpl in Hk |- *.
  - destruct (ctx_send env None _); exact Hk.
  - destruct (ctx_send env (Some (exn_str e)) None); exact Hk.
Qed.

Lemma on_raw_reaction_add_cooldown env payload s :
  _spoiler_cooldown (snd (on_raw_reaction_add env payload s))
  = if bool_decide (payload_emoji_id payload = Some SPOILER_EMOJI_ID)
    then snd (is_rate_limited (time_time env) (payload_message_id payload)
                (payload_user_id payload) (_spoiler_cooldown s))
    else _spoiler_cooldown s.
Proof.
  unfold on_raw_reaction_add.
  destruct (bool_decide (payload_emoji_id payload = Some SPOILER_EMOJI_ID)); [|reflexivity].
  cbn [negb]. unfold spoiler_cooldown_is_rate_limited, bind, ret, await. cbv beta.
  destruct (is_rate_limited (time_time env) (payload_message_id payload)
              (payload_user_id payload) (_spoiler_cooldown s)) as [limited m].
  cbn [fst snd]. destruct limited; [reflexivity|].
  destruct (bot_get_user env (payload_user_id payload)) as [u|].
  - destruct (user_bot u); [reflexivity|].
    pose proof (get_spoiler_cache_keeps_cooldown env (payload_channel_id payload)
                  (payload_message_id payload) (set_cooldown m s)) as Hk.
    destruct (get_spoiler_cache env _ _ (set_cooldown m s)) as [[[c|]|e] s1];
      simpl in Hk |- *; exact Hk.
  - destruct (bot_fetch_user env (payload_user_id payload)) as [u|e]; [|reflexivity].
    destruct (user_bot u); [reflexivity|].
    pose proof (get_spoiler_cache_keeps_cooldown env (payload_channel_id payload)
                  (payload_message_id payload)
                  (log (EvFetchUser (payload_user_id payload)) (set_cooldown m s))) as Hk.
    destruct (get_spoiler_cache env _ _ (log _ (set_cooldown m s))) as [[[c|]|e] s1];
      simpl in Hk |- *; exact Hk.
Qed.

Lemma cooldown_inv_bucket_of key m :
  cooldown_inv m ->
  let b := bucket_of key m in
  Cooldowns.rate b = 1 /\ Cooldowns.per b = 10%Q /\ 0 <= Cooldowns.tokens b <= 1.
Proof.
  intros [Hc Hb]. unfold bucket_of.
  destruct (Cooldowns.cache m !! key) as [b|] eqn:E; simpl.
  - apply (Hb key b E).
  - rewrite Hc. simpl. split_and!; auto; lia.
Qed.

Lemma update_rate_limit_inv now b :
  Cooldowns.rate b = 1 -> Cooldowns.per b = 10%Q -> 0 <= Cooldowns.tokens b <= 1 ->
  let b' := snd (Cooldowns.update_rate_limit now b) in
  Cooldowns.rate b' = 1 /\ Cooldowns.per b' = 10%Q /\ 0 <= Cooldowns.tokens b' <= 1.
Proof.
  intros Hr Hp Ht. unfold Cooldowns.update_rate_limit, Cooldowns.get_tokens.
  destruct (Qle_bool (Cooldowns.window b + Cooldowns.per b) now);
    destruct (Z.ltb_spec 0 (Cooldowns.rate b)); destruct (Z.ltb_spec 0 (Cooldowns.tokens b));
    simpl; split_and!; auto; lia.
Qed.

Lemma is_rate_limited_inv now message user m :
  cooldown_inv m -> cooldown_inv (snd (is_rate_limited now message user m)).
Proof.
  intros Hinv. rewrite is_rate_limited_eq. cbn [snd].
  pose proof (cooldown_inv_bucket_of (message, user) m Hinv) as (H1 & H2 & H3).
  pose proof (update_rate_limit_inv now _ H1 H2 H3) as Hb'.
  destruct Hinv as [Hc Hb]. split; [exact Hc|].
  intros key b. unfold Cooldowns.set_bucket. cbn [Cooldowns.cache].
  destruct (decide (key = (message, user))) as [->|Hne].
  - rewrite lookup_insert_eq. intros [= <-]. exact Hb'.
  - rewrite lookup_insert_ne by congruence. apply Hb.
Qed.

(** X11.  In every state the cog reaches, the limiter is still the one
    [__init__] built: the original cooldown is one token per ten seconds
    and so is every bucket created since, with zero or one token left.
    So a user who has no bucket yet for a post is never refused. *)
Theorem limiter_invariant s :
  reachable s ->
  cooldown_inv (_spoiler_cooldown s)
  /\ forall now message user,
       Cooldowns.cache (_spoiler_cooldown s) !! (message, user) = None ->
       fst (is_rate_limited now message user (_spoiler_cooldown s)) = false.
Proof.
  intros Hr.
  assert (Hinv : cooldown_inv (_spoiler_cooldown s)).
  { induction Hr as [|env ctx title text s Hr IH|env i s Hr IH|env p s Hr IH].
    - split; [reflexivity|]. intros key b H. simpl in H. rewrite lookup_empty in H.
      discriminate.
    - rewrite spoiler_keeps_cooldown. exact IH.
    - rewrite reveal_spoiler_keeps_cooldown. exact IH.
    - rewrite on_raw_reaction_add_cooldown.
      destruct (bool_decide _); [apply is_rate_limited_inv|]; exact IH. }
  split; [exact Hinv|].
  intros now message user Hnone. rewrite is_rate_limited_eq. cbn [fst].
  unfold bucket_of. rewrite Hnone. cbn [default]. destruct Hinv as [-> _].
  rewrite update_full by reflexivity. reflexivity.
Qed.

Lemma limiter_invariant_witness :
  fst (is_rate_limited 3 1000 6
         (_spoiler_cooldown (snd (on_raw_reaction_add env_viewer (reaction 1000 5)
                                    Buttons_init))))
  = false.
Proof.
  apply (proj2 (limiter_invariant
                  (snd (on_raw_reaction_add env_viewer (reaction 1000 5) Buttons_init))
                  (reach_reaction env_viewer (reaction 1000 5) Buttons_init reach_init))).
  vm_compute. reflexivity.
Defined.

(* ===================================================================== *)
(** ** Feedback *)
(* ===================================================================== *)

Lemma substring_0_length n s : (String.length (substring 0 n s) <= n)%nat.
Proof.
  revert s. induction n as [|n IH]; intros [|c s]; simpl; try lia.
  specialize (IH s). lia.
Qed.

Lemma substring_0_all n s : (String.length s <= n)%nat -> substring 0 n s = s.
Proof.
  revert s. induction n as [|n IH]; intros [|c s]; simpl; intros H;
    try reflexivity; try lia.
  rewrite IH by lia. reflexivity.
Qed.

Lemma substring_0_prefix n s : exists rest, s = (substring 0 n s ++ rest)%string.
Proof.
  revert s. induction n as [|n IH]; intros [|c s]; simpl.
  - exists "". reflexivity.
  - exists (String c s). reflexivity.
  - exists "". reflexivity.
  - destruct (IH s) as [rest Hr]. exists rest.
    change (String c s = String c (substring 0 n s ++ rest)). f_equal. exact Hr.
Qed.

Lemma get_feedback_embed_slots obj summary details :
  let e := stamped_embed (get_feedback_embed obj summary details) in
  embed_title e = match details with
                  | Some _ => Some (substring 0 256 summary)
                  | None => Some "Feedback"
                  end
  /\ embed_description e = match details with
                           | Some d => Some d
                           | None => Some summary
                           end
  /\ embed_author_name e = Some (reporter_str (origin_user obj))
  /\ embed_footer_text e
     = Some ("Author ID: " ++ Py.str_of_int (reporter_id (origin_user obj))).
Proof.
  unfold get_feedback_embed.
  destruct obj as [i|c]; destruct details as [d|]; cbn [origin_guild origin_channel];
    repeat match goal with
           | |- context [match ?x with Some _ => _ | None => _ end] => destruct x
           end; cbv zeta; simpl; auto.
Qed.

(** X12.  The title of a feedback embed never exceeds the 256 characters an
    embed title may have: with details given it is the summary cut to its
    first 256 characters (the whole summary when that is short enough),
    and the details are the description; without details the title is
    "Feedback" and the whole summary is the description. *)
Theorem feedback_title_bounded obj summary details :
  let e := stamped_embed (get_feedback_embed obj summary details) in
  (exists t, embed_title e = Some t /\ (String.length t <= 256)%nat)
  /\ (forall d, details = Some d ->
        embed_description e = Some d
        /\ embed_title e = Some (substring 0 256 summary)
        /\ (exists t rest, embed_title e = Some t /\ summary = (t ++ rest)%string)
        /\ ((String.length summary <= 256)%nat -> embed_title e = Some summary))
  /\ (details = None ->
        embed_title e = Some "Feedback" /\ embed_description e = Some summary).
Proof.
  intros e. destruct (get_feedback_embed_slots obj summary details) as (Ht & Hd & _).
  fold e in Ht, Hd. split_and!.
  - destruct details; eexists; (split; [exact Ht|]).
    + apply substring_0_length.
    + simpl. lia.
  - intros d ->. split_and!; [exact Hd | exact Ht | |].
    + destruct (substring_0_prefix 256 summary) as [rest Hr]. eauto.
    + intros Hlen. rewrite Ht, substring_0_all by exact Hlen. reflexivity.
  - intros ->. split; [exact Ht | exact Hd].
Qed.

Lemma feedback_title_bounded_witness :
  embed_title (stamped_embed (get_feedback_embed (OfContext feedback_ctx) "more buttons" None))
  = Some "Feedback"
  /\ embed_title (stamped_embed (get_feedback_embed (OfInteraction feedback_interaction)
                                   "more buttons" (Some "on every message")))
     = Some "more buttons".
Proof.
  split.
  - exact (proj1 (proj2 (proj2 (feedback_title_bounded (OfContext feedback_ctx)
                                  "more buttons" None)) eq_refl)).
  - destruct (proj1 (proj2 (feedback_title_bounded (OfInteraction feedback_interaction)
                              "more buttons" (Some "on every message")))
                "on every message" eq_refl) as (_ & _ & _ & H).
    apply H. vm_compute. lia.
Defined.

(** X13.  The footer of a feedback embed names its author by id in a form that
    reads back: the text after "Author ID: " parses, as [int], to the id
    of the user the report comes from (the interaction's user, or the
    author of the command), and the author slot is that user's name. *)
Theorem feedback_footer_names_author obj summary details :
  let e := stamped_embed (get_feedback_embed obj summary details) in
  exists digits,
    embed_footer_text e = Some ("Author ID: " ++ digits)
    /\ py_int (Some digits) = Return (reporter_id (origin_user obj))
    /\ embed_author_name e = Some (reporter_str (origin_user obj)).
Proof.
  intros e. destruct (get_feedback_embed_slots obj summary details) as (_ & _ & Ha & Hf).
  exists (Py.str_of_int (reporter_id (origin_user obj))).
  split_and!; [exact Hf | apply py_int_str | exact Ha].
Qed.

(** X14.  Feedback is confirmed only once it was delivered.  With the feedback
    channel missing the command does nothing at all, while the modal
    answers with an apology; with the channel found both send the embed
    to it first and confirm only if that send returned; when it raises,
    the exception escapes and nothing is confirmed. *)
Theorem feedback_delivery env :
  (feedback_channel env = None ->
     (forall ctx content s, feedback env ctx content s = (Return tt, s))
     /\ (forall summary details interaction s,
           on_submit env summary details interaction s
           = (interaction_send env
                (Some "Could not submit your feedback, sorry about this") None,
              log (EvInteractionSend
                     (Some "Could not submit your feedback, sorry about this") None) s)))
  /\ (forall channel, feedback_channel env = Some channel ->
        (forall ctx content s,
           let e := stamped_embed (get_feedback_embed (OfContext ctx) content None) in
           let reply := (fctx_tick_true ctx ++ " Successfully sent feedback")%string in
           feedback env ctx content s
           = match channel_send env channel e [] with
             | Raise x => (Raise x, log (EvChannelSend channel e []) s)
             | Return _ =>
                 (ctx_send_unit (ctx_send env (Some reply) None),
                  log (EvCtxSend (Some reply) None) (log (EvChannelSend channel e []) s))
             end)
        /\ (forall summary details interaction s,
              let e := stamped_embed
                         (get_feedback_embed (OfInteraction interaction) summary details) in
              on_submit env summary details interaction s
              = match channel_send env channel e [] with
                | Raise x => (Raise x, log (EvChannelSend channel e []) s)
                | Return _ =>
                    (interaction_send env (Some "Successfully submitted feedback") None,
                     log (EvInteractionSend (Some "Successfully submitted feedback") None)
                       (log (EvChannelSend channel e []) s))
                end)).
Proof.
  split.
  - intros Hch. split.
    + intros ctx content s. unfold feedback. rewrite Hch. reflexivity.
    + intros summary details i s. unfold on_submit. rewrite Hch. reflexivity.
  - intros channel Hch. split.
    + intros ctx content s e reply. unfold feedback. rewrite Hch. fold e. fold reply. run.
      destruct (channel_send env channel e []); [|reflexivity]. simpl.
      destruct (ctx_send env (Some reply) None); reflexivity.
    + intros summary details i s e. unfold on_submit. rewrite Hch. fold e. run.
      destruct (channel_send env channel e []); reflexivity.
Qed.

Lemma feedback_delivery_witness :
  feedback env_ok feedback_ctx "more buttons" Buttons_init = (Return tt, Buttons_init)
  /\ fst (on_submit (env_feedback (Raise server_error)) "more buttons" None
            feedback_interaction Buttons_init)
     = Raise server_error.
Proof.
  split.
  - apply (proj1 (feedback_delivery env_ok)). reflexivity.
  - rewrite (proj2 (proj2 (feedback_delivery (env_feedback (Raise server_error)))
                      feedback_id eq_refl)).
    reflexivity.
Defined.

(* ===================================================================== *)
(** ** Reddit media *)
(* ===================================================================== *)

Lemma getitem_0_raises x e :
  getitem_0 x = Raise e ->
  exn_cls e = KeyError \/ exn_cls e = TypeError \/ exn_cls e = IndexError.
Proof.
  destruct x as [| | | |[|c s]|[|y xs]|items]; simpl; intros [= <-]; simpl; auto.
Qed.

Lemma getitem_str_raises x key e :
  getitem_str x key = Raise e -> exn_cls e = KeyError \/ exn_cls e = TypeError.
Proof.
  destruct x as [| | | | | |items]; simpl; try (intros [= <-]; simpl; auto).
  destruct (dict_get key items); intros [= <-]; simpl; auto.
Qed.

Lemma and_then_raises {A B} (r : result A) (k : A -> result B) e :
  and_then r k = Raise e -> r = Raise e \/ exists a, r = Return a /\ k a = Raise e.
Proof. destruct r as [a|e']; simpl; [eauto | intros [= ->]; auto]. Qed.

Lemma reddit_video_of_raises x e :
  reddit_video_of x = Raise e -> exn_cls e = KeyError \/ exn_cls e = TypeError.
Proof.
  unfold reddit_video_of. intros H.
  apply and_then_raises in H as [H | (m & _ & H)]; eapply getitem_str_raises; eauto.
Qed.

Lemma submission_of_raises data e :
  submission_of data = Raise e ->
  exn_cls e = KeyError \/ exn_cls e = TypeError \/ exn_cls e = IndexError.
Proof.
  unfold submission_of. intros H.
  repeat match goal with
         | H : and_then _ _ = Raise _ |- _ =>
             apply and_then_raises in H as [H | (? & _ & H)]
         | H : getitem_0 _ = Raise _ |- _ => apply getitem_0_raises in H
         | H : getitem_str _ _ = Raise _ |- _ => apply getitem_str_raises in H
         end; tauto.
Qed.

Lemma isinstance_lookup e :
  exn_cls e = KeyError \/ exn_cls e = TypeError \/ exn_cls e = IndexError ->
  isinstance e [KeyError; TypeError; IndexError] = true.
Proof. unfold isinstance. intros [-> | [-> | ->]]; reflexivity. Qed.

Lemma isinstance_key_type e :
  exn_cls e = KeyError \/ exn_cls e = TypeError ->
  isinstance e [KeyError; TypeError] = true.
Proof. unfold isinstance. intros [-> | ->]; reflexivity. Qed.

(** The three ways the search for the media object ends. *)
Lemma find_media_cases (data : json) :
  (exists media, find_media data = Converted media)
  \/ find_media data = BadArgument "Could not fetch submission."
  \/ find_media data = BadArgument "Could not fetch media information.".
Proof.
  unfold find_media.
  destruct (submission_of data) as [submission|e] eqn:Hs.
  2: { apply submission_of_raises in Hs. rewrite isinstance_lookup by exact Hs. auto. }
  destruct (reddit_video_of submission) as [media|e] eqn:Hm; [eauto|].
  apply reddit_video_of_raises in Hm. rewrite isinstance_key_type by exact Hm.
  destruct (and_then _ reddit_video_of) as [media|e'] eqn:Hc; [eauto|].
  right. right. rewrite isinstance_lookup; [reflexivity|].
  apply and_then_raises in Hc as [Hc | (x & _ & Hc)].
  - apply and_then_raises in Hc as [Hc | (x & _ & Hc)].
    + apply getitem_str_raises in Hc. tauto.
    + apply getitem_0_raises in Hc. exact Hc.
  - apply reddit_video_of_raises in Hc. tauto.
Qed.

(** X15.  Subscripting the JSON document never lets an exception escape from the
    search for the media object: whatever the document is (not a list, an
    empty listing, a text post, entries of the wrong type, no cross post),
    lines 145-158 give a media value or raise [BadArgument] with one of
    the two messages.  The video of the submission itself comes first: the
    cross post is consulted only when the submission has none. *)
Theorem media_lookup_raises_bad_argument (data : json) :
  ((exists media, find_media data = Converted media)
   \/ find_media data = BadArgument "Could not fetch submission."
   \/ find_media data = BadArgument "Could not fetch media information.")
  /\ (forall e, find_media data <> Failed e)
  /\ (forall submission media,
        submission_of data = Return submission ->
        reddit_video_of submission = Return media ->
        find_media data = Converted media)
  /\ (forall submission e,
        submission_of data = Return submission ->
        reddit_video_of submission = Raise e ->
        find_media data
        = match and_then (and_then (getitem_str submission "crosspost_parent_list")
                            getitem_0)
                  reddit_video_of with
          | Return media => Converted media
          | Raise _ => BadArgument "Could not fetch media information."
          end).
Proof.
  pose proof (find_media_cases data) as Hc. split_and!.
  - exact Hc.
  - intros e He. rewrite He in Hc. destruct Hc as [[m Hm] | [Hm | Hm]]; discriminate.
  - intros submission media Hs Hm. unfold find_media. rewrite Hs, Hm. reflexivity.
  - intros submission e Hs Hm. revert Hc. unfold find_media. rewrite Hs, Hm.
    apply reddit_video_of_raises in Hm. rewrite isinstance_key_type by exact Hm.
    destruct (and_then _ reddit_video_of) as [media|e']; [reflexivity|].
    destruct (isinstance e' [KeyError; TypeError; IndexError]); [reflexivity|].
    intros [[m Hm'] | [Hm' | Hm']]; discriminate.
Qed.

(** X16.  After the JSON document was read, [convert] ends with an exception
    other than [BadArgument] in three cases only: the media value is not
    an object, so that [media['fallback_url']] raises [TypeError]; the
    fallback value is there but [yarl.URL] raises on it (a [TypeError]
    when it is not a string); or the fallback URL has fewer than two path
    parts, so that [url.parts[1]] raises [IndexError].  A media value that
    is not an object always ends in the first case. *)
Theorem convert_escapes web (data : json) :
  (forall e, media_of_json web data = Failed e ->
     exists media,
       find_media data = Converted media
       /\ ((getitem_str media "fallback_url" = Raise e /\ exn_cls e = TypeError
            /\ forall items, media <> JDict items)
           \/ (exists v, getitem_str media "fallback_url" = Return v
                         /\ yarl_URL_of web v = Raise e /\ exn_cls e <> KeyError)
           \/ (exists v u, getitem_str media "fallback_url" = Return v
                           /\ yarl_URL_of web v = Return u
                           /\ (length (url_parts u) < 2)%nat
                           /\ exn_cls e = IndexError)))
  /\ (forall media, find_media data = Converted media ->
        (forall items, media <> JDict items) ->
        exists e, media_of_json web data = Failed e /\ exn_cls e = TypeError).
Proof.
  split.
  - intros e. unfold media_of_json.
    destruct (find_media_cases data) as [[media Hm] | [Hm | Hm]];
      rewrite Hm; try discriminate.
    intros H. exists media. split; [reflexivity|].
    unfold fallback_url_of in H.
    destruct (getitem_str media "fallback_url") as [v|e1] eqn:Hg; cbn [and_then] in H.
    + destruct (yarl_URL_of web v) as [u|e2] eqn:Hy.
      * right. right. exists v, u. unfold RedditMediaURL_init in H.
        destruct (nth_error (url_parts u) 1) eqn:Hn; [discriminate|].
        injection H as <-. apply nth_error_None in Hn. split_and!; auto. lia.
      * right. left. exists v.
        destruct (isinstance e2 [KeyError]) eqn:Hi; [discriminate|].
        injection H as <-. split_and!; auto.
        intros Hk. unfold isinstance in Hi. rewrite Hk in Hi. discriminate.
    + left. destruct (isinstance e1 [KeyError]) eqn:Hi; [discriminate|].
      injection H as <-.
      destruct media as [| | | | | |items]; simpl in Hg;
        try (injection Hg as <-; split_and!; [reflexivity | reflexivity | discriminate]).
      destruct (dict_get "fallback_url" items); [discriminate|].
      injection Hg as <-. discriminate Hi.
  - intros media Hm Hno. unfold media_of_json, fallback_url_of. rewrite Hm.
    destruct media as [| | | | | |items]; simpl;
      try (eexists; split; reflexivity).
    exfalso. apply (Hno items). reflexivity.
Qed.

Lemma convert_escapes_witness :
  exists e, fst (convert (web_of null_video "0")
                   "https://www.reddit.com/r/aww/comments/abc" [])
            = Failed e
            /\ exn_cls e = TypeError.
Proof.
  destruct (proj2 (convert_escapes (web_of null_video "0") null_video) JNull eq_refl)
    as (e & He & Hc).
  - discriminate.
  - exists e. split; [|exact Hc].
    vm_compute. vm_compute in He. exact He.
Defined.

Lemma media_of_json_filename web data m :
  media_of_json web data = Converted m ->
  exists part,
    nth_error (url_parts (media_url m)) 1 = Some part
    /\ media_filename m = part ++ ".mp4".
Proof.
  unfold media_of_json.
  destruct (find_media data) as [media| |]; try discriminate.
  destruct (fallback_url_of web media) as [u| |]; try discriminate.
  unfold RedditMediaURL_init.
  destruct (nth_error (url_parts u) 1) as [part|] eqn:Hn; [|discriminate].
  intros [= <-]. exists part. split; [exact Hn | reflexivity].
Qed.

(** The API request: one GET; a media URL comes from a 200 answer whose
    JSON document gives one. *)
Lemma the_long_way_cases web base t r t' :
  the_long_way web base t = (r, t') ->
  t' = (t ++ [ReqGet (url_truediv web base ".json") headers])%list
  /\ forall m, r = Converted m ->
       exists resp data,
         session_get_url web (url_truediv web base ".json") headers = Return resp
         /\ status (resp_base resp) = 200
         /\ resp_json resp = Return data
         /\ media_of_json web data = Converted m.
Proof.
  unfold the_long_way, bindW, bad_argument, awaitW, liftW. cbv zeta.
  destruct (session_get_url web (url_truediv web base ".json") headers) as [resp|e] eqn:Hg;
    cbn [of_result].
  2: { intros [= <- <-]. split; [reflexivity | intros m [=]]. }
  destruct (Z.eqb_spec (status (resp_base resp)) 200) as [Hs|Hs]; cbn [negb].
  2: { intros [= <- <-]. split; [reflexivity | intros m [=]]. }
  destruct (resp_json resp) as [data|e] eqn:Hj; cbn [of_result].
  2: { intros [= <- <-]. split; [reflexivity | intros m [=]]. }
  intros [= <- <-]. split; [reflexivity|]. intros m Hm. exists resp, data. auto.
Qed.

(** Closing one case of [convert]: the operations, and what they are. *)
Ltac convert_case :=
  intros [= <- <-];
  eexists;
  (split; [first [rewrite <- ?app_assoc; reflexivity | symmetry; apply app_nil_r]|]);
  split_and!;
  [ reflexivity
  | simpl; lia
  | intros ? ? Hin; simpl in Hin;
    repeat match goal with
           | H : _ \/ _ |- _ => destruct H as [H|H]
           | H : False |- _ => destruct H
           | H : ReqGet _ _ = ReqGet _ _ |- _ => injection H as <- <-
           | H : _ = ReqGet _ _ |- _ => discriminate H
           end; (split; [reflexivity|]); eauto
  | try (intros ? [=]) ].

(** The GET requests of [convert], and where a media URL comes from. *)
Lemma convert_gets web argument t r t' :
  convert web argument t = (r, t') ->
  exists reqs,
    t' = (t ++ reqs)%list
    /\ List.filter is_send reqs = []
    /\ (length reqs <= 3)%nat
    /\ (forall u h, In (ReqGet u h) reqs ->
          h = headers
          /\ ((yarl_URL web argument = Return u /\ url_host u = Some "v.redd.it")
              \/ exists base, u = url_truediv web base ".json" /\ is_valid_path base = true))
    /\ (forall m, r = Converted m ->
          exists base resp data part,
            is_valid_path base = true
            /\ In (ReqGet (url_truediv web base ".json") headers) reqs
            /\ session_get_url web (url_truediv web base ".json") headers = Return resp
            /\ status (resp_base resp) = 200
            /\ resp_json resp = Return data
            /\ media_of_json web data = Converted m
            /\ nth_error (url_parts (media_url m)) 1 = Some part
            /\ media_filename m = part ++ ".mp4").
Proof.
  unfold convert, bindW, retW, bad_argument, awaitW, liftW.
  destruct (yarl_URL web argument) as [u|e0] eqn:Hu; [|convert_case].
  destruct (ctx_typing web) as [[]|e1]; cbn [of_result]; [|convert_case].
  destruct (bool_decide (url_host u = Some "v.redd.it")) eqn:Hv.
  - apply bool_decide_eq_true in Hv.
    destruct (session_get_url web u headers) as [resp0|e2] eqn:Hg0; cbn [of_result];
      [|convert_case].
    destruct (is_valid_path (resp_url resp0)) eqn:Hvalid; cbn [negb]; [|convert_case].
    intros H. apply the_long_way_cases in H as [-> Hm].
    exists [ReqTyping; ReqGet u headers;
            ReqGet (url_truediv web (resp_url resp0) ".json") headers].
    split_and!.
    + rewrite <- !app_assoc. reflexivity.
    + reflexivity.
    + simpl. lia.
    + intros u0 h [Hin|[Hin|[Hin|[]]]]; [discriminate Hin | |];
        injection Hin as <- <-; (split; [reflexivity|]); eauto.
    + intros m Hr. destruct (Hm m Hr) as (resp & data & H1 & H2 & H3 & H4).
      destruct (media_of_json_filename _ _ _ H4) as (part & H5 & H6).
      exists (resp_url resp0), resp, data, part. split_and!; auto.
      simpl. auto.
  - destruct (is_valid_path u) eqn:Hvalid; cbn [negb]; [|convert_case].
    intros H. apply the_long_way_cases in H as [-> Hm].
    exists [ReqTyping; ReqGet (url_truediv web u ".json") headers].
    split_and!.
    + rewrite <- !app_assoc. reflexivity.
    + reflexivity.
    + simpl. lia.
    + intros u0 h [Hin|[Hin|[]]]; [discriminate Hin|].
      injection Hin as <- <-. split; [reflexivity|]. eauto.
    + intros m Hr. destruct (Hm m Hr) as (resp & data & H1 & H2 & H3 & H4).
      destruct (media_of_json_filename _ _ _ H4) as (part & H5 & H6).
      exists u, resp, data, part. split_and!; auto.
      simpl. auto.
Qed.

(** The operations of [convert], step by step. *)
Lemma convert_shape web argument t r t' :
  convert web argument t = (r, t') ->
  exists reqs,
    t' = (t ++ reqs)%list
    /\ (forall e, yarl_URL web argument = Raise e ->
          reqs = [] /\ r = BadArgument "Not a valid URL.")
    /\ (forall u, yarl_URL web argument = Return u ->
          exists gets,
            reqs = ReqTyping :: gets
            /\ List.filter is_get gets = gets
            /\ (length gets <= 2)%nat
            /\ (forall e, ctx_typing web = Raise e -> gets = [] /\ r = Failed e)
            /\ (ctx_typing web = Return tt ->
                  if bool_decide (url_host u = Some "v.redd.it") then
                    exists rest,
                      gets = ReqGet u headers :: rest
                      /\ (forall e, session_get_url web u headers = Raise e ->
                            rest = [] /\ r = Failed e)
                      /\ (forall resp, session_get_url web u headers = Return resp ->
                            if is_valid_path (resp_url resp)
                            then rest = [ReqGet (url_truediv web (resp_url resp) ".json")
                                           headers]
                            else rest = [] /\ r = BadArgument "Not a reddit URL.")
                  else
                    if is_valid_path u
                    then gets = [ReqGet (url_truediv web u ".json") headers]
                    else gets = [] /\ r = BadArgument "Not a reddit URL.")).
Proof.
  unfold convert, bindW, retW, bad_argument, awaitW, liftW.
  destruct (yarl_URL web argument) as [u|e0] eqn:Hu.
  2: { intros [= <- <-]. exists []. split_and!.
       - symmetry. apply app_nil_r.
       - intros e _. auto.
       - intros u [=]. }
  destruct (ctx_typing web) as [[]|e1] eqn:Hty; cbn [of_result].
  2: { intros [= <- <-]. exists [ReqTyping]. split_and!; [reflexivity | intros e [=] |].
       intros u' [= <-]. exists []. split_and!; [reflexivity | reflexivity | simpl; lia | |].
       - intros e [= <-]. auto.
       - intros [=]. }
  destruct (bool_decide (url_host u = Some "v.redd.it")) eqn:Hv.
  - destruct (session_get_url web u headers) as [resp0|e2] eqn:Hg0; cbn [of_result].
    2: { intros [= <- <-]. exists [ReqTyping; ReqGet u headers].
         split_and!; [rewrite <- !app_assoc; reflexivity | intros e [=] |].
         intros u' [= <-]. exists [ReqGet u headers].
         split_and!; [reflexivity | reflexivity | simpl; lia | intros e [=] |].
         intros _. rewrite Hv. exists []. split_and!; [reflexivity | |].
         - intros e He. rewrite Hg0 in He. injection He as <-. auto.
         - intros resp He. rewrite Hg0 in He. discriminate He. }
    destruct (is_valid_path (resp_url resp0)) eqn:Hvalid; cbn [negb].
    2: { intros [= <- <-]. exists [ReqTyping; ReqGet u headers].
         split_and!; [rewrite <- !app_assoc; reflexivity | intros e [=] |].
         intros u' [= <-]. exists [ReqGet u headers].
         split_and!; [reflexivity | reflexivity | simpl; lia | intros e [=] |].
         intros _. rewrite Hv. exists []. split_and!; [reflexivity | |].
         - intros e He. rewrite Hg0 in He. discriminate He.
         - intros resp He. rewrite Hg0 in He. injection He as <-. rewrite Hvalid. auto. }
    intros H. apply the_long_way_cases in H as [-> _].
    exists [ReqTyping; ReqGet u headers;
            ReqGet (url_truediv web (resp_url resp0) ".json") headers].
    split_and!; [rewrite <- !app_assoc; reflexivity | intros e [=] |].
    intros u' [= <-]. eexists [_; _].
    split_and!; [reflexivity | reflexivity | simpl; lia | intros e [=] |].
    intros _. rewrite Hv. eexists [_]. split_and!; [reflexivity | |].
    + intros e He. rewrite Hg0 in He. discriminate He.
    + intros resp He. rewrite Hg0 in He. injection He as <-. rewrite Hvalid. reflexivity.
  - destruct (is_valid_path u) eqn:Hvalid; cbn [negb].
    2: { intros [= <- <-]. exists [ReqTyping].
         split_and!; [reflexivity | intros e [=] |].
         intros u' [= <-]. exists [].
         split_and!; [reflexivity | reflexivity | simpl; lia | intros e [=] |].
         intros _. rewrite Hv, Hvalid. auto. }
    intros H. apply the_long_way_cases in H as [-> _].
    exists [ReqTyping; ReqGet (url_truediv web u ".json") headers].
    split_and!; [rewrite <- !app_assoc; reflexivity | intros e [=] |].
    intros u' [= <-]. eexists [_].
    split_and!; [reflexivity | reflexivity | simpl; lia | intros e [=] |].
    intros _. rewrite Hv, Hvalid. reflexivity.
Qed.

(** X17.  What [convert] asks of the remote side.  An argument that is no
    URL is refused without any operation.  Otherwise the first operation
    is the typing indicator, and every later one is a GET request with
    the User-Agent header, at most two of them, and never a message: for
    a [v.redd.it] link the first request resolves the link, and its
    failure escapes; a URL whose host does not end in ".reddit.com" is
    refused without the API request; otherwise the API request goes to
    that URL followed by ".json".  A media URL is returned only from a
    200 answer of that API request, and its file name is the second path
    part of the fallback URL followed by ".mp4". *)
Theorem convert_requests web argument t r t' :
  convert web argument t = (r, t') ->
  exists reqs,
    t' = (t ++ reqs)%list
    /\ List.filter is_send reqs = []
    /\ (length reqs <= 3)%nat
    /\ (forall u h, In (ReqGet u h) reqs ->
          h = headers
          /\ ((yarl_URL web argument = Return u /\ url_host u = Some "v.redd.it")
              \/ exists base, u = url_truediv web base ".json" /\ is_valid_path base = true))
    /\ (forall m, r = Converted m ->
          exists base resp data part,
            is_valid_path base = true
            /\ In (ReqGet (url_truediv web base ".json") headers) reqs
            /\ session_get_url web (url_truediv web base ".json") headers = Return resp
            /\ status (resp_base resp) = 200
            /\ resp_json resp = Return data
            /\ media_of_json web data = Converted m
            /\ nth_error (url_parts (media_url m)) 1 = Some part
            /\ media_filename m = part ++ ".mp4")
    /\ (forall e, yarl_URL web argument = Raise e ->
          reqs = [] /\ r = BadArgument "Not a valid URL.")
    /\ (forall u, yarl_URL web argument = Return u ->
          exists gets,
            reqs = ReqTyping :: gets
            /\ List.filter is_get gets = gets
            /\ (length gets <= 2)%nat
            /\ (forall e, ctx_typing web = Raise e -> gets = [] /\ r = Failed e)
            /\ (ctx_typing web = Return tt ->
                  if bool_decide (url_host u = Some "v.redd.it") then
                    exists rest,
                      gets = ReqGet u headers :: rest
                      /\ (forall e, session_get_url web u headers = Raise e ->
                            rest = [] /\ r = Failed e)
                      /\ (forall resp, session_get_url web u headers = Return resp ->
                            if is_valid_path (resp_url resp)
                            then rest = [ReqGet (url_truediv web (resp_url resp) ".json")
                                           headers]
                            else rest = [] /\ r = BadArgument "Not a reddit URL.")
                  else
                    if is_valid_path u
                    then gets = [ReqGet (url_truediv web u ".json") headers]
                    else gets = [] /\ r = BadArgument "Not a reddit URL.")).
Proof.
  intros H.
  destruct (convert_gets _ _ _ _ _ H) as (reqs & Ht & H1 & H2 & H3 & H4).
  destruct (convert_shape _ _ _ _ _ H) as (reqs' & Ht' & H5 & H6).
  assert (reqs' = reqs) by (rewrite Ht in Ht'; apply app_inv_head in Ht'; congruence).
  subst reqs'. exists reqs. split_and!; assumption.
Qed.

Lemma convert_requests_witness :
  snd (convert (web_of with_video "0") "https://www.reddit.com/r/aww/comments/abc" [])
  = [ReqTyping; ReqGet (url_truediv (web_of with_video "0") post_url ".json") headers].
Proof.
  destruct (convert_requests (web_of with_video "0")
              "https://www.reddit.com/r/aww/comments/abc" []
              (fst (convert (web_of with_video "0")
                      "https://www.reddit.com/r/aww/comments/abc" []))
              (snd (convert (web_of with_video "0")
                      "https://www.reddit.com/r/aww/comments/abc" []))
              eq_refl) as (reqs & Ht & _ & _ & _ & _ & _ & H).
  destruct (H post_url eq_refl) as (gets & Hreqs & _ & _ & _ & Hgets).
  specialize (Hgets eq_refl). cbn in Hgets.
  rewrite Ht, Hreqs, Hgets. reflexivity.
Defined.

(** Closing one case of [vreddit]. *)
Ltac vreddit_case :=
  intros [= <- <-];
  eexists; (split; [rewrite <- ?app_assoc; reflexivity|]);
  split_and!;
  [ simpl; lia
  | try (intros ? [=]); try (intros; reflexivity)
  | intros ? Hin; simpl in Hin;
    repeat match goal with
           | H : _ \/ _ |- _ => destruct H as [H|H]
           | H : False |- _ => destruct H
           | H : ReqSendFile _ = ReqSendFile _ |- _ => injection H as <-
           | H : _ = ReqSendFile _ |- _ => discriminate H
           end; eauto 10
  | intros ? Hin; simpl in Hin;
    repeat match goal with
           | H : _ \/ _ |- _ => destruct H as [H|H]
           | H : False |- _ => destruct H
           | H : ReqSendText _ = ReqSendText _ |- _ => injection H as <-
           | H : _ = ReqSendText _ |- _ => discriminate H
           end; eauto 10 ].

(** X18.  [vreddit] downloads with one GET request and then sends at most one
    message; a run that returns has sent exactly one.  A file is uploaded
    only when the download was answered with status 200 and a declared
    [Content-Length] strictly below the size limit, which is the guild's
    limit or 8388608 bytes outside a guild; the file carries the content
    read and the file name of the media URL.  A text is sent only for a
    status other than 200 or a declared length at or above the limit. *)
Theorem vreddit_upload_guard web guild_filesize_limit reddit t r t' :
  vreddit web guild_filesize_limit reddit t = (r, t') ->
  let filesize := default 8388608 guild_filesize_limit in
  exists reqs,
    t' = (t ++ ReqGet (media_url reddit) [] :: reqs)%list
    /\ (length reqs <= 1)%nat
    /\ (forall u, r = Converted u -> length (List.filter is_send reqs) = 1%nat)
    /\ (forall file, In (ReqSendFile file) reqs ->
          exists resp declared data,
            session_get_url web (media_url reddit) [] = Return resp
            /\ status (resp_base resp) = 200
            /\ header_content_length (resp_base resp) = Return declared
            /\ declared < filesize
            /\ read (resp_base resp) = Return data
            /\ file = {| file_fp := data; file_filename := media_filename reddit |})
    /\ (forall content, In (ReqSendText content) reqs ->
          exists resp,
            session_get_url web (media_url reddit) [] = Return resp
            /\ ((status (resp_base resp) <> 200 /\ content = "Could not download video.")
                \/ (exists declared,
                      status (resp_base resp) = 200
                      /\ header_content_length (resp_base resp) = Return declared
                      /\ filesize <= declared
                      /\ content = "Video is too big to be uploaded."))).
Proof.
  intros H filesize. revert H.
  unfold vreddit, bindW, retW, awaitW, liftW.
  change (match guild_filesize_limit with Some limit => limit | None => 8388608 end)
    with filesize.
  destruct (session_get_url web (media_url reddit) []) as [resp|e] eqn:Hg; cbn [of_result];
    [|vreddit_case].
  destruct (Z.eqb_spec (status (resp_base resp)) 200) as [Hs|Hs]; cbn [negb].
  2: { destruct (ctx_send_text web "Could not download video."); cbn [of_result];
         vreddit_case. }
  destruct (header_content_length (resp_base resp)) as [declared|e] eqn:Hd; cbn [of_result];
    [|vreddit_case].
  rewrite Z.geb_leb. destruct (Z.leb_spec filesize declared) as [Hbig|Hsmall].
  { destruct (ctx_send_text web "Video is too big to be uploaded."); cbn [of_result];
      vreddit_case. }
  destruct (read (resp_base resp)) as [data|e] eqn:Hr; cbn [of_result]; [|vreddit_case].
  destruct (ctx_send_file web _); cbn [of_result]; vreddit_case.
Qed.

Lemma vreddit_upload_guard_witness :
  snd (vreddit (web_of with_video "8388608") None
         {| media_url := video_url; media_filename := "xyz.mp4" |} [])
  = [ReqGet video_url []; ReqSendText "Video is too big to be uploaded."].
Proof.
  destruct (vreddit_upload_guard (web_of with_video "8388608") None
              {| media_url := video_url; media_filename := "xyz.mp4" |} []
              (fst (vreddit (web_of with_video "8388608") None
                      {| media_url := video_url; media_filename := "xyz.mp4" |} []))
              (snd (vreddit (web_of with_video "8388608") None
                      {| media_url := video_url; media_filename := "xyz.mp4" |} []))
              eq_refl) as (reqs & Ht & _).
  rewrite Ht. vm_compute in Ht. injection Ht as <-. reflexivity.
Defined.
